(** * fswatcher: watch registry, pattern filter and callback dispatch

    A shallow embedding of [fswatcher.c].  The program keeps its state in
    file-level globals and talks to the kernel (inotify), to libc
    ([fnmatch], [nftw]) and to the diagnostic channels ([syslog],
    [printf], [fprintf(stderr)]).  The embedding threads one record,
    [world], through every function: it holds the globals, the replies the
    kernel is going to give to [inotify_add_watch], and the chronological
    trace of the externally visible calls the program has made. *)

From Stdlib Require Import ZArith Lia Bool Ascii String List.
From stdpp Require Import base list.
Import ListNotations.

Local Open Scope string_scope.
Local Open Scope Z_scope.

(** ** Constants of the program and of the system headers *)

Definition MAX_CALLBACKS : Z := 20.
Definition MAX_WATCHES : Z := 512.

(** [<limits.h>] on Linux. *)
Definition PATH_MAX : Z := 4096.

(** [<sys/inotify.h>]. *)
Definition IN_MODIFY : Z := 0x2.
Definition IN_ATTRIB : Z := 0x4.
Definition IN_MOVED_FROM : Z := 0x40.
Definition IN_MOVED_TO : Z := 0x80.
Definition IN_CREATE : Z := 0x100.
Definition IN_DELETE : Z := 0x200.
Definition IN_ISDIR : Z := 0x40000000.

(** [<syslog.h>]. *)
Definition LOG_ERR : Z := 3.
Definition LOG_WARNING : Z := 4.
Definition LOG_INFO : Z := 6.

(** [<ftw.h>]: type flags handed to the [nftw] callback. *)
Definition FTW_F : Z := 0.
Definition FTW_D : Z := 1.
Definition FTW_DNR : Z := 2.
Definition FTW_NS : Z := 3.
Definition FTW_SL : Z := 4.

(** A C truth value: zero is false, anything else is true. *)
Definition truthy (z : Z) : bool := negb (z =? 0).

(** The text of a C string buffer of [size] bytes after writing [s] into it
    with truncation and a final terminator ([strncpy] followed by a stored
    NUL at [size-1], or [snprintf] with that size): at most [size-1]
    characters survive. *)
Definition c_truncate (size : Z) (s : string) : string :=
  substring 0 (Z.to_nat (size - 1)) s.

Definition nl : string := String (ascii_of_nat 10) EmptyString.

(** ** Data model *)

(** [watch_info]: one slot of the watch table. *)
Record watch_info := { wd : Z; path : string }.

(** [event_callback]: a function pointer, modelled by the identity of the
    function it points to.  The three example handlers of the program are
    named; [cb_extern n] stands for any other handler. *)
Inductive event_callback :=
| cb_null
| on_file_created
| on_file_deleted
| on_file_modified
| cb_extern (n : nat).

(** [callback_info]: one slot of the callback table ([pattern] may be
    [NULL]). *)
Record callback_info :=
  { mask : Z; pattern : option string; callback : event_callback }.

(** [struct inotify_event], as decoded from the read buffer. *)
Record inotify_event :=
  { ev_wd : Z; ev_mask : Z; ev_cookie : Z; ev_len : Z; ev_name : string }.

(** Arguments of a formatted diagnostic. *)
Inductive arg :=
| AStr (s : string)
| AInt (z : Z)
| AStrerror.

(** A pointer handed to [free]: [NULL], or the block that [strdup]
    returned when the callback of slot [slot] was registered with a
    pattern. *)
Inductive pointer :=
| NULL
| Block (slot : nat) (contents : string).

(** Externally visible calls, in the order the program makes them.
    [Double_free] is a call of [free] on a block that an earlier call has
    freed already: undefined behaviour, on which the C library aborts the
    process when it detects it.  What a trace holds after such an entry is
    what this model goes on to compute, not something the program is bound
    to do. *)
Inductive effect :=
| Syslog (priority : Z) (fmt : string) (args : list arg)
| Fprintf_stderr (fmt : string) (args : list arg)
| Printf (fmt : string) (args : list arg)
| Perror (s : string)
| Sys_inotify_add_watch (fd : Z) (pathname : string) (mask : Z) (ret : Z)
| Sys_inotify_rm_watch (fd : Z) (wd : Z)
| Sys_close (fd : Z)
| Free (ptr : pointer)
| Double_free (ptr : pointer)
| Call (cb : event_callback) (path : string) (filename : string).

(** The globals of [fswatcher.c], the kernel's pending replies and the
    trace.  [watches] and [callbacks] are the fixed-size arrays; the live
    entries are the first [watch_count], respectively [callback_count],
    slots. *)
Record world := {
  fd : Z;
  daemon_mode : Z;
  recursive_mode : Z;
  watches : list watch_info;
  watch_count : Z;
  callbacks : list callback_info;
  callback_count : Z;
  patterns : list string;
  pattern_count : Z;
  kernel : list Z;
  trace : list effect
}.

Definition set_fd (v : Z) (w : world) : world :=
  {| fd := v; daemon_mode := daemon_mode w; recursive_mode := recursive_mode w;
     watches := watches w; watch_count := watch_count w;
     callbacks := callbacks w; callback_count := callback_count w;
     patterns := patterns w; pattern_count := pattern_count w;
     kernel := kernel w; trace := trace w |}.

Definition set_watches (v : list watch_info) (w : world) : world :=
  {| fd := fd w; daemon_mode := daemon_mode w; recursive_mode := recursive_mode w;
     watches := v; watch_count := watch_count w;
     callbacks := callbacks w; callback_count := callback_count w;
     patterns := patterns w; pattern_count := pattern_count w;
     kernel := kernel w; trace := trace w |}.

Definition set_watch_count (v : Z) (w : world) : world :=
  {| fd := fd w; daemon_mode := daemon_mode w; recursive_mode := recursive_mode w;
     watches := watches w; watch_count := v;
     callbacks := callbacks w; callback_count := callback_count w;
     patterns := patterns w; pattern_count := pattern_count w;
     kernel := kernel w; trace := trace w |}.

Definition set_callbacks (v : list callback_info) (w : world) : world :=
  {| fd := fd w; daemon_mode := daemon_mode w; recursive_mode := recursive_mode w;
     watches := watches w; watch_count := watch_count w;
     callbacks := v; callback_count := callback_count w;
     patterns := patterns w; pattern_count := pattern_count w;
     kernel := kernel w; trace := trace w |}.

Definition set_callback_count (v : Z) (w : world) : world :=
  {| fd := fd w; daemon_mode := daemon_mode w; recursive_mode := recursive_mode w;
     watches := watches w; watch_count := watch_count w;
     callbacks := callbacks w; callback_count := v;
     patterns := patterns w; pattern_count := pattern_count w;
     kernel := kernel w; trace := trace w |}.

Definition set_kernel (v : list Z) (w : world) : world :=
  {| fd := fd w; daemon_mode := daemon_mode w; recursive_mode := recursive_mode w;
     watches := watches w; watch_count := watch_count w;
     callbacks := callbacks w; callback_count := callback_count w;
     patterns := patterns w; pattern_count := pattern_count w;
     kernel := v; trace := trace w |}.

Definition set_trace (v : list effect) (w : world) : world :=
  {| fd := fd w; daemon_mode := daemon_mode w; recursive_mode := recursive_mode w;
     watches := watches w; watch_count := watch_count w;
     callbacks := callbacks w; callback_count := callback_count w;
     patterns := patterns w; pattern_count := pattern_count w;
     kernel := kernel w; trace := v |}.

(** The live part of the two tables and of the pattern vector: what the
    loops [for (i = 0; i < count; i++)] of the program range over. *)
Definition live_watches (w : world) : list watch_info :=
  take (Z.to_nat (watch_count w)) (watches w).

Definition live_callbacks (w : world) : list callback_info :=
  take (Z.to_nat (callback_count w)) (callbacks w).

Definition live_patterns (w : world) : list string :=
  take (Z.to_nat (pattern_count w)) (patterns w).

(** ** A state monad over [world] *)

Definition M (A : Type) : Type := world -> A * world.

Definition ret {A} (a : A) : M A := fun w => (a, w).

Definition bind {A B} (c : M A) (k : A -> M B) : M B :=
  fun w => let (a, w') := c w in k a w'.

Notation "'do' x <- c ; k" := (bind c (fun x => k))
  (at level 10, x name, c at level 100, k at level 200).
Notation "c ;; k" := (bind c (fun _ => k))
  (at level 100, k at level 200, right associativity).

Definition get {A} (f : world -> A) : M A := fun w => (f w, w).
Definition modify (f : world -> world) : M unit := fun w => (tt, f w).
Definition emit (e : effect) : M unit :=
  modify (fun w => set_trace (trace w ++ [e]) w).

Definition when (b : bool) (c : M unit) : M unit := if b then c else ret tt.

(** The body of a [for] loop run once per element, in order. *)
Fixpoint for_each {A} (l : list A) (body : A -> M unit) : M unit :=
  match l with
  | [] => ret tt
  | x :: rest => body x ;; for_each rest body
  end.

(** Run a computation for its final world, or for its result. *)
Definition exec {A} (c : M A) (w : world) : world := snd (c w).
Definition eval {A} (c : M A) (w : world) : A := fst (c w).

(** ** The environment *)

Definition syslog (priority : Z) (fmt : string) (args : list arg) : M unit :=
  emit (Syslog priority fmt args).
Definition fprintf_stderr (fmt : string) (args : list arg) : M unit :=
  emit (Fprintf_stderr fmt args).
Definition printf (fmt : string) (args : list arg) : M unit :=
  emit (Printf fmt args).
Definition perror (s : string) : M unit := emit (Perror s).

(** [inotify_add_watch(2)]: the kernel's answer is the next pending reply
    (a watch descriptor, or a negative value on failure); a kernel with no
    reply left refuses. *)
Definition next_reply (w : world) : Z :=
  match kernel w with [] => -1 | r :: _ => r end.

Definition inotify_add_watch (fd0 : Z) (pathname : string) (mask0 : Z) : M Z :=
  fun w =>
    let r := next_reply w in
    (r, set_trace (trace w ++ [Sys_inotify_add_watch fd0 pathname mask0 r])
          (set_kernel (tail (kernel w)) w)).

Definition inotify_rm_watch (fd0 : Z) (wd0 : Z) : M unit :=
  emit (Sys_inotify_rm_watch fd0 wd0).
Definition close (fd0 : Z) : M unit := emit (Sys_close fd0).

(** The blocks a trace has freed. *)
Definition freed (t : list effect) : list nat :=
  flat_map (fun e => match e with
                     | Free (Block slot _) => [slot]
                     | _ => []
                     end) t.

(** [free(3)]: nothing happens for [NULL]; a block is released, once. *)
Definition free (ptr : pointer) : M unit :=
  do t <- get trace;
  match ptr with
  | NULL => emit (Free NULL)
  | Block slot _ =>
      if existsb (Nat.eqb slot) (freed t)
      then emit (Double_free ptr)
      else emit (Free ptr)
  end.

#[local] Set Warnings "-register-all".

(** [nftw(3)] sees the file hierarchy below a path as a tree of entries,
    each with the type flag [nftw] reports for it; only entries reported
    as [FTW_D] are descended into. *)
Inductive fs_tree :=
| Entry (name : string) (typeflag : Z) (children : list fs_tree).

(** The path [nftw] starts from: the one it is given, without its
    trailing slashes; the first character stays, so that the root
    directory keeps its name. *)
Fixpoint strip_slashes (l : list ascii) : list ascii :=
  match l with
  | [] => []
  | c :: rest =>
      match strip_slashes rest with
      | [] => if Ascii.eqb c "/" then [] else [c]
      | rest' => c :: rest'
      end
  end.

Definition nftw_start (dirpath : string) : string :=
  match dirpath with
  | EmptyString => EmptyString
  | String c rest =>
      String c (string_of_list_ascii (strip_slashes (list_ascii_of_string rest)))
  end.

(** The path of an entry of the directory [fpath]: a slash is added
    unless [fpath] ends with one, as the root directory does. *)
Definition ends_with_slash (fpath : string) : bool :=
  match rev (list_ascii_of_string fpath) with
  | c :: _ => Ascii.eqb c "/"
  | [] => false
  end.

Definition entry_path (fpath name : string) : string :=
  if ends_with_slash fpath then fpath ++ name else fpath ++ "/" ++ name.

(** The visits of a pre-order physical walk ([FTW_PHYS], no [FTW_DEPTH]):
    path, type flag and level of each entry, the start of the walk at
    level 0. *)
Fixpoint nftw_visits (level : Z) (fpath : string) (t : fs_tree)
  : list (string * Z * Z) :=
  match t with
  | Entry _ typeflag children =>
      (fpath, typeflag, level) ::
      (if typeflag =? FTW_D then
         flat_map (fun c => match c with
                            | Entry name _ _ =>
                                nftw_visits (level + 1) (entry_path fpath name) c
                            end) children
       else [])
  end.

(** [nftw] calls [fn] on each visit and stops at the first non-zero
    result, which it returns. *)
Fixpoint nftw_run (fn : string -> Z -> Z -> M Z) (visits : list (string * Z * Z))
  : M Z :=
  match visits with
  | [] => ret 0
  | (fpath, typeflag, level) :: rest =>
      do r <- fn fpath typeflag level;
      if r =? 0 then nftw_run fn rest else ret r
  end.

Section Program.

(** [fnmatch(3)]: pattern, string, flags; 0 on a match. *)
Variable fnmatch : string -> string -> Z -> Z.

(** The hierarchy [nftw] finds at a path; [None] when the path cannot be
    examined, in which case [nftw] returns -1. *)
Variable filesystem : string -> option fs_tree.

Definition nftw (dirpath : string) (fn : string -> Z -> Z -> M Z) : M Z :=
  match filesystem dirpath with
  | None => ret (-1)
  | Some t => nftw_run fn (nftw_visits 0 (nftw_start dirpath) t)
  end.

(** ** The program *)

(** [register_callback], lines 60-70. *)
Definition register_callback (event_mask : Z) (pattern0 : option string)
    (cb : event_callback) : M Z :=
  do n <- get callback_count;
  if n >=? MAX_CALLBACKS then ret (-1)
  else
    modify (fun w =>
      set_callbacks
        (<[Z.to_nat n := {| mask := event_mask; pattern := pattern0;
                            callback := cb |}]> (callbacks w)) w) ;;
    modify (set_callback_count (n + 1)) ;;
    ret n.

(** [add_watch], lines 75-113. *)
Definition add_watch (path0 : string) : M Z :=
  do n <- get watch_count;
  do dm <- get daemon_mode;
  if n >=? MAX_WATCHES then
    (if truthy dm
     then syslog LOG_ERR "Maximum number of watches reached (max=%d)"
            [AInt MAX_WATCHES]
     else fprintf_stderr ("Maximum number of watches reached (max=%d)" ++ nl)
            [AInt MAX_WATCHES]) ;;
    ret (-1)
  else
    do fd0 <- get fd;
    do wd0 <- inotify_add_watch fd0 path0
                (Z.lor IN_CREATE (Z.lor IN_MODIFY (Z.lor IN_DELETE
                  (Z.lor IN_MOVED_FROM (Z.lor IN_MOVED_TO IN_ATTRIB)))));
    if wd0 <? 0 then
      (if truthy dm
       then syslog LOG_ERR "Failed to add watch for %s: %s"
              [AStr path0; AStrerror]
       else fprintf_stderr ("Failed to add watch for %s: %s" ++ nl)
              [AStr path0; AStrerror]) ;;
      ret (-1)
    else
      modify (fun w =>
        set_watches
          (<[Z.to_nat n := {| wd := wd0; path := c_truncate PATH_MAX path0 |}]>
             (watches w)) w) ;;
      (if truthy dm
       then syslog LOG_INFO "Watching directory: %s (wd=%d)"
              [AStr path0; AInt wd0]
       else printf ("Watching directory: %s (wd=%d)" ++ nl)
              [AStr path0; AInt wd0]) ;;
      modify (set_watch_count (n + 1)) ;;
      ret wd0.

(** [get_path_by_wd], lines 118-125: the path of the first live slot with
    that descriptor, [None] for [NULL]. *)
Fixpoint find_wd (wd0 : Z) (l : list watch_info) : option string :=
  match l with
  | [] => None
  | e :: rest => if wd e =? wd0 then Some (path e) else find_wd wd0 rest
  end.

Definition get_path_by_wd (w : world) (wd0 : Z) : option string :=
  find_wd wd0 (live_watches w).

(** [ftw_callback], lines 130-135. *)
Definition ftw_callback (fpath : string) (typeflag : Z) (level : Z) : M Z :=
  (if (typeflag =? FTW_D) && (level >=? 0)
   then add_watch fpath ;; ret tt
   else ret tt) ;;
  ret 0.

(** [watch_recursively], lines 137-145. *)
Definition watch_recursively (path0 : string) : M unit :=
  do r <- nftw path0 ftw_callback;
  if r =? -1 then
    do dm <- get daemon_mode;
    if truthy dm
    then syslog LOG_ERR "Failed to recursively watch %s: %s"
           [AStr path0; AStrerror]
    else fprintf_stderr ("Failed to recursively watch %s: %s" ++ nl)
           [AStr path0; AStrerror]
  else ret tt.

(** [matches_pattern], lines 150-162: reads the globals, changes nothing. *)
Definition matches_pattern (w : world) (filename : string) : Z :=
  if pattern_count w =? 0 then 1
  else if existsb (fun p => fnmatch p filename 0 =? 0) (live_patterns w)
       then 1 else 0.

(** The example handlers, lines 231-250, and a call through a function
    pointer: the call itself is recorded, then the body of the handler runs
    when the program defines it. *)
Definition call (cb : event_callback) (path0 filename : string) : M unit :=
  emit (Call cb path0 filename) ;;
  do dm <- get daemon_mode;
  match cb with
  | on_file_created =>
      when (negb (truthy dm))
        (printf ("CALLBACK: File created: %s/%s" ++ nl) [AStr path0; AStr filename])
  | on_file_deleted =>
      when (negb (truthy dm))
        (printf ("CALLBACK: File deleted: %s/%s" ++ nl) [AStr path0; AStr filename])
  | on_file_modified =>
      when (negb (truthy dm))
        (printf ("CALLBACK: File modified: %s/%s" ++ nl) [AStr path0; AStr filename])
  | cb_null | cb_extern _ => ret tt
  end.

(** The test of the dispatch loop, lines 198-201. *)
Definition callback_fires (event_mask : Z) (filename : string)
    (cb : callback_info) : bool :=
  truthy (Z.land (mask cb) event_mask) &&
  match pattern cb with
  | None => true
  | Some p => fnmatch p filename 0 =? 0
  end.

(** [process_event], lines 167-206. *)
Definition process_event (event_mask : Z) (path0 filename : string) : M unit :=
  do rm <- get recursive_mode;
  do dm <- get daemon_mode;
  when (truthy rm && truthy (Z.land event_mask IN_CREATE)
          && truthy (Z.land event_mask IN_ISDIR))
    (let full_path := c_truncate PATH_MAX (path0 ++ "/" ++ filename) in
     add_watch full_path ;;
     if truthy dm
     then syslog LOG_INFO "Added watch for new directory: %s" [AStr full_path]
     else printf ("Added watch for new directory: %s" ++ nl) [AStr full_path]) ;;
  when (truthy dm)
    (when (truthy (Z.land event_mask IN_CREATE))
       (syslog LOG_INFO "File created: %s/%s" [AStr path0; AStr filename]) ;;
     when (truthy (Z.land event_mask IN_DELETE))
       (syslog LOG_INFO "File deleted: %s/%s" [AStr path0; AStr filename]) ;;
     when (truthy (Z.land event_mask IN_MODIFY))
       (syslog LOG_INFO "File modified: %s/%s" [AStr path0; AStr filename]) ;;
     when (truthy (Z.land event_mask IN_MOVED_FROM))
       (syslog LOG_INFO "File moved from: %s/%s" [AStr path0; AStr filename]) ;;
     when (truthy (Z.land event_mask IN_MOVED_TO))
       (syslog LOG_INFO "File moved to: %s/%s" [AStr path0; AStr filename])) ;;
  do cbs <- get live_callbacks;
  for_each cbs (fun cb =>
    when (callback_fires event_mask filename cb)
      (call (callback cb) path0 filename)).

(** The pointer in [callbacks[slot].pattern]. *)
Definition pattern_pointer (slot : nat) (cb : callback_info) : pointer :=
  match pattern cb with
  | None => NULL
  | Some s => Block slot s
  end.

(** The last loop of [cleanup], lines 223-225, from slot [i] on. *)
Fixpoint free_patterns (i : nat) (cbs : list callback_info) : M unit :=
  match cbs with
  | [] => ret tt
  | cb :: rest => free (pattern_pointer i cb) ;; free_patterns (S i) rest
  end.

(** [cleanup], lines 211-226. *)
Definition cleanup : M unit :=
  do fd0 <- get fd;
  do ws <- get live_watches;
  for_each ws (fun e => inotify_rm_watch fd0 (wd e)) ;;
  when (fd0 >=? 0) (close fd0) ;;
  do cbs <- get live_callbacks;
  free_patterns 0 cbs.

(** One record of the read buffer, the body of the inner loop of [main],
    lines 401-435. *)
Definition main_event (event : inotify_event) : M unit :=
  when (truthy (ev_len event))
    (do w <- get (fun w => w);
     do dm <- get daemon_mode;
     match get_path_by_wd w (ev_wd event) with
     | Some path0 =>
         when (truthy (matches_pattern w (ev_name event)))
           (process_event (ev_mask event) path0 (ev_name event) ;;
            when (negb (truthy dm))
              (when (truthy (Z.land (ev_mask event) IN_CREATE))
                 (printf ("File created: %s/%s" ++ nl)
                    [AStr path0; AStr (ev_name event)]) ;;
               when (truthy (Z.land (ev_mask event) IN_DELETE))
                 (printf ("File deleted: %s/%s" ++ nl)
                    [AStr path0; AStr (ev_name event)]) ;;
               when (truthy (Z.land (ev_mask event) IN_MODIFY))
                 (printf ("File modified: %s/%s" ++ nl)
                    [AStr path0; AStr (ev_name event)]) ;;
               when (truthy (Z.land (ev_mask event) IN_MOVED_FROM))
                 (printf ("File moved from: %s/%s" ++ nl)
                    [AStr path0; AStr (ev_name event)]) ;;
               when (truthy (Z.land (ev_mask event) IN_MOVED_TO))
                 (printf ("File moved to: %s/%s" ++ nl)
                    [AStr path0; AStr (ev_name event)])))
     | None =>
         if truthy dm
         then syslog LOG_WARNING
                "Received event for unknown watch descriptor: %d"
                [AInt (ev_wd event)]
         else fprintf_stderr
                ("Warning: Received event for unknown watch descriptor: %d" ++ nl)
                [AInt (ev_wd event)]
     end).

(** The inner loop of [main], lines 400-436, over the records of one read. *)
Definition main_events (events : list inotify_event) : M unit :=
  for_each events main_event.

(** The watch set-up of [main], lines 363-380.  [Some status] is
    [exit(status)], which runs [cleanup] through [atexit]; [None] goes on
    to the event loop. *)
Definition main_watches (watch_path : string) : M (option Z) :=
  do initial_wd <- add_watch watch_path;
  if initial_wd <? 0 then cleanup ;; ret (Some 1)
  else
    do rm <- get recursive_mode;
    do dm <- get daemon_mode;
    when (truthy rm)
      (when (negb (truthy dm))
         (printf ("Recursive mode enabled, watching all subdirectories" ++ nl) []) ;;
       watch_recursively watch_path ;;
       when (negb (truthy dm))
         (do n <- get watch_count;
          printf ("Total watches: %d" ++ nl) [AInt n])) ;;
    ret None.

(** What the start of [main] does to the globals of the watcher: the
    registrations of lines 328-330 and, from the result [init_fd] of
    [inotify_init] on, lines 352-380.  In daemon mode [main] runs the
    daemon block of lines 336-350 between the two; it touches none of
    these globals but can end the process, and [main_start] below puts it
    in its place. *)
Definition main_setup (init_fd : Z) (watch_path : string) : M (option Z) :=
  register_callback IN_CREATE None on_file_created ;;
  register_callback IN_DELETE None on_file_deleted ;;
  register_callback IN_MODIFY None on_file_modified ;;
  modify (set_fd init_fd) ;;
  if init_fd <? 0 then
    do dm <- get daemon_mode;
    (if truthy dm
     then syslog LOG_ERR "Failed to initialize inotify: %s" [AStrerror]
     else perror "inotify_init") ;;
    cleanup ;; ret (Some 1)
  else main_watches watch_path.

End Program.

(** The globals as the program starts: zeroed static arrays, [fd = -1]. *)
Definition initial_world (daemon recursive : Z) (pats : list string)
    (replies : list Z) : world :=
  {| fd := -1; daemon_mode := daemon; recursive_mode := recursive;
     watches := replicate (Z.to_nat MAX_WATCHES) {| wd := 0; path := "" |};
     watch_count := 0;
     callbacks := replicate (Z.to_nat MAX_CALLBACKS)
                    {| mask := 0; pattern := None; callback := cb_null |};
     callback_count := 0;
     patterns := pats; pattern_count := Z.of_nat (length pats);
     kernel := replies; trace := [] |}.

(** ** [fnmatch(3)] as the program calls it

    The program hands every pattern to libc's [fnmatch] with flags 0 and
    never calls [setlocale], so the matcher runs in the C locale with no
    flag set: a backslash quotes, a slash and a leading period are
    ordinary characters, and case is not folded.  [Glob] follows the
    matching loop of the GNU C library for that call, statement by
    statement: [loop] is the [while] over the pattern, [scan] the [for]
    over the members of a bracket expression and [skip] the loop after the
    label [matched].  A pattern and a string are C strings: the end of the
    list stands for the terminating NUL. *)
Module Glob.

Definition FNM_NOMATCH : Z := 1.

(** [CHARCLASS_NAME_MAX] of [<limits.h>]. *)
Definition CHAR_CLASS_MAX_LENGTH : Z := 2048.

Definition code (c : ascii) : nat := nat_of_ascii c.

Definition between (lo hi : nat) (c : ascii) : bool :=
  (lo <=? code c)%nat && (code c <=? hi)%nat.

Definition starts (p : list ascii) (c : ascii) : bool :=
  match p with
  | x :: _ => Ascii.eqb x c
  | [] => false
  end.

(** [<ctype.h>] in the C locale. *)
Definition isupper (c : ascii) : bool := between 65 90 c.
Definition islower (c : ascii) : bool := between 97 122 c.
Definition isdigit (c : ascii) : bool := between 48 57 c.
Definition isalpha (c : ascii) : bool := isupper c || islower c.
Definition isalnum (c : ascii) : bool := isalpha c || isdigit c.
Definition isxdigit (c : ascii) : bool :=
  isdigit c || between 65 70 c || between 97 102 c.
Definition isspace (c : ascii) : bool := between 9 13 c || between 32 32 c.
Definition isblank (c : ascii) : bool := between 9 9 c || between 32 32 c.
Definition iscntrl (c : ascii) : bool := between 0 31 c || between 127 127 c.
Definition isprint (c : ascii) : bool := between 32 126 c.
Definition isgraph (c : ascii) : bool := between 33 126 c.
Definition ispunct (c : ascii) : bool := isgraph c && negb (isalnum c).

(** The character classes [wctype] knows in the C locale. *)
Inductive char_class :=
| alnum | alpha | blank | cntrl | digit | graph
| lower | print | punct | space | upper | xdigit.

Definition char_classes : list char_class :=
  [alnum; alpha; blank; cntrl; digit; graph;
   lower; print; punct; space; upper; xdigit].

Definition class_name (k : char_class) : string :=
  match k with
  | alnum => "alnum" | alpha => "alpha" | blank => "blank"
  | cntrl => "cntrl" | digit => "digit" | graph => "graph"
  | lower => "lower" | print => "print" | punct => "punct"
  | space => "space" | upper => "upper" | xdigit => "xdigit"
  end.

Definition wctype (name : list ascii) : option char_class :=
  List.find (fun k => String.eqb (class_name k) (string_of_list_ascii name))
    char_classes.

Definition isctype (c : ascii) (k : char_class) : bool :=
  match k with
  | alnum => isalnum c | alpha => isalpha c | blank => isblank c
  | cntrl => iscntrl c | digit => isdigit c | graph => isgraph c
  | lower => islower c | print => isprint c | punct => ispunct c
  | space => isspace c | upper => isupper c | xdigit => isxdigit c
  end.

(** The test [c < 'a' || c >= 'z'] of both class-name loops. *)
Definition not_name_char (c : ascii) : bool :=
  (code c <? 97)%nat || (122 <=? code c)%nat.

(** The loop that reads a class name after ["[:"]; [q] follows the
    colon. *)
Inductive class_reading :=
| Name_too_long
| Not_a_name
| Name (str : list ascii) (p : list ascii).

Fixpoint read_class (c1 : Z) (q : list ascii) (str : list ascii)
  : class_reading :=
  if c1 =? CHAR_CLASS_MAX_LENGTH then Name_too_long
  else
    match q with
    | [] => Not_a_name
    | c :: q' =>
        if Ascii.eqb c ":" && starts q' "]" then Name (rev str) (tail q')
        else if not_name_char c then Not_a_name
        else read_class (c1 + 1) q' (c :: str)
    end.

(** The loop that reads a collating symbol after ["[."]; [q] follows the
    period.  The result is the number of characters of the name and the
    pattern after [".]"], [None] when the pattern ends first. *)
Fixpoint read_symbol (c1 : nat) (q : list ascii) : option (nat * list ascii) :=
  match q with
  | [] => None
  | c :: q' =>
      if Ascii.eqb c "." && starts q' "]" then Some (c1, tail q')
      else read_symbol (S c1) q'
  end.

(** What the scan of a bracket expression ends in. *)
Inductive scan_result :=
| No_match
| Matched (p : list ascii)
| Closed (p : list ascii)
| Unterminated.

Section Members.

(** The character of the string, and the scan of the rest of the
    expression. *)
Variable fn : ascii.
Variable rec : list ascii -> scan_result.

(** [c = *p++; if (c == ']') break;] and the next turn of the loop. *)
Definition next (p : list ascii) : scan_result :=
  match p with
  | c :: p' => if Ascii.eqb c "]" then Closed p' else rec p
  | [] => rec p
  end.

(** The comparison of a range, by character value in the C locale. *)
Definition range_test (cold cend : ascii) (p : list ascii) : scan_result :=
  if (code cold <=? code fn)%nat && (code fn <=? code cend)%nat
  then Matched p else next p.

(** After a member that did not match: [c = *p++], then the range when
    [c] is a dash that does not close the expression. *)
Definition after (cold : ascii) (p : list ascii) : scan_result :=
  match p with
  | c :: p1 =>
      if Ascii.eqb c "-" && negb (starts p1 "]") then
        match p1 with
        | [] => No_match
        | cend :: p2 =>
            if Ascii.eqb cend "[" && starts p2 "." then
              match read_symbol 0 (tail p2) with
              | None => No_match
              | Some (c1, p3) =>
                  if negb (c1 =? 1)%nat then No_match
                  else range_test cold (hd cold (tail p2)) p3
              end
            else if Ascii.eqb cend "\" then
              match p2 with
              | [] => No_match
              | cend' :: p3 => range_test cold cend' p3
              end
            else range_test cold cend p2
        end
      else next p
  | [] => rec p
  end.

(** The label [normal_bracket]. *)
Definition normal (c : ascii) (p : list ascii) : scan_result :=
  let is_range :=
    starts p "-" &&
    match tail p with
    | [] => false
    | x :: _ => negb (Ascii.eqb x "]")
    end in
  if negb is_range && Ascii.eqb c fn then Matched p else after c p.

End Members.

(** The [for (;;)] over the members of a bracket expression; [q] starts
    at the current character [c]. *)
Fixpoint scan (fuel : nat) (fn : ascii) (q : list ascii) : scan_result :=
  match fuel with
  | O => No_match
  | S fuel' =>
      match q with
      | [] => Unterminated
      | c :: p =>
          if Ascii.eqb c "\" then
            match p with
            | [] => No_match
            | c' :: p' => normal fn (scan fuel' fn) c' p'
            end
          else if Ascii.eqb c "[" && starts p ":" then
            match read_class 0 (tail p) [] with
            | Name_too_long => No_match
            | Not_a_name => normal fn (scan fuel' fn) "[" p
            | Name str p' =>
                match wctype str with
                | None => No_match
                | Some wt =>
                    if isctype fn wt then Matched p'
                    else next (scan fuel' fn) p'
                end
            end
          else if Ascii.eqb c "[" && starts p "=" then
            match tail p with
            | str :: e :: r :: p' =>
                if Ascii.eqb e "=" && Ascii.eqb r "]" then
                  if Ascii.eqb fn str then Matched p'
                  else next (scan fuel' fn) p'
                else normal fn (scan fuel' fn) "[" p
            | _ => normal fn (scan fuel' fn) "[" p
            end
          else if Ascii.eqb c "[" && starts p "." then
            match read_symbol 0 (tail p) with
            | None => No_match
            | Some (c1, p') =>
                let is_range :=
                  starts p' "-" &&
                  match tail p' with [] => false | _ :: _ => true end in
                if negb (c1 =? 1)%nat then No_match
                else if negb is_range && Ascii.eqb fn (hd fn (tail p))
                then Matched p'
                else after fn (scan fuel' fn) (hd fn (tail p)) p'
            end
          else normal fn (scan fuel' fn) c p
      end
  end.

(** The class-name loop after the label [matched]; [q] follows the
    colon. *)
Inductive class_skipping :=
| Skip_fails
| Skip_not_a_name
| Skip_to (p : list ascii).

Fixpoint skip_class (c1 : Z) (q : list ascii) : class_skipping :=
  if c1 + 1 =? CHAR_CLASS_MAX_LENGTH then Skip_fails
  else
    match q with
    | [] => Skip_not_a_name
    | c :: q' =>
        if Ascii.eqb c ":" && starts q' "]" then Skip_to (tail q')
        else if not_name_char c then Skip_not_a_name
        else skip_class (c1 + 1) q'
    end.

(** The loop after the label [matched]: the rest of the expression is
    skipped up to its closing bracket. *)
Inductive skip_result :=
| Skipped (p : list ascii)
| Skip_no_match
| Skip_unterminated.

Fixpoint skip (fuel : nat) (p : list ascii) : skip_result :=
  match fuel with
  | O => Skip_no_match
  | S fuel' =>
      match p with
      | [] => Skip_unterminated
      | c :: p1 =>
          if Ascii.eqb c "]" then Skipped p1
          else if Ascii.eqb c "\" then
            match p1 with
            | [] => Skip_no_match
            | _ :: p2 => skip fuel' p2
            end
          else if Ascii.eqb c "[" && starts p1 ":" then
            match skip_class 0 (tail p1) with
            | Skip_fails => Skip_no_match
            | Skip_not_a_name => skip fuel' p1
            | Skip_to p2 => skip fuel' p2
            end
          else if Ascii.eqb c "[" && starts p1 "=" then
            match tail p1 with
            | _ :: e :: r :: p2 =>
                if Ascii.eqb e "=" && Ascii.eqb r "]" then skip fuel' p2
                else Skip_no_match
            | _ => Skip_no_match
            end
          else if Ascii.eqb c "[" && starts p1 "." then
            match read_symbol 0 (tail p1) with
            | None => Skip_no_match
            | Some (_, p2) => skip fuel' p2
            end
          else skip fuel' p1
      end
  end.

(** The case ['['] of the switch, for the character [fn] of the string;
    the expression is the pattern after the opening bracket.  [Goes_on p]
    leaves the switch with the pattern at [p], [Fails] is
    [return FNM_NOMATCH], and [Literal] is the jump to [normal_match] for
    an expression that is never closed: the bracket is an ordinary
    character. *)
Inductive bracket_result :=
| Fails
| Goes_on (p : list ascii)
| Literal.

Definition bracket (fn : ascii) (p : list ascii) : bracket_result :=
  let negated := starts p "!" || starts p "^" in
  let q := if negated then tail p else p in
  match scan (S (length q)) fn q with
  | No_match => Fails
  | Unterminated => Literal
  | Closed p' => if negated then Goes_on p' else Fails
  | Matched p' =>
      match skip (S (length p')) p' with
      | Skip_no_match => Fails
      | Skip_unterminated => Literal
      | Skipped p'' => if negated then Fails else Goes_on p''
      end
  end.

(** The wildcards that follow a star: each further star is dropped and
    each question mark takes one character of the string. *)
Fixpoint after_star (p n : list ascii) : option (list ascii * list ascii) :=
  match p with
  | c :: p1 =>
      if Ascii.eqb c "*" then after_star p1 n
      else if Ascii.eqb c "?" then
        match n with
        | [] => None
        | _ :: n1 => after_star p1 n1
        end
      else Some (p, n)
  | [] => Some (p, n)
  end.

(** After the wildcards, the rest of the pattern is tried at each
    character of the string in turn; the end of the string is not
    tried.  When the rest starts with an ordinary character, or a quoted
    one, only the positions that hold it are tried. *)
Definition may_start (c : ascii) (p : list ascii) (d : ascii) : bool :=
  if Ascii.eqb c "[" then true
  else if Ascii.eqb c "\" then starts p d
  else Ascii.eqb d c.

Fixpoint try (first : ascii -> bool) (rest : list ascii -> bool)
    (n : list ascii) : bool :=
  match n with
  | [] => false
  | d :: n1 => (first d && rest n) || try first rest n1
  end.

(** The [while] over the pattern; [true] is the result 0. *)
Fixpoint loop (fuel : nat) (p n : list ascii) : bool :=
  match fuel with
  | O => false
  | S fuel' =>
      match p with
      | [] => match n with [] => true | _ :: _ => false end
      | c :: p1 =>
          if Ascii.eqb c "?" then
            match n with
            | [] => false
            | _ :: n1 => loop fuel' p1 n1
            end
          else if Ascii.eqb c "\" then
            match p1 with
            | [] => false
            | c' :: p2 =>
                match n with
                | [] => false
                | d :: n1 => Ascii.eqb d c' && loop fuel' p2 n1
                end
            end
          else if Ascii.eqb c "*" then
            match after_star p1 n with
            | None => false
            | Some ([], _) => true
            | Some (c' :: p2, n') =>
                try (may_start c' p2) (loop fuel' (c' :: p2)) n'
            end
          else if Ascii.eqb c "[" then
            match n with
            | [] => false
            | d :: n1 =>
                match bracket d p1 with
                | Fails => false
                | Goes_on p2 => loop fuel' p2 n1
                | Literal => Ascii.eqb d "[" && loop fuel' p1 n1
                end
            end
          else
            match n with
            | [] => false
            | d :: n1 => Ascii.eqb d c && loop fuel' p1 n1
            end
      end
  end.

(** [fnmatch (pattern, string, 0)]. *)
Definition fnmatch (pat : string) (s : string) (flags : Z) : Z :=
  let p := list_ascii_of_string pat in
  if loop (S (length p)) p (list_ascii_of_string s) then 0 else FNM_NOMATCH.

(** *** Shell patterns and what they match

    A pattern as the manual describes it: a sequence of ordinary
    characters, [?], [*] and bracket expressions; a bracket expression
    lists characters, ranges and named classes, and may be negated. *)
Inductive member :=
| Char (c : ascii)
| Range (lo hi : ascii)
| Named (k : char_class).

Inductive item :=
| Lit (c : ascii)
| Any
| Star
| Class (negated : bool) (m : member) (ms : list member).

Definition in_member (c : ascii) (m : member) : bool :=
  match m with
  | Char d => Ascii.eqb c d
  | Range lo hi => (code lo <=? code c)%nat && (code c <=? code hi)%nat
  | Named k => isctype c k
  end.

Definition in_class (c : ascii) (negated : bool) (ms : list member) : bool :=
  xorb negated (existsb (in_member c) ms).


(** The same, as a function. *)
Fixpoint matches (g : list item) : list ascii -> bool :=
  match g with
  | [] => fun s => match s with [] => true | _ :: _ => false end
  | Lit c :: g' =>
      fun s => match s with
               | [] => false
               | d :: s' => Ascii.eqb d c && matches g' s'
               end
  | Any :: g' =>
      fun s => match s with [] => false | _ :: s' => matches g' s' end
  | Class negated m ms :: g' =>
      fun s => match s with
               | [] => false
               | d :: s' => in_class d negated (m :: ms) && matches g' s'
               end
  | Star :: g' =>
      fix star (s : list ascii) : bool :=
        matches g' s || match s with [] => false | _ :: s' => star s' end
  end.









End Glob.

(** ** Observations on worlds and traces *)

(** The watch descriptors of the live slots, in table order. *)
Definition live_handles (w : world) : list Z := map wd (live_watches w).

(** The descriptors the kernel handed out: the non-negative results of the
    [inotify_add_watch] calls of a trace, in order. *)
Definition issued (t : list effect) : list Z :=
  flat_map (fun e => match e with
                     | Sys_inotify_add_watch _ _ _ r =>
                         if r <? 0 then [] else [r]
                     | _ => []
                     end) t.

(** The paths the program asked the kernel to watch. *)
Definition add_watch_requests (t : list effect) : list string :=
  flat_map (fun e => match e with
                     | Sys_inotify_add_watch _ p _ _ => [p]
                     | _ => []
                     end) t.

(** The descriptors the program asked the kernel to stop watching. *)
Definition rm_watch_requests (t : list effect) : list Z :=
  flat_map (fun e => match e with
                     | Sys_inotify_rm_watch _ h => [h]
                     | _ => []
                     end) t.

(** The pointers the program handed to [free], and those of them that
    had been freed before. *)
Definition free_requests (t : list effect) : list pointer :=
  flat_map (fun e => match e with
                     | Free q | Double_free q => [q]
                     | _ => []
                     end) t.

Definition double_frees (t : list effect) : list pointer :=
  flat_map (fun e => match e with
                     | Double_free q => [q]
                     | _ => []
                     end) t.

(** The handler invocations of a trace. *)
Definition handler_calls (t : list effect)
  : list (event_callback * string * string) :=
  flat_map (fun e => match e with
                     | Call cb p f => [(cb, p, f)]
                     | _ => []
                     end) t.

(** The number of directories of a hierarchy that a physical walk reaches,
    its root included. *)
Fixpoint count_dirs (t : fs_tree) : nat :=
  match t with
  | Entry _ typeflag children =>
      if typeflag =? FTW_D
      then S (list_sum (map count_dirs children))
      else O
  end.

(** The visits for which [ftw_callback] calls [add_watch], line 131, and
    their paths. *)
Definition watched_visit (v : string * Z * Z) : bool :=
  let '(_, typeflag, level) := v in (typeflag =? FTW_D) && (level >=? 0).

Definition dir_visits (visits : list (string * Z * Z)) : list string :=
  map (fun v => fst (fst v)) (List.filter watched_visit visits).

(** The shape the program keeps its globals in: both tables have their
    declared size, the counts stay within them, and the pattern count is
    the length of the pattern vector. *)
Record well_formed (w : world) : Prop := {
  wf_watches : length (watches w) = Z.to_nat MAX_WATCHES;
  wf_watch_count : 0 <= watch_count w <= MAX_WATCHES;
  wf_callbacks : length (callbacks w) = Z.to_nat MAX_CALLBACKS;
  wf_callback_count : 0 <= callback_count w <= MAX_CALLBACKS;
  wf_patterns : pattern_count w = Z.of_nat (length (patterns w))
}.

(** The operations that change or read the watch table, as steps of a
    run: a direct install, a recursive install over the hierarchy found at
    the path, one record of the event loop (with its automatic watch), and
    the release of all watches. *)
Inductive op :=
| Install (p : string)
| InstallRecursively (p : string) (found : option fs_tree)
| Event (ev : inotify_event)
| RemoveAll.

Definition run_op (fnmatch : string -> string -> Z -> Z) (o : op) : M unit :=
  match o with
  | Install p => add_watch p ;; ret tt
  | InstallRecursively p found => watch_recursively (fun _ => found) p
  | Event ev => main_event fnmatch ev
  | RemoveAll => cleanup
  end.

Definition run_ops (fnmatch : string -> string -> Z -> Z) (ops : list op)
  : M unit :=
  for_each ops (run_op fnmatch).

(** The event set every watch is installed with, line 88. *)
Definition all_watch_events : Z :=
  Z.lor IN_CREATE (Z.lor IN_MODIFY (Z.lor IN_DELETE
    (Z.lor IN_MOVED_FROM (Z.lor IN_MOVED_TO IN_ATTRIB)))).

(** What [cleanup] asks of the environment in a given world. *)
Definition free_effect (t : list effect) (ptr : pointer) : effect :=
  match ptr with
  | NULL => Free NULL
  | Block slot _ =>
      if existsb (Nat.eqb slot) (freed t) then Double_free ptr else Free ptr
  end.

Definition cleanup_effects (w : world) : list effect :=
  map (fun e => Sys_inotify_rm_watch (fd w) (wd e)) (live_watches w) ++
  (if fd w >=? 0 then [Sys_close (fd w)] else []) ++
  imap (fun i cb => free_effect (trace w) (pattern_pointer i cb))
    (live_callbacks w).

(** What a call through a handler pointer adds to the trace. *)
Definition call_effects (dm : Z) (cb : event_callback) (p f : string)
  : list effect :=
  Call cb p f ::
  match cb with
  | on_file_created =>
      if negb (truthy dm)
      then [Printf ("CALLBACK: File created: %s/%s" ++ nl) [AStr p; AStr f]]
      else []
  | on_file_deleted =>
      if negb (truthy dm)
      then [Printf ("CALLBACK: File deleted: %s/%s" ++ nl) [AStr p; AStr f]]
      else []
  | on_file_modified =>
      if negb (truthy dm)
      then [Printf ("CALLBACK: File modified: %s/%s" ++ nl) [AStr p; AStr f]]
      else []
  | cb_null | cb_extern _ => []
  end.

(** ** Relations between a world and a later one

    Most facts about the program say that some relation between the world
    before and the world after holds for every step, and so for every
    sequence of steps.  A [Frame] is such a relation; [respects R c] says
    that the computation [c] stays within it. *)
Class Frame (R : world -> world -> Prop) : Prop := {
  frame_refl : forall w, R w w;
  frame_trans : forall w1 w2 w3, R w1 w2 -> R w2 w3 -> R w1 w3
}.

Definition respects (R : world -> world -> Prop) {A} (c : M A) : Prop :=
  forall w, R w (snd (c w)).

(** [extends w w'] relates a world to a later one: the configuration and
    the callback table are the same, and the live watch slots have only
    grown at the end, by one slot per descriptor the kernel handed out in
    between. *)
Record extends (w w' : world) : Prop := {
  ex_fd : fd w' = fd w;
  ex_daemon_mode : daemon_mode w' = daemon_mode w;
  ex_recursive_mode : recursive_mode w' = recursive_mode w;
  ex_callbacks : callbacks w' = callbacks w;
  ex_callback_count : callback_count w' = callback_count w;
  ex_patterns : patterns w' = patterns w;
  ex_pattern_count : pattern_count w' = pattern_count w;
  ex_watches :
    exists added,
      (live_watches w' = live_watches w ++ added /\
       issued (trace w') = issued (trace w) ++ map wd added /\
       watch_count w' = watch_count w + Z.of_nat (length added))%list
}.

Definition registry_step (w w' : world) : Prop :=
  well_formed w -> well_formed w' /\ extends w w'.

(** [quiet w w'] holds across steps that leave the callback table and the
    mode alone and call no handler. *)
Record quiet (w w' : world) : Prop := {
  q_daemon_mode : daemon_mode w' = daemon_mode w;
  q_callbacks : callbacks w' = callbacks w;
  q_callback_count : callback_count w' = callback_count w;
  q_handler_calls : handler_calls (trace w') = handler_calls (trace w)
}.

(** [same_requests w w'] holds across steps that ask the kernel for no
    watch. *)
Definition same_requests (w w' : world) : Prop :=
  add_watch_requests (trace w') = add_watch_requests (trace w).

(** What [add_watch] does to everything the properties below observe. *)
Record add_watch_step (p : string) (w : world) (r : Z) (w' : world) : Prop := {
  aw_well_formed : well_formed w';
  aw_fd : fd w' = fd w;
  aw_daemon_mode : daemon_mode w' = daemon_mode w;
  aw_recursive_mode : recursive_mode w' = recursive_mode w;
  aw_callbacks : callbacks w' = callbacks w;
  aw_callback_count : callback_count w' = callback_count w;
  aw_patterns : patterns w' = patterns w;
  aw_pattern_count : pattern_count w' = pattern_count w;
  aw_handler_calls : handler_calls (trace w') = handler_calls (trace w);
  aw_rm_watch_requests :
    rm_watch_requests (trace w') = rm_watch_requests (trace w);
  aw_outcome :
    (r = -1 /\ watch_count w' = watch_count w /\ watches w' = watches w /\
     issued (trace w') = issued (trace w))
    \/
    (0 <= r /\ r = next_reply w /\ watch_count w < MAX_WATCHES /\
     watch_count w' = watch_count w + 1 /\
     kernel w' = tail (kernel w) /\
     (live_watches w' =
       live_watches w ++ [{| wd := r; path := c_truncate PATH_MAX p |}])%list /\
     (issued (trace w') = issued (trace w) ++ [r])%list)
}.

(** ** Concrete runs *)

(** [n] installs in a row, the kernel handing out descriptors 1, 2, ... *)
Definition install_many (n : nat) : M unit :=
  for_each (seq 0 n) (fun _ => add_watch "/tmp/w/d" ;; ret tt).

Definition ascending_replies (n : nat) : list Z := map Z.of_nat (seq 1 n).

(** A world whose watch table is full: 512 successful installs. *)
Definition full_watch_world : world :=
  exec (install_many 512) (set_fd 3 (initial_world 0 0 [] (ascending_replies 512))).

(** A world whose callback table is full: 20 registrations. *)
Definition full_callback_world : world :=
  exec (for_each (seq 0 20)
          (fun n => register_callback IN_CREATE None (cb_extern n) ;; ret tt))
    (initial_world 0 0 [] []).

(** Two handlers with overlapping masks and disjoint patterns. *)
Definition two_callback_world : world :=
  exec (register_callback (Z.lor IN_CREATE IN_MODIFY) (Some "*.log") (cb_extern 1) ;;
        register_callback (Z.lor IN_CREATE IN_DELETE) (Some "*.txt") (cb_extern 2))
    (initial_world 0 0 [] []).

(** The directory [/tmp/w] with no subdirectory, as [nftw] finds it. *)
Definition lone_directory (p : string) : option fs_tree :=
  Some (Entry "w" FTW_D []).

(** [main] started on [/tmp/w] in recursive mode with the pattern
    [*.log]; [inotify_init] returned 3 and the kernel answers every
    request for [/tmp/w] with descriptor 1, then hands out 2. *)
Definition recursive_log_world : world :=
  exec (main_setup lone_directory 3 "/tmp/w")
    (initial_world 0 1 ["*.log"] [1; 1; 2]).

(** [/tmp/w] with subdirectories [a], [a/b] and [c] and a file [f]. *)
Definition small_tree : fs_tree :=
  Entry "w" FTW_D
    [Entry "a" FTW_D [Entry "b" FTW_D []];
     Entry "f" FTW_F [];
     Entry "c" FTW_D []].

(** The creation of a directory [sub.log] inside [/tmp/w]. *)
Definition mkdir_sub_log : inotify_event :=
  {| ev_wd := 1; ev_mask := Z.lor IN_CREATE IN_ISDIR; ev_cookie := 0;
     ev_len := 16; ev_name := "sub.log" |}.

(** The creation of a directory [sub] inside [/tmp/w]. *)
Definition mkdir_sub : inotify_event :=
  {| ev_wd := 1; ev_mask := Z.lor IN_CREATE IN_ISDIR; ev_cookie := 0;
     ev_len := 16; ev_name := "sub" |}.

(** The same record with no name. *)
Definition mkdir_nameless : inotify_event :=
  {| ev_wd := 1; ev_mask := Z.lor IN_CREATE IN_ISDIR; ev_cookie := 0;
     ev_len := 0; ev_name := "" |}.

(** One registration with a pattern and two installs, after
    [inotify_init] returned 3. *)
Definition two_watch_world : world :=
  exec (register_callback IN_CREATE (Some "*.log") (cb_extern 1) ;;
        add_watch "/tmp/a" ;; add_watch "/tmp/b")
    (set_fd 3 (initial_world 0 0 [] [1; 2])).

(** [/tmp/w] and its subdirectory [sub] are installed, as the start-up
    walk does it, and then the record of the creation of [sub], queued
    before the walk reached it, is processed in recursive mode: the kernel
    answers the second request for [/tmp/w/sub] with the descriptor it
    already gave it. *)
Definition queued_creation_world : world :=
  exec (run_ops Glob.fnmatch
          [Install "/tmp/w"; Install "/tmp/w/sub"; Event mkdir_sub])
    (set_fd 3 (initial_world 0 1 [] [1; 2; 2])).

(** The start of [main] on a directory without subdirectories, in
    recursive mode: the initial install, then the recursive one; the kernel
    answers both requests for the directory with descriptor 1. *)
Definition rewatched_root_world : world :=
  exec (run_ops Glob.fnmatch
          [Install "/tmp/w";
           InstallRecursively "/tmp/w" (lone_directory "/tmp/w")])
    (set_fd 3 (initial_world 0 1 [] [1; 1])).

(** [main] started on [/tmp/w] with the pattern [*.log], not recursive. *)
Definition log_world : world :=
  exec (main_setup lone_directory 3 "/tmp/w") (initial_world 0 0 ["*.log"] [1]).

Definition create_file (name : string) : inotify_event :=
  {| ev_wd := 1; ev_mask := IN_CREATE; ev_cookie := 0; ev_len := 16;
     ev_name := name |}.

(** What Linux answers to [inotify_add_watch(2)]: the call fails with
    [ENAMETOOLONG] for a path name of [PATH_MAX] characters or more, so a
    descriptor is only ever the answer to a shorter one. *)
Definition linux_reply (pathname : string) (r : Z) : Prop :=
  0 <= r -> Z.of_nat (String.length pathname) < PATH_MAX.


(** ** Further observations *)

(** The diagnostic of [add_watch] for a full table, lines 78-82. *)
Definition capacity_diagnostic (dm : Z) : effect :=
  if truthy dm
  then Syslog LOG_ERR "Maximum number of watches reached (max=%d)"
         [AInt MAX_WATCHES]
  else Fprintf_stderr ("Maximum number of watches reached (max=%d)" ++ nl)
         [AInt MAX_WATCHES].

(** The diagnostic of [add_watch] for a request the kernel refused, lines
    92-96. *)
Definition refusal_diagnostic (dm : Z) (p : string) : effect :=
  if truthy dm
  then Syslog LOG_ERR "Failed to add watch for %s: %s" [AStr p; AStrerror]
  else Fprintf_stderr ("Failed to add watch for %s: %s" ++ nl)
         [AStr p; AStrerror].

(** The note of [process_event] after its automatic watch, lines 174-178. *)
Definition added_watch_note (dm : Z) (full_path : string) : effect :=
  if truthy dm
  then Syslog LOG_INFO "Added watch for new directory: %s" [AStr full_path]
  else Printf ("Added watch for new directory: %s" ++ nl) [AStr full_path].

(** The warning of [main] for a record whose descriptor is not in the
    table, lines 427-431. *)
Definition unknown_descriptor_warning (dm : Z) (h : Z) : effect :=
  if truthy dm
  then Syslog LOG_WARNING "Received event for unknown watch descriptor: %d"
         [AInt h]
  else Fprintf_stderr
         ("Warning: Received event for unknown watch descriptor: %d" ++ nl)
         [AInt h].

(** The diagnostic of [watch_recursively] for a walk that failed, lines
    139-143. *)
Definition walk_failure_diagnostic (dm : Z) (p : string) : effect :=
  if truthy dm
  then Syslog LOG_ERR "Failed to recursively watch %s: %s" [AStr p; AStrerror]
  else Fprintf_stderr ("Failed to recursively watch %s: %s" ++ nl)
         [AStr p; AStrerror].

(** What a trace sends to standard output and standard error, and what it
    sends to the system log. *)
Definition console_output (t : list effect) : list effect :=
  List.filter (fun e => match e with
                        | Printf _ _ | Fprintf_stderr _ _ | Perror _ => true
                        | _ => false
                        end) t.

Definition syslog_output (t : list effect) : list effect :=
  List.filter (fun e => match e with
                        | Syslog _ _ _ => true
                        | _ => false
                        end) t.

(** The channel that must stay silent: the console for a daemon, the
    system log otherwise. *)
Definition wrong_channel (daemon : bool) (t : list effect) : list effect :=
  if daemon then console_output t else syslog_output t.

(** [appends_quietly w w'] holds across steps that change nothing but the
    trace, which they extend without a request to the kernel for a watch. *)
Definition appends_quietly (w w' : world) : Prop :=
  exists es,
    w' = set_trace (trace w ++ es)%list w /\ add_watch_requests es = [].

(** [channel_step d w w'] holds across steps that, run with mode flag
    [d], keep the flag and write nothing to the wrong channel. *)
Definition channel_step (d : Z) (w w' : world) : Prop :=
  daemon_mode w = d ->
  daemon_mode w' = d /\
  wrong_channel (truthy d) (trace w') = wrong_channel (truthy d) (trace w).

(** The frees of a trace that are not of a null pointer. *)
Definition block_frees (t : list effect) : list effect :=
  List.filter (fun e => match e with
                        | Free (Block _ _) | Double_free _ => true
                        | _ => false
                        end) t.

(** No live callback slot has a pattern. *)
Definition null_patterns (w : world) : Prop :=
  Forall (fun cb => pattern cb = None) (live_callbacks w).

(** [null_frees w w'] holds across steps that, with no pattern in the
    live callback slots, leave these slots as they are and hand nothing
    but [NULL] to [free]. *)
Definition null_frees (w w' : world) : Prop :=
  null_patterns w ->
  live_callbacks w' = live_callbacks w /\
  block_frees (trace w') = block_frees (trace w).

(** Every path in a live slot fits the slot's buffer with its terminator. *)
Definition paths_bounded (w : world) : Prop :=
  Forall (fun e => Z.of_nat (String.length (path e)) < PATH_MAX) (live_watches w).

Definition bounded_step (w w' : world) : Prop :=
  well_formed w -> paths_bounded w -> well_formed w' /\ paths_bounded w'.

(** The callback table as [main] fills it, lines 328-330. *)
Definition default_callbacks : list callback_info :=
  [{| mask := IN_CREATE; pattern := None; callback := on_file_created |};
   {| mask := IN_DELETE; pattern := None; callback := on_file_deleted |};
   {| mask := IN_MODIFY; pattern := None; callback := on_file_modified |}].

(** A full watch table in recursive mode. *)
Definition full_recursive_world : world :=
  exec (install_many 512)
    (set_fd 3 (initial_world 0 1 [] (ascending_replies 512))).

(** ** The command line of [main] *)

Definition DEFAULT_PID_FILE : string := "/var/run/fswatcher.pid".

(** [<stdlib.h>]. *)
Definition EXIT_SUCCESS : Z := 0.
Definition EXIT_FAILURE : Z := 1.

(** A character constant, as the [int] it is in C. *)
Definition chr (c : ascii) : Z := Z.of_nat (nat_of_ascii c).

(** The double quote, for the format strings that hold one. *)
Definition dq : string := String (ascii_of_nat 34) EmptyString.

Definition set_daemon_mode (v : Z) (w : world) : world :=
  {| fd := fd w; daemon_mode := v; recursive_mode := recursive_mode w;
     watches := watches w; watch_count := watch_count w;
     callbacks := callbacks w; callback_count := callback_count w;
     patterns := patterns w; pattern_count := pattern_count w;
     kernel := kernel w; trace := trace w |}.

Definition set_recursive_mode (v : Z) (w : world) : world :=
  {| fd := fd w; daemon_mode := daemon_mode w; recursive_mode := v;
     watches := watches w; watch_count := watch_count w;
     callbacks := callbacks w; callback_count := callback_count w;
     patterns := patterns w; pattern_count := pattern_count w;
     kernel := kernel w; trace := trace w |}.

Definition set_patterns (v : list string) (w : world) : world :=
  {| fd := fd w; daemon_mode := daemon_mode w; recursive_mode := recursive_mode w;
     watches := watches w; watch_count := watch_count w;
     callbacks := callbacks w; callback_count := callback_count w;
     patterns := v; pattern_count := pattern_count w;
     kernel := kernel w; trace := trace w |}.

Definition set_pattern_count (v : Z) (w : world) : world :=
  {| fd := fd w; daemon_mode := daemon_mode w; recursive_mode := recursive_mode w;
     watches := watches w; watch_count := watch_count w;
     callbacks := callbacks w; callback_count := callback_count w;
     patterns := patterns w; pattern_count := v;
     kernel := kernel w; trace := trace w |}.

(** [print_usage], lines 255-266. *)
Definition print_usage (program_name : string) : M unit :=
  printf ("Usage: %s [OPTIONS] PATH_TO_WATCH [PATTERN...]" ++ nl)
    [AStr program_name] ;;
  printf ("Options:" ++ nl) [] ;;
  printf ("  -d, --daemon        Run as a daemon" ++ nl) [] ;;
  printf ("  -r, --recursive     Watch directories recursively" ++ nl) [] ;;
  printf ("  -p, --pid=FILE      PID file location (default: %s)" ++ nl)
    [AStr DEFAULT_PID_FILE] ;;
  printf ("  -h, --help          Display this help message" ++ nl) [] ;;
  printf (nl ++ "Examples:" ++ nl) [] ;;
  printf ("  %s /home/user/docs             # Watch all files in docs" ++ nl)
    [AStr program_name] ;;
  printf ("  %s -r /var/log " ++ dq ++ "*.log" ++ dq
            ++ "         # Watch log files recursively" ++ nl)
    [AStr program_name] ;;
  printf ("  %s -d -p /tmp/fw.pid /etc      # Watch /etc as a daemon" ++ nl)
    [AStr program_name].

(** The option loop of [main], lines 285-303, over the successive results
    of [getopt_long], each with the [optarg] it left; the loop ends at the
    first -1, and the end of the list stands for it.  [inl status] is
    [exit(status)], which happens before [cleanup] is registered with
    [atexit]; [inr pid_file] goes on with the value of the local. *)
Fixpoint main_options (program_name : string) (results : list (Z * string))
    (pid_file : string) : M (Z + string) :=
  match results with
  | [] => ret (inr pid_file)
  | (opt, optarg) :: rest =>
      if opt =? -1 then ret (inr pid_file)
      else if opt =? chr "d" then
        modify (set_daemon_mode 1) ;;
        main_options program_name rest pid_file
      else if opt =? chr "r" then
        modify (set_recursive_mode 1) ;;
        main_options program_name rest pid_file
      else if opt =? chr "p" then
        main_options program_name rest optarg
      else if opt =? chr "h" then
        print_usage program_name ;; ret (inl EXIT_SUCCESS)
      else
        print_usage program_name ;; ret (inl EXIT_FAILURE)
  end.

(** The operands of [main], lines 305-325: the arguments from [optind]
    on, the watch path first and the patterns after it. *)
Definition main_operands (program_name : string) (operands : list string)
  : M (Z + string) :=
  match operands with
  | [] =>
      fprintf_stderr ("Error: No watch path specified" ++ nl) [] ;;
      print_usage program_name ;;
      ret (inl EXIT_FAILURE)
  | watch_path :: pats =>
      when (negb (Nat.eqb (length pats) 0))
        (modify (set_pattern_count (Z.of_nat (length pats))) ;;
         modify (set_patterns pats) ;;
         do dm <- get daemon_mode;
         when (negb (truthy dm))
           (printf ("Filtering for patterns:" ++ nl) [] ;;
            do ps <- get live_patterns;
            for_each ps (fun p => printf ("  - %s" ++ nl) [AStr p]))) ;;
      ret (inr watch_path)
  end.

(** Lines 272-325 of [main]: the options, then the operands. *)
Definition main_arguments (program_name : string) (results : list (Z * string))
    (operands : list string) : M (Z + string * string) :=
  do r <- main_options program_name results DEFAULT_PID_FILE;
  match r with
  | inl status => ret (inl status)
  | inr pid_file =>
      do r' <- main_operands program_name operands;
      match r' with
      | inl status => ret (inl status)
      | inr watch_path => ret (inr (pid_file, watch_path))
      end
  end.

(** The options that the loop of [main] takes without leaving. *)
Definition plain_option (r : Z * string) : bool :=
  (fst r =? chr "d") || (fst r =? chr "r") || (fst r =? chr "p").

(** The value of the [pid_file] local after a run of plain options. *)
Fixpoint last_pid_file (results : list (Z * string)) (pid_file : string)
  : string :=
  match results with
  | [] => pid_file
  | (opt, optarg) :: rest =>
      last_pid_file rest (if opt =? chr "p" then optarg else pid_file)
  end.

Definition has_option (c : ascii) (results : list (Z * string)) : bool :=
  existsb (fun r => fst r =? chr c) results.

(** ** [daemon_utils.c]

    The daemon helpers keep one static, [current_pid_file], and talk only
    to the operating system.  Their world holds that static, the results
    the system is going to give to the calls that have one, the table of
    open file descriptors (what each one refers to) and the trace of the
    calls made. *)
Module Daemon.

(** [<syslog.h>], [<fcntl.h>], [<unistd.h>], [<signal.h>]. *)
Definition LOG_NOTICE : Z := 5.
Definition LOG_PID : Z := 1.
Definition LOG_DAEMON : Z := 24.
Definition O_RDWR : Z := 2.
Definition STDIN_FILENO : Z := 0.
Definition STDOUT_FILENO : Z := 1.
Definition STDERR_FILENO : Z := 2.
Definition SIGHUP : Z := 1.
Definition SIGINT : Z := 2.
Definition SIGTERM : Z := 15.

(** Arguments of a formatted message. *)
Inductive darg :=
| DStr (s : string)
| DInt (z : Z)
| DErrno
| DStrerror.

(** Calls to the system, in the order made, with their results. *)
Inductive call :=
| Fork (ret : Z)
| Umask (m : Z)
| Openlog (ident : string) (option : Z) (facility : Z)
| Syslog (priority : Z) (fmt : string) (args : list darg)
| Closelog
| Setsid (ret : Z)
| Chdir (dir : string) (ret : Z)
| Close (fd : Z)
| Open (pathname : string) (flags : Z) (ret : Z)
| Dup2 (oldfd : Z) (newfd : Z)
| Fopen (pathname : string) (mode : string) (ret : Z)
| Fprintf (stream : Z) (fmt : string) (args : list darg)
| Fprintf_stderr (fmt : string) (args : list darg)
| Fclose (stream : Z)
| Getpid (ret : Z)
| Unlink (pathname : string) (ret : Z)
| Sigaction (signum : Z).

Record state := {
  current_pid_file : option string;
  results : list Z;
  descriptors : Z -> option string;
  calls : list call
}.

(** A function either returns or ends the process with [exit]. *)
Inductive outcome (A : Type) :=
| Return (a : A)
| Exit (status : Z).
Arguments Return {A} a.
Arguments Exit {A} status.

Definition DM (A : Type) : Type := state -> A * state.

Definition ret {A} (a : A) : DM A := fun s => (a, s).

Definition bind {A B} (c : DM A) (k : A -> DM B) : DM B :=
  fun s => let (a, s') := c s in k a s'.

Declare Scope daemon_scope.
Notation "'do' x <- c ; k" := (bind c (fun x => k))
  (at level 10, x name, c at level 100, k at level 200) : daemon_scope.
Notation "c ;; k" := (bind c (fun _ => k))
  (at level 100, k at level 200, right associativity) : daemon_scope.
Local Open Scope daemon_scope.

Definition get {A} (f : state -> A) : DM A := fun s => (f s, s).
Definition when (b : bool) (c : DM unit) : DM unit := if b then c else ret tt.

Definition exec {A} (c : DM A) (s : state) : state := snd (c s).
Definition eval {A} (c : DM A) (s : state) : A := fst (c s).

(** A call without a result the code looks at. *)
Definition record (c : call) : DM unit :=
  fun s => (tt, {| current_pid_file := current_pid_file s;
                   results := results s;
                   descriptors := descriptors s;
                   calls := calls s ++ [c] |}).

(** A call whose result the system decides: the next pending result, -1
    when none is left. *)
Definition next_result (s : state) : Z :=
  match results s with [] => -1 | r :: _ => r end.

Definition ask (c : Z -> call) : DM Z :=
  fun s => (next_result s,
            {| current_pid_file := current_pid_file s;
               results := tail (results s);
               descriptors := descriptors s;
               calls := calls s ++ [c (next_result s)] |}).

Definition set_descriptor (fd0 : Z) (v : option string) (s : state) : state :=
  {| current_pid_file := current_pid_file s;
     results := results s;
     descriptors := fun k => if k =? fd0 then v else descriptors s k;
     calls := calls s |}.

Definition set_current_pid_file (v : option string) (s : state) : state :=
  {| current_pid_file := v;
     results := results s;
     descriptors := descriptors s;
     calls := calls s |}.

Definition syslog (priority : Z) (fmt : string) (args : list darg) : DM unit :=
  record (Syslog priority fmt args).

(** [close(2)]: the descriptor refers to nothing afterwards. *)
Definition close (fd0 : Z) : DM unit :=
  record (Close fd0) ;; fun s => (tt, set_descriptor fd0 None s).

(** [open(2)]: a non-negative result is a descriptor for the file. *)
Definition open (pathname : string) (flags : Z) : DM Z :=
  do r <- ask (Open pathname flags);
  (if r <? 0 then ret tt
   else fun s => (tt, set_descriptor r (Some pathname) s)) ;;
  ret r.

(** [dup2(2)]: [newfd] refers to what [oldfd] refers to; nothing changes
    when [oldfd] is not open. *)
Definition dup2 (oldfd newfd : Z) : DM unit :=
  record (Dup2 oldfd newfd) ;;
  fun s => (tt, match descriptors s oldfd with
                | Some target => set_descriptor newfd (Some target) s
                | None => s
                end).

(** [daemonize], lines 37-95. *)
Definition daemonize : DM (outcome Z) :=
  do pid <- ask Fork;
  if pid <? 0 then ret (Return (-1))
  else if pid >? 0 then ret (Exit EXIT_SUCCESS)
  else
    record (Umask 0) ;;
    record (Openlog "fswatcher" LOG_PID LOG_DAEMON) ;;
    syslog LOG_NOTICE "Daemon started" [] ;;
    do sid <- ask Setsid;
    if sid <? 0 then
      syslog LOG_ERR "Failed to create new session, code %d (%s)"
        [DErrno; DStrerror] ;;
      ret (Return (-1))
    else
      do r <- ask (Chdir "/");
      if r <? 0 then
        syslog LOG_ERR "Failed to change working directory, code %d (%s)"
          [DErrno; DStrerror] ;;
        ret (Return (-1))
      else
        close STDIN_FILENO ;;
        close STDOUT_FILENO ;;
        close STDERR_FILENO ;;
        do fd0 <- open "/dev/null" O_RDWR;
        when (negb (fd0 =? STDIN_FILENO)) (dup2 fd0 STDIN_FILENO) ;;
        when (negb (fd0 =? STDOUT_FILENO)) (dup2 fd0 STDOUT_FILENO) ;;
        when (negb (fd0 =? STDERR_FILENO)) (dup2 fd0 STDERR_FILENO) ;;
        when (fd0 >? STDERR_FILENO) (close fd0) ;;
        ret (Return 0).

(** [write_pid_file], lines 98-115; the result of [fopen] is 0 for
    [NULL]. *)
Definition write_pid_file (pid_file : string) : DM Z :=
  do fp <- ask (Fopen pid_file "w");
  if fp =? 0 then
    syslog LOG_ERR "Failed to open PID file %s, code %d (%s)"
      [DStr pid_file; DErrno; DStrerror] ;;
    ret (-1)
  else
    do pid <- ask Getpid;
    record (Fprintf fp ("%d" ++ nl) [DInt pid]) ;;
    record (Fclose fp) ;;
    (fun s => (tt, set_current_pid_file (Some pid_file) s)) ;;
    ret 0.

(** [remove_pid_file], lines 118-123. *)
Definition remove_pid_file (pid_file : string) : DM unit :=
  do r <- ask (Unlink pid_file);
  when (r <? 0)
    (syslog LOG_ERR "Failed to remove PID file %s, code %d (%s)"
       [DStr pid_file; DErrno; DStrerror]).

(** [signal_handler], lines 17-34. *)
Definition signal_handler (sig : Z) : DM (outcome unit) :=
  if (sig =? SIGTERM) || (sig =? SIGINT) then
    syslog LOG_NOTICE "Received signal %d, shutting down..." [DInt sig] ;;
    do pf <- get current_pid_file;
    match pf with
    | Some pid_file => remove_pid_file pid_file
    | None => ret tt
    end ;;
    record Closelog ;;
    ret (Exit EXIT_SUCCESS)
  else if sig =? SIGHUP then
    syslog LOG_NOTICE "Received SIGHUP, reloading configuration..." [] ;;
    ret (Return tt)
  else ret (Return tt).

(** [setup_daemon_signal_handlers], lines 126-135. *)
Definition setup_daemon_signal_handlers : DM unit :=
  record (Sigaction SIGTERM) ;;
  record (Sigaction SIGINT) ;;
  record (Sigaction SIGHUP).

(** The daemon block of [main], [fswatcher.c] lines 336-350. *)
Definition main_daemon (pid_file : string) : DM (outcome unit) :=
  do r <- daemonize;
  match r with
  | Exit status => ret (Exit status)
  | Return v =>
      if v <? 0 then
        record (Fprintf_stderr ("Failed to daemonize" ++ nl) []) ;;
        ret (Exit EXIT_FAILURE)
      else
        do r' <- write_pid_file pid_file;
        if r' <? 0 then
          syslog LOG_ERR "Failed to write PID file" [] ;;
          ret (Exit EXIT_FAILURE)
        else
          setup_daemon_signal_handlers ;;
          ret (Return tt)
  end.

(** The signals for which a handler call was made. *)
Definition handled_signals (t : list call) : list Z :=
  flat_map (fun c => match c with Sigaction n => [n] | _ => [] end) t.

(** What was written to standard error. *)
Definition stderr_output (t : list call) : list call :=
  flat_map (fun c => match c with Fprintf_stderr _ _ => [c] | _ => [] end) t.

(** The files the program asked to unlink. *)
Definition unlink_requests (t : list call) : list string :=
  flat_map (fun c => match c with Unlink p _ => [p] | _ => [] end) t.

(** A computation keeps a projection of the trace when it makes no call
    that the projection selects. *)
Definition keeps {X A : Type} (f : call -> list X) (c : DM A) : Prop :=
  forall s, flat_map f (calls (snd (c s))) = flat_map f (calls s).

(** A process started from a terminal: nothing recorded, the three
    standard descriptors on the terminal. *)
Definition initial_state (rs : list Z) : state :=
  {| current_pid_file := None;
     results := rs;
     descriptors := fun k => if (0 <=? k) && (k <=? 2) then Some "/dev/tty"
                             else None;
     calls := [] |}.

End Daemon.

(** What the delivery of a signal comes to: the handler ran and returned,
    the handler ended the process with [exit], or no handler is installed
    for the signal and the kernel takes its default action (for most
    signals the end of the process), in which no code of the program
    runs, neither a handler nor a function registered with [atexit]. *)
Inductive delivery :=
| Handler_returned
| Exited (status : Z)
| Default_action (sig : Z).

(** The delivery of a signal to the process.  The handler is installed
    for the signals [sigaction] was called for, and stays installed.  When
    the handler calls [exit], the function registered with [atexit] (line
    333 of [fswatcher.c], [cleanup]) runs on the globals of the watcher. *)
Definition deliver_signal (sig : Z) (s : Daemon.state) (w : world)
  : delivery * Daemon.state * world :=
  if existsb (Z.eqb sig) (Daemon.handled_signals (Daemon.calls s)) then
    match Daemon.signal_handler sig s with
    | (Daemon.Exit status, s') => (Exited status, s', exec cleanup w)
    | (Daemon.Return _, s') => (Handler_returned, s', w)
    end
  else (Default_action sig, s, w).

(** ** The start of [main], lines 327-380 *)

(** Lines 328-330. *)
Definition main_callbacks : M Z :=
  register_callback IN_CREATE None on_file_created ;;
  register_callback IN_DELETE None on_file_deleted ;;
  register_callback IN_MODIFY None on_file_modified.

(** Lines 352-380; [init_fd] is what [inotify_init] returned. *)
Definition main_inotify (filesystem : string -> option fs_tree) (init_fd : Z)
    (watch_path : string) : M (option Z) :=
  modify (set_fd init_fd) ;;
  if init_fd <? 0 then
    do dm <- get daemon_mode;
    (if truthy dm
     then syslog LOG_ERR "Failed to initialize inotify: %s" [AStrerror]
     else perror "inotify_init") ;;
    cleanup ;; ret (Some 1)
  else main_watches filesystem watch_path.

(** The callbacks are registered, [cleanup] is registered with [atexit]
    (line 333), in daemon mode the daemon block runs, and then inotify is
    set up.  The result is [Some status] for [exit(status)], each of which
    runs [cleanup], and [None] when [main] reaches its event loop; with it
    come the globals of the watcher and the state of the daemon helpers. *)
Definition main_start (filesystem : string -> option fs_tree)
    (pid_file : string) (init_fd : Z) (watch_path : string)
    (w : world) (s : Daemon.state) : option Z * world * Daemon.state :=
  let w1 := exec main_callbacks w in
  if truthy (daemon_mode w1) then
    match Daemon.main_daemon pid_file s with
    | (Daemon.Exit status, s') => (Some status, exec cleanup w1, s')
    | (Daemon.Return _, s') =>
        (main_inotify filesystem init_fd watch_path w1, s')
    end
  else (main_inotify filesystem init_fd watch_path w1, s).

(** * Properties *)

Local Open Scope list_scope.

(** ** The monad and the trace observations *)

Lemma set_trace_id (w : world) : set_trace (trace w) w = w.
Proof. destruct w; reflexivity. Qed.

Lemma set_trace_nil (w : world) : set_trace (trace w ++ []) w = w.
Proof. rewrite app_nil_r. apply set_trace_id. Qed.

Lemma for_each_emits {A} (eff : Z -> A -> list effect) (body : A -> M unit)
    (l : list A) :
  (forall x w, body x w = (tt, set_trace (trace w ++ eff (daemon_mode w) x) w)) ->
  forall w,
    for_each l body w
    = (tt, set_trace (trace w ++ flat_map (eff (daemon_mode w)) l) w).
Proof.
  intros Hbody. induction l as [|x l IH]; intros w; cbn.
  - unfold ret. rewrite set_trace_nil. reflexivity.
  - unfold bind. rewrite Hbody, IH. cbn. rewrite <- app_assoc. reflexivity.
Qed.

Lemma issued_app (t1 t2 : list effect) :
  issued (t1 ++ t2) = issued t1 ++ issued t2.
Proof. apply flat_map_app. Qed.

Lemma handler_calls_app (t1 t2 : list effect) :
  handler_calls (t1 ++ t2) = handler_calls t1 ++ handler_calls t2.
Proof. apply flat_map_app. Qed.

Lemma rm_watch_requests_app (t1 t2 : list effect) :
  rm_watch_requests (t1 ++ t2) = rm_watch_requests t1 ++ rm_watch_requests t2.
Proof. apply flat_map_app. Qed.

Lemma add_watch_requests_app (t1 t2 : list effect) :
  add_watch_requests (t1 ++ t2) = add_watch_requests t1 ++ add_watch_requests t2.
Proof. apply flat_map_app. Qed.

(** ** [add_watch], branch by branch *)

Lemma add_watch_full (w : world) (p : string) :
  watch_count w >= MAX_WATCHES ->
  add_watch p w =
  (-1, set_trace (trace w ++
         [if truthy (daemon_mode w)
          then Syslog LOG_ERR "Maximum number of watches reached (max=%d)"
                 [AInt MAX_WATCHES]
          else Fprintf_stderr ("Maximum number of watches reached (max=%d)" ++ nl)
                 [AInt MAX_WATCHES]]) w).
Proof.
  intros H. unfold add_watch, bind, get.
  assert (E : (watch_count w >=? MAX_WATCHES) = true) by lia.
  rewrite E. destruct (truthy (daemon_mode w)); reflexivity.
Qed.

Lemma add_watch_refused (w : world) (p : string) :
  watch_count w < MAX_WATCHES ->
  next_reply w < 0 ->
  add_watch p w =
  (-1, set_trace (trace w ++
         [Sys_inotify_add_watch (fd w) p all_watch_events (next_reply w);
          if truthy (daemon_mode w)
          then Syslog LOG_ERR "Failed to add watch for %s: %s" [AStr p; AStrerror]
          else Fprintf_stderr ("Failed to add watch for %s: %s" ++ nl)
                 [AStr p; AStrerror]])
         (set_kernel (tail (kernel w)) w)).
Proof.
  intros H Hr. unfold add_watch, bind, get.
  assert (E : (watch_count w >=? MAX_WATCHES) = false) by lia.
  rewrite E. unfold inotify_add_watch.
  assert (E2 : (next_reply w <? 0) = true) by lia.
  rewrite E2.
  destruct (truthy (daemon_mode w)); cbn; rewrite <- app_assoc; reflexivity.
Qed.

Lemma add_watch_ok (w : world) (p : string) :
  watch_count w < MAX_WATCHES ->
  0 <= next_reply w ->
  add_watch p w =
  (next_reply w,
   set_watch_count (watch_count w + 1)
     (set_trace (trace w ++
         [Sys_inotify_add_watch (fd w) p all_watch_events (next_reply w);
          if truthy (daemon_mode w)
          then Syslog LOG_INFO "Watching directory: %s (wd=%d)"
                 [AStr p; AInt (next_reply w)]
          else Printf ("Watching directory: %s (wd=%d)" ++ nl)
                 [AStr p; AInt (next_reply w)]])
        (set_watches
           (<[Z.to_nat (watch_count w) :=
                {| wd := next_reply w; path := c_truncate PATH_MAX p |}]>
              (watches w))
           (set_kernel (tail (kernel w)) w)))).
Proof.
  intros H Hr. unfold add_watch, bind, get.
  assert (E : (watch_count w >=? MAX_WATCHES) = false) by lia.
  rewrite E. unfold inotify_add_watch.
  assert (E2 : (next_reply w <? 0) = false) by lia.
  rewrite E2.
  destruct (truthy (daemon_mode w)); cbn; rewrite <- app_assoc; reflexivity.
Qed.

(** The live slots after writing slot [watch_count] and counting it. *)
Lemma take_insert_next {A} (l : list A) (n : nat) (x : A) :
  (n < length l)%nat ->
  take (S n) (<[n := x]> l) = take n l ++ [x].
Proof.
  revert n. induction l as [|y l IH]; intros n Hn; cbn in Hn; [lia|].
  destruct n as [|n]; cbn.
  - reflexivity.
  - f_equal. apply IH. lia.
Qed.

Lemma add_watch_spec (p : string) (w : world) :
  well_formed w ->
  add_watch_step p w (fst (add_watch p w)) (snd (add_watch p w)).
Proof.
  intros [Hw Hwc Hc Hcc Hp].
  destruct (Z_lt_ge_dec (watch_count w) MAX_WATCHES) as [Hlt|Hge].
  - destruct (Z_lt_ge_dec (next_reply w) 0) as [Hneg|Hpos].
    + rewrite add_watch_refused by assumption. cbn.
      split; cbn; try reflexivity; try assumption.
      * split; assumption.
      * rewrite handler_calls_app. cbn.
        destruct (truthy (daemon_mode w)); cbn; apply app_nil_r.
      * rewrite rm_watch_requests_app. cbn.
        destruct (truthy (daemon_mode w)); cbn; apply app_nil_r.
      * left. repeat split; try reflexivity.
        rewrite issued_app. cbn.
        assert (E : (next_reply w <? 0) = true) by lia. rewrite E.
        destruct (truthy (daemon_mode w)); cbn; apply app_nil_r.
    + rewrite add_watch_ok by lia. cbn.
      split; cbn; try reflexivity; try assumption.
      * split; cbn; try assumption; try lia.
        rewrite length_insert. assumption.
      * rewrite handler_calls_app. cbn.
        destruct (truthy (daemon_mode w)); cbn; apply app_nil_r.
      * rewrite rm_watch_requests_app. cbn.
        destruct (truthy (daemon_mode w)); cbn; apply app_nil_r.
      * right. repeat split; try lia.
        -- unfold live_watches. cbn.
           replace (Z.to_nat (watch_count w + 1))
             with (S (Z.to_nat (watch_count w))) by lia.
           apply take_insert_next. rewrite Hw. lia.
        -- rewrite issued_app. cbn.
           assert (E : (next_reply w <? 0) = false) by lia. rewrite E.
           destruct (truthy (daemon_mode w)); reflexivity.
  - rewrite add_watch_full by assumption. cbn.
    split; cbn; try reflexivity; try assumption.
    + split; assumption.
    + rewrite handler_calls_app. cbn.
      destruct (truthy (daemon_mode w)); cbn; apply app_nil_r.
    + rewrite rm_watch_requests_app. cbn.
      destruct (truthy (daemon_mode w)); cbn; apply app_nil_r.
    + left. repeat split; try reflexivity.
      rewrite issued_app.
      destruct (truthy (daemon_mode w)); cbn; apply app_nil_r.
Qed.

(** ** Computations and frames *)

Section Respects.

Context (R : world -> world -> Prop) `{!Frame R}.

Lemma respects_ret {A} (a : A) : respects R (ret a).
Proof. intros w. apply frame_refl. Qed.

Lemma respects_get {A} (f : world -> A) : respects R (get f).
Proof. intros w. apply frame_refl. Qed.

Lemma respects_bind {A B} (c : M A) (k : A -> M B) :
  respects R c -> (forall a, respects R (k a)) -> respects R (bind c k).
Proof.
  intros Hc Hk w. unfold bind. specialize (Hc w).
  destruct (c w) as [a w1]. cbn in Hc.
  eapply frame_trans; [exact Hc | apply Hk].
Qed.

Lemma respects_when (b : bool) (c : M unit) :
  respects R c -> respects R (when b c).
Proof. intros Hc. destruct b; [exact Hc | apply respects_ret]. Qed.

Lemma respects_for_each {A} (l : list A) (body : A -> M unit) :
  (forall x, respects R (body x)) -> respects R (for_each l body).
Proof.
  intros Hb. induction l as [|x l IH]; cbn.
  - apply respects_ret.
  - apply respects_bind; [apply Hb | intros _; exact IH].
Qed.

Lemma respects_free_patterns (cbs : list callback_info) (i : nat) :
  (forall ptr, respects R (free ptr)) -> respects R (free_patterns i cbs).
Proof.
  intros Hf. revert i. induction cbs as [|cb cbs IH]; intros i; cbn.
  - apply respects_ret.
  - apply respects_bind; [apply Hf | intros _; apply IH].
Qed.

Lemma respects_nftw_run (fn : string -> Z -> Z -> M Z)
    (visits : list (string * Z * Z)) :
  (forall p t l, respects R (fn p t l)) -> respects R (nftw_run fn visits).
Proof.
  intros Hfn. induction visits as [|[[p t] l] visits IH]; cbn.
  - apply respects_ret.
  - apply respects_bind; [apply Hfn|].
    intros r. destruct (r =? 0); [exact IH | apply respects_ret].
Qed.

End Respects.

(** Splits a goal [respects R c] along the structure of [c]; what is left
    are the primitive steps, for [tac] to close. *)
Ltac respects_steps tac :=
  repeat first
    [ apply respects_ret; exact _
    | apply respects_get; exact _
    | apply respects_when; [exact _ |]
    | apply respects_for_each; [exact _ | intros]
    | apply respects_nftw_run; [exact _ | intros]
    | apply respects_free_patterns; [exact _ | intros; unfold free]
    | tac
    | apply respects_bind; [exact _ | | intros]
    | match goal with
      | |- respects _ (if ?b then _ else _) => destruct b
      | |- respects _ (match ?x with _ => _ end) => destruct x
      end ].

(** *** The registry frame *)

Lemma extends_refl (w : world) : extends w w.
Proof.
  split; try reflexivity. exists []. cbn. rewrite !app_nil_r. repeat split. lia.
Qed.

Lemma extends_trans (w1 w2 w3 : world) :
  extends w1 w2 -> extends w2 w3 -> extends w1 w3.
Proof.
  intros [F1 D1 R1 C1 N1 P1 Q1 (a1 & L1 & I1 & K1)]
         [F2 D2 R2 C2 N2 P2 Q2 (a2 & L2 & I2 & K2)].
  split; try congruence.
  exists (a1 ++ a2). rewrite L2, L1, I2, I1, K2, K1.
  rewrite map_app, length_app, <- !app_assoc. repeat split. lia.
Qed.

#[local] Instance registry_frame : Frame registry_step.
Proof.
  split.
  - intros w Hw. split; [assumption | apply extends_refl].
  - intros w1 w2 w3 H12 H23 Hw. destruct (H12 Hw) as [Hw2 E12].
    destruct (H23 Hw2) as [Hw3 E23].
    split; [assumption | eapply extends_trans; eassumption].
Qed.

Lemma registry_emit (e : effect) :
  issued [e] = [] -> respects registry_step (emit e).
Proof.
  intros He w [Hw Hwc Hc Hcc Hp]. split; [split; assumption|].
  split; try reflexivity. exists []. cbn.
  rewrite issued_app, He, !app_nil_r. repeat split. lia.
Qed.

Lemma registry_add_watch (p : string) : respects registry_step (add_watch p).
Proof.
  intros w Hw.
  destruct (add_watch_spec p w Hw) as [Hwf ? ? ? ? ? ? ? _ _ Hout].
  split; [assumption|]. split; try assumption.
  destruct Hout as [(_ & Hk & Ht & Hi) | (_ & _ & _ & Hk & _ & Hl & Hi)].
  - exists []. unfold live_watches. rewrite Hk, Ht, Hi, !app_nil_r.
    repeat split. cbn. lia.
  - eexists. split; [exact Hl|]. split; [exact Hi|]. rewrite Hk. reflexivity.
Qed.

Ltac registry_steps :=
  respects_steps ltac:(idtac; first [ apply registry_add_watch
                                    | apply registry_emit; reflexivity ]).

Lemma registry_ftw_callback (fpath : string) (typeflag level : Z) :
  respects registry_step (ftw_callback fpath typeflag level).
Proof. unfold ftw_callback. registry_steps. Qed.

Lemma registry_watch_recursively (filesystem : string -> option fs_tree)
    (p : string) :
  respects registry_step (watch_recursively filesystem p).
Proof.
  unfold watch_recursively, nftw, syslog, fprintf_stderr.
  registry_steps; apply registry_ftw_callback.
Qed.

Lemma registry_call (cb : event_callback) (p f : string) :
  respects registry_step (call cb p f).
Proof. unfold call, printf. registry_steps. Qed.

Lemma registry_process_event (fnmatch : string -> string -> Z -> Z)
    (event_mask : Z) (p f : string) :
  respects registry_step (process_event fnmatch event_mask p f).
Proof.
  unfold process_event, syslog, printf. registry_steps; apply registry_call.
Qed.

Lemma registry_cleanup : respects registry_step cleanup.
Proof. unfold cleanup, inotify_rm_watch, close, free. registry_steps. Qed.

Lemma registry_main_event (fnmatch : string -> string -> Z -> Z)
    (ev : inotify_event) :
  respects registry_step (main_event fnmatch ev).
Proof.
  unfold main_event, syslog, fprintf_stderr, printf.
  registry_steps; apply registry_process_event.
Qed.

Lemma registry_run_op (fnmatch : string -> string -> Z -> Z) (o : op) :
  respects registry_step (run_op fnmatch o).
Proof.
  destruct o; cbn.
  - registry_steps.
  - apply registry_watch_recursively.
  - apply registry_main_event.
  - apply registry_cleanup.
Qed.

Lemma registry_run_ops (fnmatch : string -> string -> Z -> Z) (ops : list op) :
  respects registry_step (run_ops fnmatch ops).
Proof.
  apply respects_for_each; [exact _|]. intros o. apply registry_run_op.
Qed.

(** Well-formedness of a closed world, by evaluation. *)
Ltac concrete_well_formed :=
  split; vm_compute; first [reflexivity | split; discriminate].

Lemma initial_world_well_formed (daemon recursive : Z) (pats : list string)
    (replies : list Z) :
  well_formed (initial_world daemon recursive pats replies).
Proof.
  split; cbn; try reflexivity; try (unfold MAX_WATCHES, MAX_CALLBACKS; lia).
  all: rewrite length_replicate; reflexivity.
Qed.

(** *** The dispatch frame *)

#[local] Instance quiet_frame : Frame quiet.
Proof.
  split.
  - intros w. split; reflexivity.
  - intros w1 w2 w3 [] []. split; congruence.
Qed.

Lemma quiet_emit (e : effect) :
  handler_calls [e] = [] -> respects quiet (emit e).
Proof.
  intros He w. split; try reflexivity.
  cbn. rewrite handler_calls_app, He. apply app_nil_r.
Qed.

Lemma quiet_add_watch (p : string) : respects quiet (add_watch p).
Proof.
  intros w.
  destruct (Z_lt_ge_dec (watch_count w) MAX_WATCHES) as [Hlt|Hge];
    [destruct (Z_lt_ge_dec (next_reply w) 0) as [Hneg|Hpos] |].
  - rewrite add_watch_refused by assumption.
    split; try reflexivity. cbn. rewrite handler_calls_app.
    destruct (truthy (daemon_mode w)); apply app_nil_r.
  - rewrite add_watch_ok by lia.
    split; try reflexivity. cbn. rewrite handler_calls_app.
    destruct (truthy (daemon_mode w)); apply app_nil_r.
  - rewrite add_watch_full by assumption.
    split; try reflexivity. cbn. rewrite handler_calls_app.
    destruct (truthy (daemon_mode w)); apply app_nil_r.
Qed.

Ltac quiet_steps :=
  respects_steps ltac:(idtac; first [ apply quiet_add_watch
                                    | apply quiet_emit; reflexivity ]).

(** *** Running computations *)

Lemma exec_bind {A B} (c : M A) (k : A -> M B) (w : world) :
  exec (bind c k) w = exec (k (eval c w)) (exec c w).
Proof. unfold exec, eval, bind. destruct (c w); reflexivity. Qed.

Lemma eval_bind {A B} (c : M A) (k : A -> M B) (w : world) :
  eval (bind c k) w = eval (k (eval c w)) (exec c w).
Proof. unfold exec, eval, bind. destruct (c w); reflexivity. Qed.

Lemma exec_get {A} (f : world -> A) (w : world) : exec (get f) w = w.
Proof. reflexivity. Qed.

Lemma eval_get {A} (f : world -> A) (w : world) : eval (get f) w = f w.
Proof. reflexivity. Qed.

Lemma exec_ret {A} (a : A) (w : world) : exec (ret a) w = w.
Proof. reflexivity. Qed.

Lemma eval_ret {A} (a : A) (w : world) : eval (ret a) w = a.
Proof. reflexivity. Qed.

Create Rewrite HintDb run.
#[local] Hint Rewrite @exec_bind @eval_bind @exec_get @eval_get @exec_ret
  @eval_ret : run.

Lemma call_emits (cb : event_callback) (p f : string) (w : world) :
  call cb p f w
  = (tt, set_trace (trace w ++ call_effects (daemon_mode w) cb p f) w).
Proof.
  unfold call, call_effects, bind, emit, modify, get, when, printf, emit, modify, ret.
  destruct cb; cbn; try (destruct (truthy (daemon_mode w)); cbn);
    rewrite <- ?app_assoc; try reflexivity.
Qed.

(** What one round of the dispatch loop adds to the trace. *)
Lemma dispatch_emits (fnmatch : string -> string -> Z -> Z) (event_mask : Z)
    (p f : string) (cbs : list callback_info) (w : world) :
  for_each cbs (fun cb =>
    when (callback_fires fnmatch event_mask f cb) (call (callback cb) p f)) w
  = (tt, set_trace (trace w ++
       flat_map (fun cb =>
         if callback_fires fnmatch event_mask f cb
         then call_effects (daemon_mode w) (callback cb) p f else []) cbs) w).
Proof.
  apply (for_each_emits
    (fun dm cb => if callback_fires fnmatch event_mask f cb
                  then call_effects dm (callback cb) p f else [])).
  intros cb w'. destruct (callback_fires fnmatch event_mask f cb); cbn.
  - apply call_emits.
  - unfold ret. rewrite set_trace_nil. reflexivity.
Qed.

Lemma handler_calls_dispatch (fires : callback_info -> bool) (dm : Z)
    (p f : string) (cbs : list callback_info) :
  handler_calls
    (flat_map (fun cb => if fires cb
                         then call_effects dm (callback cb) p f else []) cbs)
  = map (fun cb => (callback cb, p, f)) (List.filter fires cbs).
Proof.
  induction cbs as [|cb cbs IH]; cbn; [reflexivity|].
  rewrite handler_calls_app, IH.
  destruct (fires cb); cbn; [|reflexivity].
  f_equal. destruct (callback cb); cbn; try reflexivity;
    destruct (truthy dm); reflexivity.
Qed.

Lemma process_event_calls (fnmatch : string -> string -> Z -> Z)
    (event_mask : Z) (p f : string) (w : world) :
  handler_calls (trace (exec (process_event fnmatch event_mask p f) w))
  = handler_calls (trace w) ++
    map (fun cb => (callback cb, p, f))
      (List.filter (callback_fires fnmatch event_mask f) (live_callbacks w)).
Proof.
  unfold process_event. autorewrite with run.
  match goal with
  | |- context [exec (for_each _ _) (exec ?c2 (exec ?c1 w))] =>
      assert (Hq : quiet w (exec c2 (exec c1 w)));
      [ eapply frame_trans;
        [ assert (H1 : respects quiet c1) by (unfold syslog, printf; quiet_steps);
          apply H1
        | assert (H2 : respects quiet c2) by (unfold syslog; quiet_steps);
          apply H2 ]
      | set (w2 := exec c2 (exec c1 w)) in * ]
  end.
  destruct Hq as [Hd Hc Hn Hh].
  unfold exec at 1. rewrite dispatch_emits. cbn.
  rewrite handler_calls_app, handler_calls_dispatch, Hh.
  unfold live_callbacks. rewrite Hc, Hn. reflexivity.
Qed.

(** ** The pattern matcher *)

Lemma take_all {A} (l : list A) : take (length l) l = l.
Proof. induction l; cbn; congruence. Qed.



(** ** The matcher and the patterns of the manual *)










(** *** Bracket expressions *)
















(** *** The whole pattern *)







(** ** The tables at capacity *)

(** C5.  With the watch table at [MAX_WATCHES], [add_watch] returns -1
    after the "maximum number of watches reached" diagnostic, asks the
    kernel nothing, and leaves the count and every slot as they were.
    With the callback table at [MAX_CALLBACKS], [register_callback]
    returns -1 and leaves the world as it was.  Below that maximum it
    stores the entry in the next slot, after the live ones, and returns
    the index of that slot. *)
Theorem tables_at_capacity (w : world) (p : string) (event_mask : Z)
    (pat : option string) (cb : event_callback) :
  (watch_count w >= MAX_WATCHES ->
     eval (add_watch p) w = -1 /\
     exec (add_watch p) w =
       set_trace (trace w ++
         [if truthy (daemon_mode w)
          then Syslog LOG_ERR "Maximum number of watches reached (max=%d)"
                 [AInt MAX_WATCHES]
          else Fprintf_stderr ("Maximum number of watches reached (max=%d)" ++ nl)
                 [AInt MAX_WATCHES]]) w /\
     watch_count (exec (add_watch p) w) = watch_count w /\
     watches (exec (add_watch p) w) = watches w /\
     live_watches (exec (add_watch p) w) = live_watches w /\
     kernel (exec (add_watch p) w) = kernel w) /\
  (callback_count w >= MAX_CALLBACKS ->
     register_callback event_mask pat cb w = (-1, w)) /\
  (well_formed w -> callback_count w < MAX_CALLBACKS ->
     eval (register_callback event_mask pat cb) w = callback_count w /\
     callback_count (exec (register_callback event_mask pat cb) w)
       = callback_count w + 1 /\
     live_callbacks (exec (register_callback event_mask pat cb) w)
       = live_callbacks w ++
         [{| mask := event_mask; pattern := pat; callback := cb |}]).
Proof.
  split; [|split].
  - intros H. unfold eval, exec. rewrite add_watch_full by assumption.
    cbn. repeat split.
  - intros H. unfold register_callback, bind, get.
    assert (E : (callback_count w >=? MAX_CALLBACKS) = true) by lia.
    rewrite E. reflexivity.
  - intros [_ _ Hc Hcc _] H. unfold eval, exec, register_callback, bind, get.
    assert (E : (callback_count w >=? MAX_CALLBACKS) = false) by lia.
    rewrite E. cbn. repeat split.
    unfold live_callbacks. cbn.
    replace (Z.to_nat (callback_count w + 1))
      with (S (Z.to_nat (callback_count w))) by lia.
    apply take_insert_next. rewrite Hc. lia.
Qed.

Lemma tables_at_capacity_witness :
  eval (add_watch "/tmp/w/extra") full_watch_world = -1 /\
  watch_count (exec (add_watch "/tmp/w/extra") full_watch_world) = 512 /\
  register_callback IN_CREATE None on_file_created full_callback_world
    = (-1, full_callback_world) /\
  eval (register_callback IN_CREATE None on_file_created)
    (initial_world 0 0 [] []) = 0.
Proof.
  assert (Hfull : watch_count full_watch_world = 512) by (vm_compute; reflexivity).
  assert (Hcb : callback_count full_callback_world = 20) by (vm_compute; reflexivity).
  destruct (tables_at_capacity full_watch_world "/tmp/w/extra" IN_CREATE None
              on_file_created) as (Hw & _ & _).
  destruct (tables_at_capacity full_callback_world "/tmp/w/extra" IN_CREATE None
              on_file_created) as (_ & Hc & _).
  destruct (tables_at_capacity (initial_world 0 0 [] []) "/tmp/w/extra"
              IN_CREATE None on_file_created) as (_ & _ & Hr).
  split; [|split; [|split]].
  - apply Hw. rewrite Hfull. unfold MAX_WATCHES. lia.
  - destruct Hw as (_ & _ & Hk & _); [rewrite Hfull; unfold MAX_WATCHES; lia|].
    rewrite Hk. exact Hfull.
  - apply Hc. rewrite Hcb. unfold MAX_CALLBACKS. lia.
  - apply Hr; [apply initial_world_well_formed | cbn; unfold MAX_CALLBACKS; lia].
Defined.

(** ** The event loop *)

(** C9.  A record whose name length is zero leaves the world exactly as it
    was, in any mode and whatever its mask says: no lookup diagnostic, no
    pattern test, no request to the kernel, no handler call, no change to
    the watch table; the loop goes on with the next record of the read. *)
Theorem nameless_event_is_skipped (fnmatch : string -> string -> Z -> Z)
    (event : inotify_event) (rest : list inotify_event) (w : world) :
  ev_len event = 0 ->
  main_event fnmatch event w = (tt, w) /\
  main_events fnmatch (event :: rest) w = main_events fnmatch rest w.
Proof.
  intros H.
  assert (E : main_event fnmatch event w = (tt, w))
    by (unfold main_event; rewrite H; reflexivity).
  split; [exact E|].
  unfold main_events. cbn [for_each]. unfold bind. rewrite E. reflexivity.
Qed.

Lemma nameless_event_is_skipped_witness :
  truthy (recursive_mode recursive_log_world) = true /\
  truthy (Z.land (ev_mask mkdir_nameless) IN_CREATE) = true /\
  truthy (Z.land (ev_mask mkdir_nameless) IN_ISDIR) = true /\
  main_event Glob.fnmatch mkdir_nameless recursive_log_world
    = (tt, recursive_log_world).
Proof.
  split; [vm_compute; reflexivity|].
  split; [vm_compute; reflexivity|].
  split; [vm_compute; reflexivity|].
  apply (nameless_event_is_skipped Glob.fnmatch mkdir_nameless []
           recursive_log_world).
  reflexivity.
Defined.

(** ** The callback dispatcher *)

Lemma callback_fires_iff (fnmatch : string -> string -> Z -> Z)
    (event_mask : Z) (f : string) (cb : callback_info) :
  callback_fires fnmatch event_mask f cb = true <->
  Z.land (mask cb) event_mask <> 0 /\
  (pattern cb = None \/ exists q, pattern cb = Some q /\ fnmatch q f 0 = 0).
Proof.
  unfold callback_fires, truthy. rewrite andb_true_iff, negb_true_iff, Z.eqb_neq.
  split; intros [Hm Hp]; (split; [assumption|]).
  - destruct (pattern cb) as [q|]; [right | left; reflexivity].
    exists q. split; [reflexivity | lia].
  - destruct Hp as [-> | (q & -> & Hq)]; [reflexivity | lia].
Qed.

(** C6.  The handler calls [process_event] makes are those of the live
    callback entries that pass the test of the loop, one call each, in
    table order, that is in registration order, with the resolved path and
    the filename as arguments.  An entry passes exactly when its mask and
    the event mask have a bit in common and its pattern is [NULL] or
    accepted by [fnmatch] for the filename.  So with two live entries
    whose masks both meet the event mask and of whose patterns only one
    accepts the filename, exactly one call is made, to that entry's
    handler; which of the two it is does not matter. *)
Theorem dispatch_in_registration_order
    (fnmatch : string -> string -> Z -> Z) (event_mask : Z) (p f : string)
    (w : world) :
  handler_calls (trace (exec (process_event fnmatch event_mask p f) w))
  = handler_calls (trace w) ++
    map (fun cb => (callback cb, p, f))
      (List.filter (callback_fires fnmatch event_mask f) (live_callbacks w))
  /\
  (forall cb,
     callback_fires fnmatch event_mask f cb = true <->
     Z.land (mask cb) event_mask <> 0 /\
     (pattern cb = None \/ exists q, pattern cb = Some q /\ fnmatch q f 0 = 0))
  /\
  (forall cb1 cb2 q1 q2,
     live_callbacks w = [cb1; cb2] ->
     Z.land (mask cb1) event_mask <> 0 ->
     Z.land (mask cb2) event_mask <> 0 ->
     pattern cb1 = Some q1 -> pattern cb2 = Some q2 ->
     (fnmatch q1 f 0 = 0 -> fnmatch q2 f 0 <> 0 ->
      handler_calls (trace (exec (process_event fnmatch event_mask p f) w))
      = handler_calls (trace w) ++ [(callback cb1, p, f)]) /\
     (fnmatch q1 f 0 <> 0 -> fnmatch q2 f 0 = 0 ->
      handler_calls (trace (exec (process_event fnmatch event_mask p f) w))
      = handler_calls (trace w) ++ [(callback cb2, p, f)])).
Proof.
  split; [apply process_event_calls|].
  split; [intros cb; apply callback_fires_iff|].
  intros cb1 cb2 q1 q2 Hl Hm1 Hm2 Hp1 Hp2.
  rewrite process_event_calls, Hl. cbn.
  assert (F1 : callback_fires fnmatch event_mask f cb1
               = (fnmatch q1 f 0 =? 0)).
  { unfold callback_fires, truthy. rewrite Hp1.
    apply Z.eqb_neq in Hm1. rewrite Hm1. reflexivity. }
  assert (F2 : callback_fires fnmatch event_mask f cb2
               = (fnmatch q2 f 0 =? 0)).
  { unfold callback_fires, truthy. rewrite Hp2.
    apply Z.eqb_neq in Hm2. rewrite Hm2. reflexivity. }
  rewrite F1, F2. split; intros H1 H2.
  - apply Z.eqb_eq in H1. apply Z.eqb_neq in H2. rewrite H1, H2. reflexivity.
  - apply Z.eqb_neq in H1. apply Z.eqb_eq in H2. rewrite H1, H2. reflexivity.
Qed.

Lemma dispatch_in_registration_order_witness :
  handler_calls
    (trace (exec (process_event Glob.fnmatch IN_CREATE "/tmp/w" "app.log")
              two_callback_world))
  = [(cb_extern 1, "/tmp/w", "app.log")].
Proof.
  pose (cb1 := {| mask := Z.lor IN_CREATE IN_MODIFY; pattern := Some "*.log";
                  callback := cb_extern 1 |}).
  pose (cb2 := {| mask := Z.lor IN_CREATE IN_DELETE; pattern := Some "*.txt";
                  callback := cb_extern 2 |}).
  assert (Hlive : live_callbacks two_callback_world = [cb1; cb2])
    by (vm_compute; reflexivity).
  assert (Hm1 : Z.land (mask cb1) IN_CREATE <> 0) by (vm_compute; discriminate).
  assert (Hm2 : Z.land (mask cb2) IN_CREATE <> 0) by (vm_compute; discriminate).
  assert (Hlog : Glob.fnmatch "*.log" "app.log" 0 = 0) by reflexivity.
  assert (Htxt : Glob.fnmatch "*.txt" "app.log" 0 <> 0)
    by (vm_compute; discriminate).
  exact (proj1 (proj2 (proj2 (dispatch_in_registration_order Glob.fnmatch
                                IN_CREATE "/tmp/w" "app.log" two_callback_world))
                  cb1 cb2 "*.log" "*.txt" Hlive Hm1 Hm2 eq_refl eq_refl)
           Hlog Htxt).
Defined.

(** ** Lookup in the watch table *)

Lemma find_wd_app (h : Z) (l1 l2 : list watch_info) :
  find_wd h (l1 ++ l2)
  = match find_wd h l1 with Some q => Some q | None => find_wd h l2 end.
Proof.
  induction l1 as [|e l1 IH]; cbn; [reflexivity|].
  destruct (wd e =? h); [reflexivity | exact IH].
Qed.

Lemma find_wd_none (h : Z) (l : list watch_info) :
  find_wd h l = None <-> ~ In h (map wd l).
Proof.
  induction l as [|e l IH]; cbn; [tauto|].
  destruct (Z.eqb_spec (wd e) h) as [E|E].
  - split; [discriminate | intros H; exfalso; apply H; left; exact E].
  - rewrite IH. tauto.
Qed.

Lemma find_wd_some (h : Z) (l : list watch_info) :
  In h (map wd l) -> exists q, find_wd h l = Some q.
Proof.
  intros H. destruct (find_wd h l) as [q|] eqn:E; [exists q; reflexivity|].
  apply find_wd_none in E. contradiction.
Qed.

(** ** Truncation of stored paths *)

Lemma substring_all (s : string) (n : nat) :
  (String.length s <= n)%nat -> substring 0 n s = s.
Proof.
  revert n. induction s as [|c s IH]; intros n H; cbn in *.
  - destruct n; reflexivity.
  - destruct n; [lia|]. cbn. f_equal. apply IH. lia.
Qed.

Lemma substring_length (s : string) (n : nat) :
  (n <= String.length s)%nat -> String.length (substring 0 n s) = n.
Proof.
  revert n. induction s as [|c s IH]; intros n H; cbn in *.
  - destruct n; [reflexivity | lia].
  - destruct n; [reflexivity|]. cbn. f_equal. apply IH. lia.
Qed.

Lemma c_truncate_short (s : string) :
  Z.of_nat (String.length s) < PATH_MAX -> c_truncate PATH_MAX s = s.
Proof. intros H. apply substring_all. lia. Qed.

Lemma c_truncate_long (s : string) :
  PATH_MAX <= Z.of_nat (String.length s) ->
  Z.of_nat (String.length (c_truncate PATH_MAX s)) = PATH_MAX - 1 /\
  c_truncate PATH_MAX s <> s.
Proof.
  intros H. unfold c_truncate.
  assert (L : String.length (substring 0 (Z.to_nat (PATH_MAX - 1)) s)
              = Z.to_nat (PATH_MAX - 1)).
  { apply substring_length. unfold PATH_MAX in *. lia. }
  split.
  - rewrite L. unfold PATH_MAX. lia.
  - intros E. rewrite E in L. unfold PATH_MAX in *. lia.
Qed.

(** ** Release of the watches *)

Lemma flat_map_singleton {A B} (f : A -> B) (l : list A) :
  flat_map (fun x => [f x]) l = map f l.
Proof. induction l; cbn; congruence. Qed.

Lemma freed_app (t1 t2 : list effect) : freed (t1 ++ t2) = freed t1 ++ freed t2.
Proof. apply flat_map_app. Qed.

Lemma free_requests_app (t1 t2 : list effect) :
  free_requests (t1 ++ t2) = free_requests t1 ++ free_requests t2.
Proof. apply flat_map_app. Qed.

Lemma double_frees_app (t1 t2 : list effect) :
  double_frees (t1 ++ t2) = double_frees t1 ++ double_frees t2.
Proof. apply flat_map_app. Qed.

Lemma set_trace_twice (t1 t2 : list effect) (w : world) :
  set_trace t2 (set_trace t1 w) = set_trace t2 w.
Proof. reflexivity. Qed.

Lemma free_emits (ptr : pointer) (w : world) :
  free ptr w = (tt, set_trace (trace w ++ [free_effect (trace w) ptr]) w).
Proof.
  unfold free, free_effect, bind, get. destruct ptr as [|slot s]; [reflexivity|].
  destruct (existsb (Nat.eqb slot) (freed (trace w))); reflexivity.
Qed.

(** The frees of [cleanup] look at what was freed before it started: the
    blocks of different slots are different blocks. *)
Lemma free_patterns_emits (t0 : list effect) (cbs : list callback_info) :
  forall (i : nat) (w : world),
    (forall j, (i <= j)%nat ->
       existsb (Nat.eqb j) (freed (trace w)) = existsb (Nat.eqb j) (freed t0)) ->
    free_patterns i cbs w
    = (tt, set_trace
             (trace w ++
              imap (fun j cb => free_effect t0 (pattern_pointer (i + j) cb)) cbs)
             w).
Proof.
  induction cbs as [|cb cbs IH]; intros i w Hw.
  - cbn. rewrite app_nil_r, set_trace_id. reflexivity.
  - cbn [free_patterns]. unfold bind at 1. rewrite free_emits.
    assert (He : free_effect (trace w) (pattern_pointer i cb)
                 = free_effect t0 (pattern_pointer i cb)).
    { unfold free_effect, pattern_pointer. destruct (pattern cb); [|reflexivity].
      rewrite (Hw i) by lia. reflexivity. }
    rewrite He, IH.
    + cbn [trace set_trace imap]. rewrite set_trace_twice, <- app_assoc.
      cbn [app]. rewrite Nat.add_0_r. do 4 f_equal.
      apply imap_ext. intros j x _. cbn. rewrite Nat.add_succ_r. reflexivity.
    + intros j Hj. cbn [trace set_trace]. rewrite freed_app, existsb_app.
      rewrite (Hw j) by lia.
      assert (Hn : existsb (Nat.eqb j)
                     (freed [free_effect t0 (pattern_pointer i cb)]) = false).
      { unfold free_effect, pattern_pointer.
        destruct (pattern cb); [|reflexivity].
        destruct (existsb (Nat.eqb i) (freed t0)); [reflexivity|].
        cbn. rewrite orb_false_r. apply Nat.eqb_neq. lia. }
      rewrite Hn. apply orb_false_r.
Qed.

Lemma cleanup_emits (w : world) :
  cleanup w = (tt, set_trace (trace w ++ cleanup_effects w) w).
Proof.
  unfold cleanup, cleanup_effects, bind, get.
  rewrite (for_each_emits (fun _ e => [Sys_inotify_rm_watch (fd w) (wd e)]))
    by reflexivity.
  rewrite flat_map_singleton.
  assert (Hrm : forall l,
    freed (map (fun e => Sys_inotify_rm_watch (fd w) (wd e)) l) = []).
  { induction l as [|e l IH]; [reflexivity | exact IH]. }
  unfold when, close, emit, modify, ret.
  destruct (fd w >=? 0); cbn [fd live_callbacks callbacks callback_count set_trace];
    rewrite (free_patterns_emits (trace w));
    try (cbn [trace set_trace]; rewrite set_trace_twice, <- ?app_assoc;
         reflexivity);
    intros j _; cbn [trace set_trace]; rewrite ?freed_app, Hrm, ?app_nil_r;
    reflexivity.
Qed.

Lemma rm_watch_requests_cleanup (w : world) :
  rm_watch_requests (cleanup_effects w) = live_handles w.
Proof.
  unfold cleanup_effects, live_handles.
  rewrite !rm_watch_requests_app.
  assert (H1 : forall l, rm_watch_requests
                 (map (fun e => Sys_inotify_rm_watch (fd w) (wd e)) l)
               = map wd l).
  { induction l as [|e l IH]; [reflexivity|]. cbn. f_equal. exact IH. }
  assert (H2 : forall (f : nat -> callback_info -> pointer) l,
             rm_watch_requests
               (imap (fun i cb => free_effect (trace w) (f i cb)) l) = []).
  { intros f l. revert f. induction l as [|e l IH]; intros f; [reflexivity|].
    cbn [imap]. change (?x :: ?l') with ([x] ++ l').
    rewrite rm_watch_requests_app.
    change (imap ((fun i cb => free_effect (trace w) (f i cb)) ∘ S) l)
      with (imap (fun i cb => free_effect (trace w) (f (S i) cb)) l).
    rewrite (IH (fun i => f (S i))).
    unfold free_effect. destruct (f 0%nat e) as [|slot q]; [reflexivity|].
    destruct (existsb (Nat.eqb slot) (freed (trace w))); reflexivity. }
  rewrite H1, (H2 pattern_pointer).
  destruct (fd w >=? 0); cbn; rewrite app_nil_r; reflexivity.
Qed.






(** ** The registry invariant *)

(** C4, as amended.  Start from the initial globals with any inotify
    descriptor and run any sequence of installs, recursive installs, event
    records and releases.  In the world reached, the descriptors of the
    live slots are, in order, the descriptors the kernel handed out; every
    one of them resolves to a path; and the table adds no duplicate of its
    own: the live descriptors are pairwise distinct exactly when the
    kernel never handed out the same descriptor twice.  The table itself
    never compares a new descriptor with the stored ones. *)
Theorem live_handles_are_the_issued_ones
    (fnmatch : string -> string -> Z -> Z) (init_fd daemon recursive : Z)
    (pats : list string) (replies : list Z) (ops : list op) :
  let w := exec (run_ops fnmatch ops)
             (set_fd init_fd (initial_world daemon recursive pats replies)) in
  well_formed w /\
  live_handles w = issued (trace w) /\
  (forall h, In h (issued (trace w)) -> exists q, get_path_by_wd w h = Some q) /\
  (List.NoDup (live_handles w) <-> List.NoDup (issued (trace w))).
Proof.
  intros w.
  assert (H0 : well_formed
                 (set_fd init_fd (initial_world daemon recursive pats replies))).
  { destruct (initial_world_well_formed daemon recursive pats replies).
    split; assumption. }
  destruct (registry_run_ops fnmatch ops _ H0) as [Hw [_ _ _ _ _ _ _ Hx]].
  fold (exec (run_ops fnmatch ops)
          (set_fd init_fd (initial_world daemon recursive pats replies))) in Hw, Hx.
  fold w in Hw, Hx. destruct Hx as (added & Hl & Hi & _).
  assert (E : live_handles w = issued (trace w)).
  { unfold live_handles. rewrite Hl, Hi. reflexivity. }
  split; [assumption|]. split; [assumption|]. split.
  - intros h Hh. rewrite <- E in Hh. apply find_wd_some. exact Hh.
  - rewrite E. tauto.
Qed.

(** C4, the claim as stated fails.  A directory created between the
    initial install and the start-up walk is installed by the walk and
    once more when its creation record is processed; the kernel answers
    the second request with the same descriptor, and the table holds it
    twice.  The same happens to the root at every recursive start. *)
Lemma same_directory_twice_shares_a_handle :
  live_handles queued_creation_world = [1; 2; 2] /\
  ~ List.NoDup (live_handles queued_creation_world) /\
  live_handles rewatched_root_world = [1; 1] /\
  ~ List.NoDup (live_handles rewatched_root_world).
Proof.
  assert (E1 : live_handles queued_creation_world = [1; 2; 2])
    by (vm_compute; reflexivity).
  assert (E2 : live_handles rewatched_root_world = [1; 1])
    by (vm_compute; reflexivity).
  split; [exact E1|]. split; [|split; [exact E2|]].
  - rewrite E1. intros H.
    apply NoDup_cons_iff in H. destruct H as [_ H].
    apply NoDup_cons_iff in H. destruct H as [H _]. apply H. left. reflexivity.
  - rewrite E2. intros H.
    apply NoDup_cons_iff in H. destruct H as [H _]. apply H. left. reflexivity.
Qed.

(** ** Resolution of a handle *)

Lemma add_watch_resolves (w : world) (p : string) :
  well_formed w ->
  0 <= eval (add_watch p) w ->
  live_watches (exec (add_watch p) w)
    = live_watches w ++
      [{| wd := eval (add_watch p) w; path := c_truncate PATH_MAX p |}] /\
  get_path_by_wd (exec (add_watch p) w) (eval (add_watch p) w)
    = match find_wd (eval (add_watch p) w) (live_watches w) with
      | Some q => Some q
      | None => Some (c_truncate PATH_MAX p)
      end.
Proof.
  intros Hw Hr.
  destruct (add_watch_spec p w Hw) as [_ _ _ _ _ _ _ _ _ _ Hout].
  fold (eval (add_watch p) w) in Hout. fold (exec (add_watch p) w) in Hout.
  destruct Hout as [(Hneg & _) | (_ & _ & _ & _ & _ & Hl & _)]; [lia|].
  split; [exact Hl|].
  unfold get_path_by_wd. rewrite Hl, find_wd_app. cbn.
  rewrite Z.eqb_refl. reflexivity.
Qed.

(** A handle is only ever returned as the kernel's answer. *)
Lemma add_watch_returns_the_reply (w : world) (p : string) :
  well_formed w ->
  0 <= eval (add_watch p) w ->
  eval (add_watch p) w = next_reply w /\ watch_count w < MAX_WATCHES.
Proof.
  intros Hw Hr.
  destruct (add_watch_spec p w Hw) as [_ _ _ _ _ _ _ _ _ _ Hout].
  fold (eval (add_watch p) w) in Hout.
  destruct Hout as [(Hneg & _) | (_ & He & Hc & _)]; [lia|].
  split; assumption.
Qed.

(** C8, as amended.  In a well-formed world, with the answer Linux gives,
    when [add_watch p] returns a handle that no live slot already carries,
    [get_path_by_wd] of the handle is exactly [p], whatever [p] is; when a
    live slot already carries the handle, [get_path_by_wd] of it is what
    it was before the install, the path of the first slot that carries
    it.  [get_path_by_wd] is [NULL] exactly for the handles that no live
    slot carries.  The table has no operation that takes a slot out: after
    [cleanup] every handle resolves as before. *)
Theorem resolve_after_install (w : world) (p : string) :
  well_formed w ->
  linux_reply p (next_reply w) ->
  (0 <= eval (add_watch p) w ->
   (~ In (eval (add_watch p) w) (live_handles w) ->
    get_path_by_wd (exec (add_watch p) w) (eval (add_watch p) w) = Some p) /\
   (In (eval (add_watch p) w) (live_handles w) ->
    get_path_by_wd (exec (add_watch p) w) (eval (add_watch p) w)
    = get_path_by_wd w (eval (add_watch p) w) /\
    exists q, get_path_by_wd w (eval (add_watch p) w) = Some q)) /\
  (forall h, get_path_by_wd w h = None <-> ~ In h (live_handles w)) /\
  (forall h, get_path_by_wd (exec cleanup w) h = get_path_by_wd w h).
Proof.
  intros Hw Hlinux. split; [|split].
  - intros Hr.
    destruct (add_watch_resolves w p Hw Hr) as [_ Hg].
    destruct (add_watch_returns_the_reply w p Hw Hr) as [He _].
    assert (Hlen : Z.of_nat (String.length p) < PATH_MAX)
      by (apply Hlinux; rewrite <- He; exact Hr).
    split.
    + intros Hfresh. rewrite Hg.
      apply find_wd_none in Hfresh. rewrite Hfresh.
      rewrite c_truncate_short by assumption. reflexivity.
    + intros Hlive. rewrite Hg. unfold get_path_by_wd.
      destruct (find_wd (eval (add_watch p) w) (live_watches w)) as [q|] eqn:E.
      * split; [reflexivity | exists q; reflexivity].
      * exfalso. apply (proj1 (find_wd_none _ _) E). exact Hlive.
  - intros h. apply find_wd_none.
  - intros h. unfold exec. rewrite cleanup_emits. reflexivity.
Qed.

Lemma resolve_after_install_witness :
  get_path_by_wd
    (exec (add_watch "/tmp/w") (set_fd 3 (initial_world 0 0 [] [1]))) 1
  = Some "/tmp/w".
Proof.
  pose (w := set_fd 3 (initial_world 0 0 [] [1])).
  assert (Hw : well_formed w) by concrete_well_formed.
  assert (Hlinux : linux_reply "/tmp/w" (next_reply w))
    by (intros _; reflexivity).
  assert (Hr : 0 <= eval (add_watch "/tmp/w") w) by (vm_compute; discriminate).
  assert (Hfresh : ~ In (eval (add_watch "/tmp/w") w) (live_handles w))
    by (vm_compute; tauto).
  exact (proj1 (proj1 (resolve_after_install w "/tmp/w" Hw Hlinux) Hr) Hfresh).
Defined.

(** C8, the claim as stated fails in two ways: a second install of the
    same directory under another spelling, which the kernel answers with
    the handle it already gave, resolves to the path of the earlier slot
    and not to its own; and after [cleanup] has asked for the removal of
    handle 1, the handle still resolves. *)
Lemma resolve_after_install_fails :
  eval (add_watch "/tmp/w/") (exec (add_watch "/tmp/w")
                                (set_fd 3 (initial_world 0 0 [] [1; 1]))) = 1 /\
  get_path_by_wd
    (exec (add_watch "/tmp/w/") (exec (add_watch "/tmp/w")
                                   (set_fd 3 (initial_world 0 0 [] [1; 1])))) 1
    = Some "/tmp/w" /\
  get_path_by_wd
    (exec (add_watch "/tmp/w/") (exec (add_watch "/tmp/w")
                                   (set_fd 3 (initial_world 0 0 [] [1; 1])))) 1
    <> Some "/tmp/w/" /\
  In 1 (rm_watch_requests (trace (exec cleanup two_watch_world))) /\
  get_path_by_wd (exec cleanup two_watch_world) 1 = Some "/tmp/a" /\
  get_path_by_wd (exec cleanup two_watch_world) 1 <> None.
Proof.
  split; [vm_compute; reflexivity|].
  split; [vm_compute; reflexivity|].
  split; [vm_compute; discriminate|].
  split; [vm_compute; left; reflexivity|].
  split; [vm_compute; reflexivity | vm_compute; discriminate].
Qed.




(** ** The recursive installer *)

Lemma fs_tree_nested_ind (P : fs_tree -> Prop) :
  (forall name typeflag children,
     Forall P children -> P (Entry name typeflag children)) ->
  forall t, P t.
Proof.
  intros H. fix IH 1. intros [name typeflag children]. apply H.
  induction children as [|c children IHc]; constructor; [apply IH | exact IHc].
Qed.

Lemma dir_visits_app (l1 l2 : list (string * Z * Z)) :
  dir_visits (l1 ++ l2) = dir_visits l1 ++ dir_visits l2.
Proof. unfold dir_visits. rewrite List.filter_app, map_app. reflexivity. Qed.

(** A walk started at a non-negative level reports each directory it
    reaches in a visit that [ftw_callback] installs. *)
Lemma dir_visits_count (t : fs_tree) :
  forall (level : Z) (p : string),
    0 <= level ->
    length (dir_visits (nftw_visits level p t)) = count_dirs t.
Proof.
  induction t as [name typeflag children IH] using fs_tree_nested_ind.
  intros level p Hl. cbn [nftw_visits count_dirs].
  destruct (typeflag =? FTW_D) eqn:E.
  - unfold dir_visits at 1. cbn [List.filter watched_visit]. rewrite E.
    assert (Hge : (level >=? 0) = true) by lia. rewrite Hge.
    cbn [andb map length]. f_equal.
    fold (dir_visits
            (flat_map (fun c => match c with
                                | Entry name0 _ _ =>
                                    nftw_visits (level + 1) (entry_path p name0) c
                                end) children)).
    induction IH as [|c children Hc _ IHch]; [reflexivity|].
    cbn [flat_map map list_sum]. rewrite dir_visits_app, length_app, IHch.
    destruct c as [cname ctf cch]. rewrite Hc by lia. reflexivity.
  - unfold dir_visits. cbn. rewrite E. reflexivity.
Qed.

Lemma ftw_callback_unfold (p : string) (typeflag level : Z) (w : world) :
  ftw_callback p typeflag level w
  = (0, if watched_visit (p, typeflag, level)
        then exec (add_watch p) w else w).
Proof.
  unfold ftw_callback, watched_visit, bind, exec, ret.
  destruct ((typeflag =? FTW_D) && (level >=? 0)); [|reflexivity].
  destruct (add_watch p w); reflexivity.
Qed.

(** Below capacity [add_watch] always asks the kernel, whatever the
    answer, and takes at most one slot. *)
Lemma add_watch_asks (p : string) (w : world) :
  watch_count w < MAX_WATCHES ->
  add_watch_requests (trace (exec (add_watch p) w))
    = add_watch_requests (trace w) ++ [p] /\
  watch_count (exec (add_watch p) w) <= watch_count w + 1.
Proof.
  intros Hlt. unfold exec.
  destruct (Z_lt_ge_dec (next_reply w) 0) as [Hneg|Hpos].
  - rewrite add_watch_refused by assumption. cbn.
    rewrite add_watch_requests_app. cbn.
    split; [|lia]. destruct (truthy (daemon_mode w)); reflexivity.
  - rewrite add_watch_ok by lia. cbn.
    rewrite add_watch_requests_app. cbn.
    split; [|lia]. destruct (truthy (daemon_mode w)); reflexivity.
Qed.

Lemma nftw_run_ftw_callback (visits : list (string * Z * Z)) :
  forall w,
    watch_count w + Z.of_nat (length (dir_visits visits)) <= MAX_WATCHES ->
    eval (nftw_run ftw_callback visits) w = 0 /\
    add_watch_requests (trace (exec (nftw_run ftw_callback visits) w))
      = add_watch_requests (trace w) ++ dir_visits visits.
Proof.
  induction visits as [|[[p typeflag] level] visits IH]; intros w Hcap.
  - cbn. rewrite app_nil_r. split; reflexivity.
  - cbn [nftw_run]. unfold eval, exec, bind.
    rewrite ftw_callback_unfold. cbn [Z.eqb].
    fold (eval (nftw_run ftw_callback visits)
            (if watched_visit (p, typeflag, level)
             then exec (add_watch p) w else w)).
    fold (exec (nftw_run ftw_callback visits)
            (if watched_visit (p, typeflag, level)
             then exec (add_watch p) w else w)).
    unfold dir_visits in Hcap |- *. cbn [List.filter] in Hcap |- *.
    destruct (watched_visit (p, typeflag, level)).
    + cbn [map length fst] in Hcap |- *.
      destruct (add_watch_asks p w) as [Hreq Hcount]; [lia|].
      destruct (IH (exec (add_watch p) w)) as [He Hr].
      { unfold dir_visits. lia. }
      split; [exact He|]. rewrite Hr, Hreq, <- app_assoc. reflexivity.
    + apply IH. exact Hcap.
Qed.

(** With room in the table for every directory of the hierarchy, the
    recursive installer asks the kernel for a watch on each directory the
    walk reaches, the start of the walk included, one request per
    directory and in walk order, whatever the kernel answers to any of
    them. *)
Lemma watch_recursively_requests (filesystem : string -> option fs_tree)
    (p : string) (t : fs_tree) (w : world) :
  filesystem p = Some t ->
  watch_count w + Z.of_nat (count_dirs t) <= MAX_WATCHES ->
  add_watch_requests (trace (exec (watch_recursively filesystem p) w))
    = add_watch_requests (trace w)
      ++ dir_visits (nftw_visits 0 (nftw_start p) t) /\
  length (dir_visits (nftw_visits 0 (nftw_start p) t)) = count_dirs t.
Proof.
  intros Hfs Hcap.
  assert (Hn : length (dir_visits (nftw_visits 0 (nftw_start p) t))
               = count_dirs t)
    by (apply dir_visits_count; lia).
  split; [|exact Hn].
  unfold watch_recursively, nftw. rewrite Hfs, exec_bind.
  destruct (nftw_run_ftw_callback (nftw_visits 0 (nftw_start p) t) w)
    as [He Hr];
    [rewrite Hn; exact Hcap|].
  rewrite He. cbn. exact Hr.
Qed.

(** With room in the table and a kernel that grants the next requests,
    each directory visit of the walk takes one slot. *)
Lemma dir_visits_cons (v : string * Z * Z) (visits : list (string * Z * Z)) :
  dir_visits (v :: visits)
  = if watched_visit v then fst (fst v) :: dir_visits visits
    else dir_visits visits.
Proof. unfold dir_visits. cbn. destruct (watched_visit v); reflexivity. Qed.

Lemma nftw_run_installs (visits : list (string * Z * Z)) :
  forall w,
    watch_count w + Z.of_nat (length (dir_visits visits)) <= MAX_WATCHES ->
    (length (dir_visits visits) <= length (kernel w))%nat ->
    Forall (fun r => 0 <= r) (take (length (dir_visits visits)) (kernel w)) ->
    watch_count (exec (nftw_run ftw_callback visits) w)
      = watch_count w + Z.of_nat (length (dir_visits visits)).
Proof.
  induction visits as [|[[p typeflag] level] visits IH]; intros w Hcap Hlen Hok.
  - cbn. lia.
  - cbn [nftw_run]. unfold exec, bind.
    rewrite ftw_callback_unfold. cbn [Z.eqb].
    fold (exec (nftw_run ftw_callback visits)
            (if watched_visit (p, typeflag, level)
             then exec (add_watch p) w else w)).
    rewrite dir_visits_cons in Hcap, Hlen, Hok |- *.
    destruct (watched_visit (p, typeflag, level)); [|apply IH; assumption].
    cbn [length fst] in Hcap, Hlen, Hok |- *.
    destruct (kernel w) as [|r k] eqn:Hk; [cbn in Hlen; lia|].
    cbn [take length] in Hok, Hlen.
    inversion Hok as [|? ? Hr Hrest]; subst.
    assert (Hnext : next_reply w = r)
      by (unfold next_reply; rewrite Hk; reflexivity).
    assert (Hw1 : watch_count (exec (add_watch p) w) = watch_count w + 1
                  /\ kernel (exec (add_watch p) w) = k).
    { unfold exec. rewrite add_watch_ok by lia. cbn. rewrite Hk. split; reflexivity. }
    destruct Hw1 as [Hc1 Hk1].
    rewrite IH; rewrite ?Hc1, ?Hk1; try lia. exact Hrest.
Qed.

(** C2, what the code does.  When the walk starts at a directory and the
    table has room for every directory [nftw] reaches, the recursive
    installer asks the kernel for a watch on the start of the walk itself
    (under the name [nftw] reports it with, the path without its trailing
    slashes), before anything below it, and makes as many requests as the
    hierarchy has directories, [B] and not [B - 1]; with a kernel that
    grants them all, [B] more slots are live afterwards.  The comment on
    the test of [ftw_callback] says the root is left out; its level is 0
    and the test is [level >= 0]. *)
Theorem recursive_install_rewatches_the_root
    (filesystem : string -> option fs_tree) (p name : string)
    (children : list fs_tree) (w : world) :
  filesystem p = Some (Entry name FTW_D children) ->
  watch_count w + Z.of_nat (count_dirs (Entry name FTW_D children))
    <= MAX_WATCHES ->
  (exists below,
     add_watch_requests (trace (exec (watch_recursively filesystem p) w))
       = add_watch_requests (trace w) ++ nftw_start p :: below /\
     length (nftw_start p :: below) = count_dirs (Entry name FTW_D children)) /\
  ((count_dirs (Entry name FTW_D children) <= length (kernel w))%nat ->
   Forall (fun r => 0 <= r)
     (take (count_dirs (Entry name FTW_D children)) (kernel w)) ->
   watch_count (exec (watch_recursively filesystem p) w)
     = watch_count w + Z.of_nat (count_dirs (Entry name FTW_D children))).
Proof.
  intros Hfs Hcap.
  destruct (watch_recursively_requests filesystem p _ w Hfs Hcap) as [Hreq Hn].
  split.
  - revert Hreq Hn. cbn [nftw_visits]. rewrite Z.eqb_refl.
    unfold dir_visits at 1 2. cbn [List.filter watched_visit].
    rewrite Z.eqb_refl. cbn [andb Z.geb Z.compare map fst].
    intros Hreq Hn. eexists. split; [exact Hreq | exact Hn].
  - intros Hlen Hok. rewrite <- Hn in Hcap, Hlen, Hok |- *.
    unfold watch_recursively, nftw. rewrite Hfs, exec_bind.
    destruct (nftw_run_ftw_callback
                (nftw_visits 0 (nftw_start p) (Entry name FTW_D children)) w
                Hcap) as [He _].
    rewrite He. cbn [Z.eqb exec_ret]. unfold exec at 1. cbn [ret snd].
    apply nftw_run_installs; assumption.
Qed.

(** On a directory without subdirectories ([B] is 1), after the initial
    install of [main], the recursive installer asks for the directory once
    more and a second slot becomes live. *)
Lemma recursive_install_rewatches_the_root_witness :
  add_watch_requests
    (trace (exec (watch_recursively lone_directory "/tmp/w")
              (exec (add_watch "/tmp/w")
                 (set_fd 3 (initial_world 0 1 [] [1; 1])))))
    = ["/tmp/w"; "/tmp/w"]%string /\
  watch_count
    (exec (watch_recursively lone_directory "/tmp/w")
       (exec (add_watch "/tmp/w") (set_fd 3 (initial_world 0 1 [] [1; 1])))) = 2 /\
  live_watches
    (exec (watch_recursively lone_directory "/tmp/w")
       (exec (add_watch "/tmp/w") (set_fd 3 (initial_world 0 1 [] [1; 1]))))
    = [{| wd := 1; path := "/tmp/w" |}; {| wd := 1; path := "/tmp/w" |}].
Proof.
  pose (w := exec (add_watch "/tmp/w") (set_fd 3 (initial_world 0 1 [] [1; 1]))).
  assert (Hfs : lone_directory "/tmp/w" = Some (Entry "w" FTW_D [])) by reflexivity.
  assert (Hcap : watch_count w + Z.of_nat (count_dirs (Entry "w" FTW_D []))
                 <= MAX_WATCHES) by (vm_compute; discriminate).
  destruct (recursive_install_rewatches_the_root lone_directory "/tmp/w" "w" [] w
              Hfs Hcap) as [(below & Hreq & Hn) Hcount].
  split; [|split].
  - destruct below as [|b below]; [exact Hreq | cbn in Hn; discriminate Hn].
  - apply Hcount.
    + vm_compute. apply le_n.
    + vm_compute. constructor; [discriminate | constructor].
  - vm_compute. reflexivity.
Defined.

(** On a hierarchy of four directories the walk makes four requests, the
    first for the root; the refusal of [/tmp/w/a] stops neither its
    descendant nor its sibling. *)
Example recursive_install_small_tree :
  count_dirs small_tree = 4%nat /\
  add_watch_requests
    (trace (exec (watch_recursively (fun _ => Some small_tree) "/tmp/w")
              (set_fd 3 (initial_world 0 1 [] [1; -1; 2; 3]))))
    = ["/tmp/w"; "/tmp/w/a"; "/tmp/w/a/b"; "/tmp/w/c"]%string /\
  live_watches
    (exec (watch_recursively (fun _ => Some small_tree) "/tmp/w")
       (set_fd 3 (initial_world 0 1 [] [1; -1; 2; 3])))
    = [{| wd := 1; path := "/tmp/w" |}; {| wd := 2; path := "/tmp/w/a/b" |};
       {| wd := 3; path := "/tmp/w/c" |}].
Proof. repeat split; vm_compute; reflexivity. Qed.

(** ** Pattern filter and automatic watch *)

(** C1, what the code does.  A record that has a name and resolves but
    matches none of the patterns leaves the world as it was, whatever the
    mode and the mask: [process_event], and with it the automatic watch of
    a created directory in recursive mode, is not run, and the kernel is
    asked nothing. *)
Theorem unmatched_directory_is_not_watched
    (fnmatch : string -> string -> Z -> Z) (event : inotify_event) (w : world)
    (p : string) :
  get_path_by_wd w (ev_wd event) = Some p ->
  matches_pattern fnmatch w (ev_name event) = 0 ->
  main_event fnmatch event w = (tt, w) /\
  add_watch_requests (trace (exec (main_event fnmatch event) w))
    = add_watch_requests (trace w) /\
  live_watches (exec (main_event fnmatch event) w) = live_watches w.
Proof.
  intros Hp Hm.
  assert (E : main_event fnmatch event w = (tt, w)).
  { unfold main_event, when, bind, get.
    destruct (truthy (ev_len event)); [|reflexivity].
    rewrite Hp, Hm. reflexivity. }
  unfold exec. rewrite E. repeat split.
Qed.

(** In recursive mode with the pattern [*.log], the record of the creation
    of the directory [sub] in the watched [/tmp/w] has a name, resolves,
    does not match, and leaves the world untouched: no watch is asked for
    [/tmp/w/sub]. *)
Lemma unmatched_directory_is_not_watched_witness :
  truthy (recursive_mode recursive_log_world) = true /\
  truthy (ev_len mkdir_sub) = true /\
  truthy (Z.land (ev_mask mkdir_sub) IN_CREATE) = true /\
  truthy (Z.land (ev_mask mkdir_sub) IN_ISDIR) = true /\
  main_event Glob.fnmatch mkdir_sub recursive_log_world
    = (tt, recursive_log_world).
Proof.
  assert (Hp : get_path_by_wd recursive_log_world (ev_wd mkdir_sub)
               = Some "/tmp/w"%string) by (vm_compute; reflexivity).
  assert (Hm : matches_pattern Glob.fnmatch recursive_log_world
                 (ev_name mkdir_sub) = 0) by (vm_compute; reflexivity).
  split; [vm_compute; reflexivity|].
  split; [vm_compute; reflexivity|].
  split; [vm_compute; reflexivity|].
  split; [vm_compute; reflexivity|].
  exact (proj1 (unmatched_directory_is_not_watched Glob.fnmatch mkdir_sub
                  recursive_log_world "/tmp/w" Hp Hm)).
Defined.

(** The same record for a directory called [sub.log] does get its watch. *)
Example matching_directory_is_watched :
  add_watch_requests
    (trace (exec (main_event Glob.fnmatch mkdir_sub_log) recursive_log_world))
    = add_watch_requests (trace recursive_log_world) ++ ["/tmp/w/sub.log"%string].
Proof. vm_compute. reflexivity. Qed.

(** *** Steps that ask the kernel nothing *)

#[local] Instance same_requests_frame : Frame same_requests.
Proof.
  split.
  - intros w. reflexivity.
  - intros w1 w2 w3 H12 H23. unfold same_requests in *. congruence.
Qed.

Lemma same_requests_emit (e : effect) :
  add_watch_requests [e] = [] -> respects same_requests (emit e).
Proof.
  intros He w. unfold same_requests. cbn.
  rewrite add_watch_requests_app, He. apply app_nil_r.
Qed.

Ltac same_requests_steps :=
  respects_steps ltac:(idtac; apply same_requests_emit; reflexivity).

Lemma same_requests_call (cb : event_callback) (p f : string) :
  respects same_requests (call cb p f).
Proof. unfold call, printf. same_requests_steps. Qed.

(** The automatic watch of [process_event]: in recursive mode, for a
    created directory and with room in the table, the one request made is
    for the parent path, a slash and the name, cut to the size of the path
    buffer. *)
Lemma process_event_auto_watch (fnmatch : string -> string -> Z -> Z)
    (event_mask : Z) (p f : string) (w : world) :
  truthy (recursive_mode w) = true ->
  truthy (Z.land event_mask IN_CREATE) = true ->
  truthy (Z.land event_mask IN_ISDIR) = true ->
  watch_count w < MAX_WATCHES ->
  add_watch_requests (trace (exec (process_event fnmatch event_mask p f) w))
  = add_watch_requests (trace w) ++ [c_truncate PATH_MAX (p ++ "/" ++ f)%string].
Proof.
  intros Hr Hc Hd Hcap. unfold process_event. autorewrite with run.
  rewrite Hr, Hc, Hd. cbn [andb when]. autorewrite with run.
  destruct (add_watch_asks (c_truncate PATH_MAX (p ++ "/" ++ f)%string) w Hcap)
    as [Hreq _].
  rewrite <- Hreq.
  match goal with
  | |- add_watch_requests
         (trace (exec ?loop (exec ?logs (exec ?note ?w1)))) = _ =>
      assert (H1 : respects same_requests note)
        by (unfold syslog, printf; same_requests_steps);
      assert (H2 : respects same_requests logs)
        by (unfold syslog; same_requests_steps);
      assert (H3 : respects same_requests loop)
        by (same_requests_steps; apply same_requests_call);
      exact (frame_trans _ _ _
               (frame_trans _ _ _ (H1 w1) (H2 (exec note w1)))
               (H3 (exec logs (exec note w1))))
  end.
Qed.

(** X27.  When the name matches, the record of a created directory gets
    its watch in recursive mode: below capacity the kernel is asked once,
    for the truncated path of the new directory. *)
Lemma matched_directory_gets_its_watch (fnmatch : string -> string -> Z -> Z)
    (event : inotify_event) (w : world) (p : string) :
  truthy (ev_len event) = true ->
  get_path_by_wd w (ev_wd event) = Some p ->
  truthy (matches_pattern fnmatch w (ev_name event)) = true ->
  truthy (recursive_mode w) = true ->
  truthy (Z.land (ev_mask event) IN_CREATE) = true ->
  truthy (Z.land (ev_mask event) IN_ISDIR) = true ->
  watch_count w < MAX_WATCHES ->
  add_watch_requests (trace (exec (main_event fnmatch event) w))
  = add_watch_requests (trace w) ++
    [c_truncate PATH_MAX (p ++ "/" ++ ev_name event)%string].
Proof.
  intros Hlen Hp Hm Hr Hc Hd Hcap. unfold main_event.
  rewrite Hlen. cbn [when]. autorewrite with run. rewrite Hp, Hm.
  cbn [when]. autorewrite with run.
  rewrite <- (process_event_auto_watch fnmatch (ev_mask event) p
                (ev_name event) w Hr Hc Hd Hcap).
  match goal with
  | |- add_watch_requests (trace (exec ?echo ?w1)) = _ =>
      assert (H1 : respects same_requests echo)
        by (unfold printf; same_requests_steps);
      exact (H1 w1)
  end.
Qed.

(** ** The glob matcher and the scenario of the specification *)

Example glob_star_log : Glob.fnmatch "*.log" "app.log" 0 = 0.
Proof. reflexivity. Qed.

Example glob_star_log_txt : Glob.fnmatch "*.log" "app.txt" 0 = 1.
Proof. reflexivity. Qed.

Example glob_whole_string : Glob.fnmatch "app" "app.log" 0 = 1.
Proof. reflexivity. Qed.

Example glob_question :
  Glob.fnmatch "a?c" "abc" 0 = 0 /\ Glob.fnmatch "a?c" "ac" 0 = 1.
Proof. split; reflexivity. Qed.

Example glob_class :
  Glob.fnmatch "[a-c]x" "bx" 0 = 0 /\ Glob.fnmatch "[a-c]x" "dx" 0 = 1 /\
  Glob.fnmatch "[!a-c]x" "dx" 0 = 0 /\ Glob.fnmatch "[]]" "]" 0 = 0.
Proof. repeat split; reflexivity. Qed.

Example glob_star_spans_slash_and_dot : Glob.fnmatch "*" ".hidden/x" 0 = 0.
Proof. reflexivity. Qed.

Lemma glob_star_matches_all (s : list ascii) :
  Glob.matches [Glob.Star] s = true.
Proof. induction s as [|c s IH]; [reflexivity | exact IH]. Qed.

Lemma glob_literal_matches_itself (s : list ascii) :
  Glob.matches (map Glob.Lit s) s = true.
Proof.
  induction s as [|c s IH]; cbn; [reflexivity|].
  rewrite Ascii.eqb_refl. exact IH.
Qed.

(** Root [/tmp/w], pattern [*.log]: the creation of [app.log] is
    dispatched once, to the creation handler; the creation of [app.txt] is
    not dispatched. *)
Example scenario_log_pattern :
  handler_calls
    (trace (exec (main_event Glob.fnmatch (create_file "app.log")) log_world))
    = [(on_file_created, "/tmp/w", "app.log")]%string /\
  main_event Glob.fnmatch (create_file "app.txt") log_world = (tt, log_world).
Proof. split; vm_compute; reflexivity. Qed.

(** * Further properties of the code *)

(** ** Steps that only write to the trace *)

#[local] Instance appends_quietly_frame : Frame appends_quietly.
Proof.
  split.
  - intros w. exists []. split; [symmetry; apply set_trace_nil | reflexivity].
  - intros w1 w2 w3 (es1 & E1 & Q1) (es2 & E2 & Q2).
    exists (es1 ++ es2). split.
    + rewrite E2, E1. cbn. rewrite <- app_assoc. reflexivity.
    + rewrite add_watch_requests_app, Q1, Q2. reflexivity.
Qed.

Lemma appends_quietly_emit (e : effect) :
  add_watch_requests [e] = [] -> respects appends_quietly (emit e).
Proof. intros He w. exists [e]. split; [reflexivity | exact He]. Qed.

Ltac appends_steps :=
  respects_steps ltac:(idtac; apply appends_quietly_emit; reflexivity).

Lemma appends_quietly_call (cb : event_callback) (p f : string) :
  respects appends_quietly (call cb p f).
Proof. unfold call, printf. appends_steps. Qed.

(** ** Refused installs *)

(** X1.  Below capacity, when the kernel refuses the request, [add_watch]
    returns -1 after one request and the "failed to add watch" diagnostic;
    no slot is taken: the count and every slot of the table are as
    before, and every handle resolves as before. *)
Theorem refused_install_takes_no_slot (w : world) (p : string) :
  watch_count w < MAX_WATCHES ->
  next_reply w < 0 ->
  eval (add_watch p) w = -1 /\
  trace (exec (add_watch p) w)
    = trace w ++ [Sys_inotify_add_watch (fd w) p all_watch_events (next_reply w);
                  refusal_diagnostic (daemon_mode w) p] /\
  watch_count (exec (add_watch p) w) = watch_count w /\
  watches (exec (add_watch p) w) = watches w /\
  kernel (exec (add_watch p) w) = tail (kernel w) /\
  (forall h, get_path_by_wd (exec (add_watch p) w) h = get_path_by_wd w h).
Proof.
  intros Hcap Hneg. unfold eval, exec.
  rewrite add_watch_refused by assumption. cbn.
  split; [reflexivity|]. split.
  - unfold refusal_diagnostic. destruct (truthy (daemon_mode w)); reflexivity.
  - repeat split.
Qed.

Lemma refused_install_takes_no_slot_witness :
  eval (add_watch "/nonexistent")
    (exec (add_watch "/tmp/w") (set_fd 3 (initial_world 0 0 [] [1; -1]))) = -1 /\
  watch_count
    (exec (add_watch "/nonexistent")
       (exec (add_watch "/tmp/w") (set_fd 3 (initial_world 0 0 [] [1; -1])))) = 1.
Proof.
  pose (w := exec (add_watch "/tmp/w") (set_fd 3 (initial_world 0 0 [] [1; -1]))).
  assert (Hcap : watch_count w < MAX_WATCHES) by (vm_compute; reflexivity).
  assert (Hneg : next_reply w < 0) by (vm_compute; reflexivity).
  destruct (refused_install_takes_no_slot w "/nonexistent" Hcap Hneg)
    as (He & _ & Hc & _).
  split; [exact He|]. refine (eq_trans Hc _). vm_compute. reflexivity.
Defined.

(** ** Lookup *)

Lemma find_wd_first (h : Z) (q : string) (l : list watch_info) :
  find_wd h l = Some q <->
  exists i e,
    l !! i = Some e /\ wd e = h /\ path e = q /\
    forall j e', (j < i)%nat -> l !! j = Some e' -> wd e' <> h.
Proof.
  induction l as [|x l IH]; cbn.
  - split; [discriminate | intros (i & e & H & _); destruct i; discriminate H].
  - destruct (Z.eqb_spec (wd x) h) as [E|E].
    + split.
      * intros H. injection H as H. exists 0%nat, x.
        repeat split; try assumption. intros j e' Hj. lia.
      * intros (i & e & Hi & Hw & Hp & Hfirst).
        destruct i as [|i]; [cbn in Hi; injection Hi as <-; congruence|].
        exfalso. apply (Hfirst 0%nat x); [lia | reflexivity | exact E].
    + rewrite IH. split.
      * intros (i & e & Hi & Hw & Hp & Hfirst). exists (S i), e.
        repeat split; try assumption.
        intros j e' Hj Hl. destruct j as [|j].
        -- cbn in Hl. injection Hl as <-. exact E.
        -- apply (Hfirst j e'); [lia | exact Hl].
      * intros (i & e & Hi & Hw & Hp & Hfirst).
        destruct i as [|i]; [cbn in Hi; injection Hi as <-; contradiction|].
        exists i, e. repeat split; try assumption.
        intros j e' Hj Hl. apply (Hfirst (S j) e'); [lia | exact Hl].
Qed.

(** X2.  [get_path_by_wd] is a first-match search of the live part of the
    table: it returns [q] for handle [h] exactly when some slot below
    [watch_count] holds [h] with path [q] and no slot before it holds [h].
    Slots at or above [watch_count] are never looked at, whatever they
    hold. *)
Theorem lookup_is_first_live_match (w : world) (h : Z) (q : string) :
  well_formed w ->
  (get_path_by_wd w h = Some q <->
   exists i e,
     Z.of_nat i < watch_count w /\ watches w !! i = Some e /\
     wd e = h /\ path e = q /\
     forall j e', (j < i)%nat -> watches w !! j = Some e' -> wd e' <> h).
Proof.
  intros [Hw Hc _ _ _]. unfold get_path_by_wd, live_watches.
  rewrite find_wd_first. split.
  - intros (i & e & Hi & Hwd & Hp & Hfirst).
    apply lookup_take_Some in Hi. destruct Hi as [Hi Hlt].
    exists i, e. repeat split; try assumption; [lia|].
    intros j e' Hj Hl. apply (Hfirst j e' Hj).
    apply lookup_take_Some. split; [exact Hl | lia].
  - intros (i & e & Hlt & Hi & Hwd & Hp & Hfirst).
    exists i, e. repeat split; try assumption.
    + apply lookup_take_Some. split; [exact Hi | lia].
    + intros j e' Hj Hl. apply lookup_take_Some in Hl.
      apply (Hfirst j e' Hj). apply Hl.
Qed.

Lemma lookup_is_first_live_match_witness :
  get_path_by_wd two_watch_world 2 = Some "/tmp/b"%string /\
  get_path_by_wd two_watch_world 0 = None.
Proof.
  assert (Hw : well_formed two_watch_world) by concrete_well_formed.
  split.
  - apply (lookup_is_first_live_match two_watch_world 2 "/tmp/b" Hw).
    exists 1%nat, {| wd := 2; path := "/tmp/b" |}.
    repeat split; try (vm_compute; reflexivity).
    intros j e' Hj Hl. assert (j = 0%nat) by lia. subst j.
    vm_compute in Hl. injection Hl as <-. vm_compute. discriminate.
  - destruct (get_path_by_wd two_watch_world 0) as [q|] eqn:E; [|reflexivity].
    apply (lookup_is_first_live_match two_watch_world 0 q Hw) in E.
    destruct E as (i & e & Hlt & Hi & Hwd & _).
    assert (Hc : watch_count two_watch_world = 2) by (vm_compute; reflexivity).
    rewrite Hc in Hlt.
    destruct i as [|[|i]]; [| |lia];
      vm_compute in Hi; injection Hi as <-; vm_compute in Hwd; discriminate Hwd.
Defined.

(** X3.  Once a handle resolves to a path it resolves to that path for
    the rest of the run: no install, recursive install, event record or
    release overwrites or removes a live slot, and a later slot with the
    same handle is never reached by the search. *)
Theorem resolved_handle_stays_resolved
    (fnmatch : string -> string -> Z -> Z) (ops : list op) (w : world)
    (h : Z) (q : string) :
  well_formed w ->
  get_path_by_wd w h = Some q ->
  get_path_by_wd (exec (run_ops fnmatch ops) w) h = Some q.
Proof.
  intros Hw Hq.
  destruct (registry_run_ops fnmatch ops w Hw) as [_ [_ _ _ _ _ _ _ Hx]].
  destruct Hx as (added & Hl & _ & _).
  unfold get_path_by_wd, exec. rewrite Hl, find_wd_app.
  unfold get_path_by_wd in Hq. rewrite Hq. reflexivity.
Qed.

Lemma resolved_handle_stays_resolved_witness :
  get_path_by_wd
    (exec (run_ops Glob.fnmatch
             [Install "/tmp/other"; Event mkdir_sub; RemoveAll])
       (exec (add_watch "/tmp/w") (set_fd 3 (initial_world 0 1 [] [1; 1; 1]))))
    1
  = Some "/tmp/w"%string.
Proof.
  apply (resolved_handle_stays_resolved Glob.fnmatch
           [Install "/tmp/other"; Event mkdir_sub; RemoveAll]
           (exec (add_watch "/tmp/w") (set_fd 3 (initial_world 0 1 [] [1; 1; 1])))
           1 "/tmp/w").
  - concrete_well_formed.
  - vm_compute. reflexivity.
Defined.

(** X4.  Nothing that runs after start-up writes to the configuration: any
    sequence of installs, recursive installs, event records and releases
    leaves the inotify descriptor, both mode flags, the callback table
    with its count and the pattern vector with its count as they were, and
    keeps the watch count within the table. *)
Theorem configuration_is_fixed_after_startup
    (fnmatch : string -> string -> Z -> Z) (ops : list op) (w : world) :
  well_formed w ->
  fd (exec (run_ops fnmatch ops) w) = fd w /\
  daemon_mode (exec (run_ops fnmatch ops) w) = daemon_mode w /\
  recursive_mode (exec (run_ops fnmatch ops) w) = recursive_mode w /\
  callbacks (exec (run_ops fnmatch ops) w) = callbacks w /\
  callback_count (exec (run_ops fnmatch ops) w) = callback_count w /\
  patterns (exec (run_ops fnmatch ops) w) = patterns w /\
  pattern_count (exec (run_ops fnmatch ops) w) = pattern_count w /\
  (forall f, matches_pattern fnmatch (exec (run_ops fnmatch ops) w) f
             = matches_pattern fnmatch w f) /\
  watch_count w <= watch_count (exec (run_ops fnmatch ops) w) <= MAX_WATCHES.
Proof.
  intros Hw.
  destruct (registry_run_ops fnmatch ops w Hw)
    as [Hw' [Hf Hd Hr Hc Hn Hp Hq (added & _ & _ & Hk)]].
  fold (exec (run_ops fnmatch ops) w) in *.
  repeat split; try assumption.
  - intros f. unfold matches_pattern, live_patterns. rewrite Hp, Hq. reflexivity.
  - lia.
  - destruct Hw' as [_ Hb _ _ _]. lia.
Qed.

Lemma configuration_is_fixed_after_startup_witness :
  callback_count
    (exec (run_ops Glob.fnmatch [Event mkdir_sub_log; RemoveAll])
       recursive_log_world) = 3 /\
  patterns
    (exec (run_ops Glob.fnmatch [Event mkdir_sub_log; RemoveAll])
       recursive_log_world) = ["*.log"%string].
Proof.
  assert (Hw : well_formed recursive_log_world) by concrete_well_formed.
  destruct (configuration_is_fixed_after_startup Glob.fnmatch
              [Event mkdir_sub_log; RemoveAll] recursive_log_world Hw)
    as (_ & _ & _ & _ & Hn & Hp & _).
  split.
  - refine (eq_trans Hn _). vm_compute. reflexivity.
  - refine (eq_trans Hp _). vm_compute. reflexivity.
Defined.

(** ** Records of the event loop *)

(** X5.  A named record whose descriptor no live slot carries is dropped
    with one warning, to the system log for a daemon and to standard error
    otherwise: nothing else is written, no pattern is tried, no handler
    runs, the kernel is asked nothing and the table is untouched. *)
Theorem unknown_descriptor_is_warned_and_dropped
    (fnmatch : string -> string -> Z -> Z) (event : inotify_event)
    (w : world) :
  ev_len event <> 0 ->
  get_path_by_wd w (ev_wd event) = None ->
  main_event fnmatch event w
  = (tt, set_trace
           (trace w ++ [unknown_descriptor_warning (daemon_mode w) (ev_wd event)])
           w).
Proof.
  intros Hlen Hnone. unfold main_event, when, bind, get, truthy.
  apply Z.eqb_neq in Hlen. rewrite Hlen. cbn [negb]. rewrite Hnone.
  unfold unknown_descriptor_warning, truthy.
  destruct (daemon_mode w =? 0); reflexivity.
Qed.

Lemma unknown_descriptor_is_warned_and_dropped_witness :
  trace (exec (main_event Glob.fnmatch
                 {| ev_wd := 7; ev_mask := IN_CREATE; ev_cookie := 0;
                    ev_len := 16; ev_name := "app.log" |})
           (set_trace [] log_world))
  = [Fprintf_stderr
       ("Warning: Received event for unknown watch descriptor: %d" ++ nl)%string
       [AInt 7]].
Proof.
  unfold exec.
  rewrite (unknown_descriptor_is_warned_and_dropped Glob.fnmatch
             {| ev_wd := 7; ev_mask := IN_CREATE; ev_cookie := 0;
                ev_len := 16; ev_name := "app.log" |}
             (set_trace [] log_world)).
  - reflexivity.
  - discriminate.
  - vm_compute. reflexivity.
Defined.

(** X6.  In recursive mode, for a created directory, [process_event]
    writes its "added watch for new directory" note whether or not the
    watch was added: with a full table [add_watch] fails with the capacity
    diagnostic, the kernel is asked nothing and no slot changes, and the
    note follows all the same. *)
Theorem added_watch_note_despite_full_table
    (fnmatch : string -> string -> Z -> Z) (event_mask : Z) (p f : string)
    (w : world) :
  truthy (recursive_mode w) = true ->
  truthy (Z.land event_mask IN_CREATE) = true ->
  truthy (Z.land event_mask IN_ISDIR) = true ->
  watch_count w >= MAX_WATCHES ->
  exists rest,
    exec (process_event fnmatch event_mask p f) w
    = set_trace
        (trace w ++
         [capacity_diagnostic (daemon_mode w);
          added_watch_note (daemon_mode w)
            (c_truncate PATH_MAX (p ++ "/" ++ f)%string)] ++ rest) w /\
    add_watch_requests rest = [].
Proof.
  intros Hr Hc Hd Hfull. unfold process_event. autorewrite with run.
  rewrite Hr, Hc, Hd. cbn [andb when]. autorewrite with run.
  set (full_path := c_truncate PATH_MAX (p ++ "/" ++ f)%string).
  assert (E1 : exec (add_watch full_path) w
               = set_trace (trace w ++ [capacity_diagnostic (daemon_mode w)]) w).
  { unfold exec. rewrite add_watch_full by assumption. reflexivity. }
  rewrite E1.
  match goal with
  | |- context [exec ?loop (exec ?logs (exec ?note ?w1))] =>
      assert (E2 : exec note w1
                   = set_trace (trace w ++
                       [capacity_diagnostic (daemon_mode w);
                        added_watch_note (daemon_mode w) full_path]) w)
        by (unfold added_watch_note;
            destruct (truthy (daemon_mode w)); cbn;
            rewrite <- app_assoc; reflexivity);
      rewrite E2
  end.
  match goal with
  | |- context [exec ?loop (exec ?logs ?w2)] =>
      assert (H2 : respects appends_quietly logs)
        by (unfold syslog; appends_steps);
      assert (H3 : respects appends_quietly loop)
        by (appends_steps; apply appends_quietly_call);
      destruct (frame_trans w2 _ _ (H2 w2) (H3 (exec logs w2)))
        as (rest & Hrest & Hq)
  end.
  exists rest. split; [|exact Hq].
  unfold exec in *. rewrite Hrest. cbn. rewrite <- app_assoc. reflexivity.
Qed.

Lemma added_watch_note_despite_full_table_witness :
  exists rest,
    exec (process_event Glob.fnmatch (Z.lor IN_CREATE IN_ISDIR) "/tmp/w" "sub")
      full_recursive_world
    = set_trace
        (trace full_recursive_world ++
         [capacity_diagnostic (daemon_mode full_recursive_world);
          added_watch_note (daemon_mode full_recursive_world)
            (c_truncate PATH_MAX ("/tmp/w" ++ "/" ++ "sub")%string)] ++ rest)
        full_recursive_world /\
    add_watch_requests rest = [].
Proof.
  apply (added_watch_note_despite_full_table Glob.fnmatch
           (Z.lor IN_CREATE IN_ISDIR) "/tmp/w" "sub" full_recursive_world).
  - vm_compute. reflexivity.
  - vm_compute. reflexivity.
  - vm_compute. reflexivity.
  - vm_compute. discriminate.
Defined.

(** X7.  Unless the mode is recursive and the mask has both the creation
    and the directory bit, [process_event] asks the kernel nothing and
    changes nothing but the trace: the watch table, its count and the
    pending kernel replies are as before. *)
Theorem no_watch_without_recursive_directory_creation
    (fnmatch : string -> string -> Z -> Z) (event_mask : Z) (p f : string)
    (w : world) :
  truthy (recursive_mode w) && truthy (Z.land event_mask IN_CREATE)
    && truthy (Z.land event_mask IN_ISDIR) = false ->
  exists es,
    exec (process_event fnmatch event_mask p f) w
    = set_trace (trace w ++ es) w /\
    add_watch_requests es = [].
Proof.
  intros Hno. unfold process_event. autorewrite with run.
  rewrite Hno. cbn [when]. autorewrite with run.
  match goal with
  | |- context [exec ?loop (exec ?logs w)] =>
      assert (H2 : respects appends_quietly logs)
        by (unfold syslog; appends_steps);
      assert (H3 : respects appends_quietly loop)
        by (appends_steps; apply appends_quietly_call);
      exact (frame_trans w _ _ (H2 w) (H3 (exec logs w)))
  end.
Qed.

Lemma no_watch_without_recursive_directory_creation_witness :
  exists es,
    exec (process_event Glob.fnmatch (Z.lor IN_CREATE IN_ISDIR) "/tmp/w" "sub")
      log_world
    = set_trace (trace log_world ++ es) log_world /\
    add_watch_requests es = [].
Proof.
  apply (no_watch_without_recursive_directory_creation Glob.fnmatch
           (Z.lor IN_CREATE IN_ISDIR) "/tmp/w" "sub" log_world).
  vm_compute. reflexivity.
Defined.

(** ** The recursive installer, at its limits *)

(** With a full table every directory visit fails at the capacity test:
    one diagnostic each, nothing else. *)
Lemma nftw_run_full_table (visits : list (string * Z * Z)) (w : world) :
  watch_count w >= MAX_WATCHES ->
  nftw_run ftw_callback visits w
  = (0, set_trace
          (trace w ++ map (fun _ => capacity_diagnostic (daemon_mode w))
                        (dir_visits visits)) w).
Proof.
  intros Hfull. revert w Hfull.
  induction visits as [|[[p typeflag] level] visits IH]; intros w Hfull.
  - cbn. unfold ret. rewrite set_trace_nil. reflexivity.
  - cbn [nftw_run]. unfold bind. rewrite ftw_callback_unfold. cbn [Z.eqb].
    rewrite dir_visits_cons.
    destruct (watched_visit (p, typeflag, level)).
    + unfold exec. rewrite add_watch_full by assumption. cbn [snd].
      fold (capacity_diagnostic (daemon_mode w)).
      rewrite IH by exact Hfull. cbn. rewrite <- app_assoc. reflexivity.
    + apply IH. exact Hfull.
Qed.

(** X8.  With a full table the recursive installer asks the kernel
    nothing and takes no slot; the walk still visits every directory, and
    each visit leaves one capacity diagnostic, as many as the hierarchy
    has directories, the root included. *)
Theorem recursive_install_on_full_table
    (filesystem : string -> option fs_tree) (p : string) (t : fs_tree)
    (w : world) :
  filesystem p = Some t ->
  watch_count w >= MAX_WATCHES ->
  exec (watch_recursively filesystem p) w
  = set_trace
      (trace w ++ repeat (capacity_diagnostic (daemon_mode w)) (count_dirs t)) w.
Proof.
  intros Hfs Hfull. unfold watch_recursively, nftw. rewrite Hfs, exec_bind.
  unfold eval, exec. rewrite nftw_run_full_table by assumption.
  cbn. f_equal. f_equal.
  rewrite <- (dir_visits_count t 0 (nftw_start p)) by lia.
  induction (dir_visits (nftw_visits 0 (nftw_start p) t)); cbn; congruence.
Qed.

Lemma recursive_install_on_full_table_witness :
  add_watch_requests
    (trace (exec (watch_recursively (fun _ => Some small_tree) "/tmp/w")
              full_recursive_world))
  = add_watch_requests (trace full_recursive_world) /\
  watch_count
    (exec (watch_recursively (fun _ => Some small_tree) "/tmp/w")
       full_recursive_world) = 512.
Proof.
  assert (Hfull : watch_count full_recursive_world >= MAX_WATCHES)
    by (vm_compute; discriminate).
  rewrite (recursive_install_on_full_table (fun _ => Some small_tree) "/tmp/w"
             small_tree full_recursive_world eq_refl Hfull).
  split.
  - cbn [trace set_trace]. rewrite add_watch_requests_app.
    apply app_nil_r.
  - vm_compute. reflexivity.
Defined.

Lemma nftw_run_requests_prefix (visits : list (string * Z * Z)) :
  forall w,
    exists k,
      add_watch_requests (trace (exec (nftw_run ftw_callback visits) w))
      = add_watch_requests (trace w) ++ take k (dir_visits visits).
Proof.
  induction visits as [|[[p typeflag] level] visits IH]; intros w.
  - exists 0%nat. cbn. rewrite app_nil_r. reflexivity.
  - cbn [nftw_run]. unfold exec, bind. rewrite ftw_callback_unfold.
    cbn [Z.eqb]. rewrite dir_visits_cons.
    fold (exec (nftw_run ftw_callback visits)
            (if watched_visit (p, typeflag, level)
             then exec (add_watch p) w else w)).
    destruct (watched_visit (p, typeflag, level)); [|apply IH].
    cbn [fst].
    destruct (Z_lt_ge_dec (watch_count w) MAX_WATCHES) as [Hlt|Hge].
    + destruct (add_watch_asks p w Hlt) as [Hreq _].
      destruct (IH (exec (add_watch p) w)) as [k Hk].
      exists (S k). rewrite Hk, Hreq, <- app_assoc. reflexivity.
    + exists 0%nat. unfold exec at 2. rewrite add_watch_full by assumption.
      cbn [snd]. unfold exec.
      rewrite nftw_run_full_table by exact Hge.
      cbn. rewrite !add_watch_requests_app, app_nil_r.
      assert (E : forall (l : list string) a,
                add_watch_requests (map (fun _ => capacity_diagnostic a) l) = []).
      { intros l a. induction l as [|x l IHl]; [reflexivity|].
        cbn. unfold capacity_diagnostic at 1. destruct (truthy a); exact IHl. }
      rewrite E. unfold capacity_diagnostic.
      destruct (truthy (daemon_mode w)); cbn; rewrite ?app_nil_r; reflexivity.
Qed.

Lemma dir_visits_are_directories (visits : list (string * Z * Z)) (q : string) :
  In q (dir_visits visits) ->
  exists level, In (q, FTW_D, level) visits.
Proof.
  unfold dir_visits. rewrite in_map_iff.
  intros ([[p typeflag] level] & Hq & Hin). cbn in Hq. subst p.
  apply List.filter_In in Hin. destruct Hin as [Hin Hw].
  unfold watched_visit in Hw. apply andb_true_iff in Hw. destruct Hw as [Ht _].
  apply Z.eqb_eq in Ht. subst typeflag. exists level. exact Hin.
Qed.

(** X9.  Whatever the fill of the table and the answers of the kernel,
    the requests of the recursive installer are the directories of the
    walk in walk order, up to some point: no directory is skipped before
    the last one requested, and an entry the walk reports as anything but
    a directory (a file, a symbolic link, an unreadable directory) is
    never requested. *)
Theorem recursive_install_requests_a_prefix_of_the_directories
    (filesystem : string -> option fs_tree) (p : string) (t : fs_tree)
    (w : world) :
  filesystem p = Some t ->
  exists k,
    add_watch_requests (trace (exec (watch_recursively filesystem p) w))
    = add_watch_requests (trace w) ++ take k (dir_visits (nftw_visits 0 (nftw_start p) t)) /\
    forall q, In q (take k (dir_visits (nftw_visits 0 (nftw_start p) t))) ->
              exists level, In (q, FTW_D, level) (nftw_visits 0 (nftw_start p) t).
Proof.
  intros Hfs.
  destruct (nftw_run_requests_prefix (nftw_visits 0 (nftw_start p) t) w) as [k Hk].
  exists k. split.
  - unfold watch_recursively, nftw. rewrite Hfs, exec_bind.
    match goal with
    | |- add_watch_requests (trace (exec ?log ?w1)) = _ =>
        assert (H1 : respects same_requests log)
          by (unfold syslog, fprintf_stderr; same_requests_steps);
        exact (eq_trans (H1 w1) Hk)
    end.
  - intros q Hq. apply dir_visits_are_directories.
    apply list_elem_of_In. apply list_elem_of_In in Hq.
    eapply subseteq_take; exact Hq.
Qed.

Lemma recursive_install_requests_a_prefix_of_the_directories_witness :
  exists k,
    add_watch_requests
      (trace (exec (watch_recursively (fun _ => Some small_tree) "/tmp/w")
                (set_fd 3 (initial_world 0 1 [] [1; -1; 2; 3]))))
    = add_watch_requests (trace (set_fd 3 (initial_world 0 1 [] [1; -1; 2; 3])))
      ++ take k (dir_visits (nftw_visits 0 "/tmp/w" small_tree)) /\
    forall q, In q (take k (dir_visits (nftw_visits 0 "/tmp/w" small_tree))) ->
              exists level, In (q, FTW_D, level) (nftw_visits 0 "/tmp/w" small_tree).
Proof.
  exact (recursive_install_requests_a_prefix_of_the_directories
           (fun _ => Some small_tree) "/tmp/w" small_tree
           (set_fd 3 (initial_world 0 1 [] [1; -1; 2; 3])) eq_refl).
Defined.

(** X10.  A walk that cannot start leaves one "failed to recursively
    watch" diagnostic and nothing else; a walk that starts at something
    that is not a directory leaves the world as it was.  Neither asks the
    kernel for a watch nor takes a slot. *)
Theorem recursive_install_without_directory
    (filesystem : string -> option fs_tree) (p : string) (w : world) :
  (filesystem p = None ->
   exec (watch_recursively filesystem p) w
   = set_trace (trace w ++ [walk_failure_diagnostic (daemon_mode w) p]) w) /\
  (forall name typeflag children,
     filesystem p = Some (Entry name typeflag children) ->
     typeflag <> FTW_D ->
     exec (watch_recursively filesystem p) w = w).
Proof.
  split.
  - intros Hfs. unfold watch_recursively, nftw, exec, bind. rewrite Hfs.
    cbn. unfold walk_failure_diagnostic.
    destruct (truthy (daemon_mode w)); reflexivity.
  - intros name typeflag children Hfs Hnd.
    unfold watch_recursively, nftw, exec, bind. rewrite Hfs.
    cbn [nftw_visits]. apply Z.eqb_neq in Hnd. rewrite Hnd.
    cbn [nftw_run]. unfold bind. rewrite ftw_callback_unfold.
    unfold watched_visit. rewrite Hnd. reflexivity.
Qed.

Lemma recursive_install_without_directory_witness :
  exec (watch_recursively (fun _ => Some (Entry "notes.txt" FTW_F []))
          "/tmp/notes.txt") log_world = log_world /\
  trace (exec (watch_recursively (fun _ => None) "/tmp/gone")
           (set_trace [] log_world))
  = [walk_failure_diagnostic 0 "/tmp/gone"].
Proof.
  split.
  - apply (proj2 (recursive_install_without_directory
                    (fun _ => Some (Entry "notes.txt" FTW_F []))
                    "/tmp/notes.txt" log_world) "notes.txt" FTW_F []).
    + reflexivity.
    + discriminate.
  - rewrite (proj1 (recursive_install_without_directory (fun _ => None)
                      "/tmp/gone" (set_trace [] log_world)) eq_refl).
    reflexivity.
Defined.

(** ** Stored paths fit their buffer *)

Lemma substring_length_le (s : string) (n : nat) :
  (String.length (substring 0 n s) <= n)%nat.
Proof.
  revert n. induction s as [|c s IH]; intros n; cbn.
  - destruct n; cbn; lia.
  - destruct n; cbn; [lia|]. specialize (IH n). lia.
Qed.

Lemma c_truncate_fits (s : string) :
  Z.of_nat (String.length (c_truncate PATH_MAX s)) < PATH_MAX.
Proof.
  unfold c_truncate.
  pose proof (substring_length_le s (Z.to_nat (PATH_MAX - 1))) as H.
  unfold PATH_MAX in *. lia.
Qed.

#[local] Instance bounded_frame : Frame bounded_step.
Proof.
  split.
  - intros w Hw Hb. split; assumption.
  - intros w1 w2 w3 H12 H23 Hw Hb.
    destruct (H12 Hw Hb) as [Hw2 Hb2]. exact (H23 Hw2 Hb2).
Qed.

Lemma bounded_modify (f : world -> world) :
  (forall w, well_formed w -> well_formed (f w)) ->
  (forall w, live_watches (f w) = live_watches w) ->
  respects bounded_step (modify f).
Proof.
  intros Hwf Hlive w Hw Hb. cbn. split; [apply Hwf, Hw|].
  unfold paths_bounded. rewrite Hlive. exact Hb.
Qed.

Lemma bounded_emit (e : effect) : respects bounded_step (emit e).
Proof.
  apply bounded_modify.
  - intros w []. split; assumption.
  - reflexivity.
Qed.

Lemma bounded_add_watch (p : string) : respects bounded_step (add_watch p).
Proof.
  intros w Hw Hb.
  destruct (add_watch_spec p w Hw) as [Hwf _ _ _ _ _ _ _ _ _ Hout].
  split; [exact Hwf|]. unfold paths_bounded in *.
  destruct Hout as [(_ & Hk & Ht & _) | (_ & _ & _ & _ & _ & Hl & _)].
  - unfold live_watches in *. rewrite Hk, Ht. exact Hb.
  - rewrite Hl. apply Forall_app. split; [exact Hb|].
    constructor; [apply c_truncate_fits | constructor].
Qed.

Lemma bounded_register_callback (event_mask : Z) (pat : option string)
    (cb : event_callback) :
  respects bounded_step (register_callback event_mask pat cb).
Proof.
  intros w Hw Hb. unfold register_callback, bind, get.
  destruct (callback_count w >=? MAX_CALLBACKS) eqn:E; [split; assumption|].
  cbn. destruct Hw as [H1 H2 H3 H4 H5]. split.
  - split; cbn; try assumption; [rewrite length_insert; assumption | lia].
  - exact Hb.
Qed.

Ltac bounded_steps :=
  respects_steps ltac:(idtac; first [ apply bounded_add_watch
                                    | apply bounded_register_callback
                                    | apply bounded_emit ]).

Lemma bounded_watch_recursively (filesystem : string -> option fs_tree)
    (p : string) :
  respects bounded_step (watch_recursively filesystem p).
Proof.
  unfold watch_recursively, nftw, syslog, fprintf_stderr.
  unfold ftw_callback. bounded_steps.
Qed.

Lemma bounded_cleanup : respects bounded_step cleanup.
Proof. unfold cleanup, inotify_rm_watch, close, free. bounded_steps. Qed.

Lemma bounded_process_event (fnmatch : string -> string -> Z -> Z)
    (event_mask : Z) (p f : string) :
  respects bounded_step (process_event fnmatch event_mask p f).
Proof.
  unfold process_event, call, syslog, printf. bounded_steps.
Qed.

Lemma bounded_main_event (fnmatch : string -> string -> Z -> Z)
    (ev : inotify_event) :
  respects bounded_step (main_event fnmatch ev).
Proof.
  unfold main_event, syslog, fprintf_stderr, printf.
  bounded_steps; apply bounded_process_event.
Qed.

Lemma bounded_run_ops (fnmatch : string -> string -> Z -> Z) (ops : list op) :
  respects bounded_step (run_ops fnmatch ops).
Proof.
  apply respects_for_each; [exact _|]. intros [p|p found|ev|]; cbn.
  - bounded_steps.
  - apply bounded_watch_recursively.
  - apply bounded_main_event.
  - apply bounded_cleanup.
Qed.

Lemma bounded_main_setup (filesystem : string -> option fs_tree) (init_fd : Z)
    (watch_path : string) :
  respects bounded_step (main_setup filesystem init_fd watch_path).
Proof.
  unfold main_setup, main_watches, syslog, perror, printf.
  respects_steps
    ltac:(idtac;
          first [ apply bounded_cleanup
                | apply bounded_watch_recursively
                | apply bounded_add_watch
                | apply bounded_register_callback
                | apply bounded_emit
                | apply bounded_modify;
                  [intros w []; split; assumption | reflexivity] ]).
Qed.

(** X11.  In every world the program reaches, from the start of [main]
    through any sequence of installs, recursive installs, event records
    and releases, the path of every live slot is shorter than [PATH_MAX]:
    with its terminator it fits the slot's buffer, however long the
    directory names handed to [add_watch] were.  The table stays well
    formed throughout. *)
Theorem stored_paths_fit_their_buffer
    (fnmatch : string -> string -> Z -> Z)
    (filesystem : string -> option fs_tree) (init_fd daemon recursive : Z)
    (pats : list string) (replies : list Z) (watch_path : string)
    (ops : list op) :
  well_formed
    (exec (run_ops fnmatch ops)
       (exec (main_setup filesystem init_fd watch_path)
          (initial_world daemon recursive pats replies))) /\
  Forall (fun e => Z.of_nat (String.length (path e)) < PATH_MAX)
    (live_watches
       (exec (run_ops fnmatch ops)
          (exec (main_setup filesystem init_fd watch_path)
             (initial_world daemon recursive pats replies)))).
Proof.
  assert (H0 : well_formed (initial_world daemon recursive pats replies))
    by apply initial_world_well_formed.
  assert (B0 : paths_bounded (initial_world daemon recursive pats replies))
    by constructor.
  destruct (bounded_main_setup filesystem init_fd watch_path _ H0 B0)
    as [H1 B1].
  exact (bounded_run_ops fnmatch ops _ H1 B1).
Qed.

(** ** One diagnostic channel per mode *)

Lemma wrong_channel_app (b : bool) (t1 t2 : list effect) :
  wrong_channel b (t1 ++ t2) = wrong_channel b t1 ++ wrong_channel b t2.
Proof. destruct b; apply List.filter_app. Qed.

#[local] Instance channel_frame (d : Z) : Frame (channel_step d).
Proof.
  split.
  - intros w Hd. split; [exact Hd | reflexivity].
  - intros w1 w2 w3 H12 H23 Hd. destruct (H12 Hd) as [Hd2 E12].
    destruct (H23 Hd2) as [Hd3 E23]. split; [exact Hd3 | congruence].
Qed.

Lemma channel_emit (d : Z) (e : effect) :
  wrong_channel (truthy d) [e] = [] -> respects (channel_step d) (emit e).
Proof.
  intros He w Hd. cbn. split; [exact Hd|].
  rewrite wrong_channel_app, He. apply app_nil_r.
Qed.

Lemma channel_modify (d : Z) (f : world -> world) :
  (forall w, daemon_mode (f w) = daemon_mode w /\ trace (f w) = trace w) ->
  respects (channel_step d) (modify f).
Proof.
  intros Hf w Hd. cbn. destruct (Hf w) as [E1 E2]. rewrite E1, E2.
  split; [exact Hd | reflexivity].
Qed.

Lemma channel_inotify_add_watch (d fd0 : Z) (p : string) (m : Z) :
  respects (channel_step d) (inotify_add_watch fd0 p m).
Proof.
  intros w Hd. cbn. split; [exact Hd|].
  rewrite wrong_channel_app. destruct (truthy d); apply app_nil_r.
Qed.

(** Reading the mode flag in a world whose flag is [d] gives [d]. *)
Lemma channel_bind_daemon_mode (d : Z) {B} (k : Z -> M B) :
  respects (channel_step d) (k d) ->
  respects (channel_step d) (bind (get daemon_mode) k).
Proof.
  intros Hk w Hd. unfold bind, get. rewrite Hd. exact (Hk w Hd).
Qed.

Ltac channel_steps Hd :=
  repeat first
    [ progress (rewrite Hd; cbn [negb when])
    | apply respects_ret; exact _
    | apply respects_get; exact _
    | apply channel_bind_daemon_mode; cbv beta
    | apply channel_emit; rewrite ?Hd; reflexivity
    | apply channel_inotify_add_watch
    | apply channel_modify; intros; split; reflexivity
    | apply respects_when; [exact _ |]
    | apply respects_for_each; [exact _ | intros]
    | apply respects_nftw_run; [exact _ | intros]
    | apply respects_free_patterns; [exact _ | intros; unfold free]
    | apply respects_bind; [exact _ | | intros]
    | match goal with
      | |- respects _ (if ?b then _ else _) => destruct b
      | |- respects _ (match ?x with _ => _ end) => destruct x
      end ].

Lemma channel_add_watch (d : Z) (p : string) :
  respects (channel_step d) (add_watch p).
Proof.
  destruct (truthy d) eqn:Hd;
    unfold add_watch, syslog, fprintf_stderr, printf; channel_steps Hd.
Qed.

Lemma channel_nftw (d : Z) (filesystem : string -> option fs_tree)
    (p : string) :
  respects (channel_step d) (nftw filesystem p ftw_callback).
Proof.
  destruct (truthy d) eqn:Hd; unfold nftw, ftw_callback;
    repeat first [ apply channel_add_watch | progress channel_steps Hd ].
Qed.

Lemma channel_watch_recursively (d : Z)
    (filesystem : string -> option fs_tree) (p : string) :
  respects (channel_step d) (watch_recursively filesystem p).
Proof.
  destruct (truthy d) eqn:Hd;
    unfold watch_recursively, nftw, ftw_callback, syslog, fprintf_stderr;
    repeat first [ apply channel_add_watch | progress channel_steps Hd ].
Qed.

Lemma channel_call (d : Z) (cb : event_callback) (p f : string) :
  respects (channel_step d) (call cb p f).
Proof.
  destruct (truthy d) eqn:Hd; unfold call, printf; channel_steps Hd.
Qed.

Lemma channel_process_event (d : Z) (fnmatch : string -> string -> Z -> Z)
    (event_mask : Z) (p f : string) :
  respects (channel_step d) (process_event fnmatch event_mask p f).
Proof.
  destruct (truthy d) eqn:Hd;
    unfold process_event, syslog, printf;
    repeat first [ apply channel_add_watch | apply channel_call
                 | progress channel_steps Hd ].
Qed.

Lemma channel_cleanup (d : Z) : respects (channel_step d) cleanup.
Proof.
  destruct (truthy d) eqn:Hd;
    unfold cleanup, inotify_rm_watch, close, free; channel_steps Hd.
Qed.

Lemma channel_main_event (d : Z) (fnmatch : string -> string -> Z -> Z)
    (ev : inotify_event) :
  respects (channel_step d) (main_event fnmatch ev).
Proof.
  destruct (truthy d) eqn:Hd;
    unfold main_event, syslog, fprintf_stderr, printf;
    repeat first [ apply channel_process_event | progress channel_steps Hd ].
Qed.

Lemma channel_run_ops (d : Z) (fnmatch : string -> string -> Z -> Z)
    (ops : list op) :
  respects (channel_step d) (run_ops fnmatch ops).
Proof.
  apply respects_for_each; [exact _|]. intros [p|p found|ev|]; cbn.
  - apply respects_bind; [exact _ | apply channel_add_watch |].
    intros _. apply respects_ret. exact _.
  - apply channel_watch_recursively.
  - apply channel_main_event.
  - apply channel_cleanup.
Qed.

Lemma channel_register_callback (d : Z) (event_mask : Z) (pat : option string)
    (cb : event_callback) :
  respects (channel_step d) (register_callback event_mask pat cb).
Proof.
  destruct (truthy d) eqn:Hd; unfold register_callback; channel_steps Hd.
Qed.

Lemma channel_main_setup (d : Z) (filesystem : string -> option fs_tree)
    (init_fd : Z) (watch_path : string) :
  respects (channel_step d) (main_setup filesystem init_fd watch_path).
Proof.
  destruct (truthy d) eqn:Hd;
    unfold main_setup, main_watches, syslog, perror, printf;
    repeat first [ apply channel_register_callback | apply channel_add_watch
                 | apply channel_cleanup | apply channel_nftw
                 | progress channel_steps Hd ].
Qed.

(** ** The start of [main] *)

(** From [inotify_init] on, the set-up ends the process with status 1
    exactly when [inotify_init] failed or the kernel refused the watch on
    the root.  When [inotify_init] failed, the clean-up run at exit asks
    the kernel nothing and closes nothing: after the diagnostic it only
    hands the three null patterns to [free].  When the root watch was
    refused, the kernel was asked once, and the clean-up closes the
    inotify descriptor and removes no watch. *)
Lemma main_setup_outcome
    (filesystem : string -> option fs_tree) (init_fd daemon recursive : Z)
    (pats : list string) (replies : list Z) (watch_path : string) :
  eval (main_setup filesystem init_fd watch_path)
    (initial_world daemon recursive pats replies)
  = (if (init_fd <? 0) || (hd (-1) replies <? 0) then Some 1 else None) /\
  (init_fd < 0 ->
   trace (exec (main_setup filesystem init_fd watch_path)
            (initial_world daemon recursive pats replies))
   = [if truthy daemon
      then Syslog LOG_ERR "Failed to initialize inotify: %s" [AStrerror]
      else Perror "inotify_init";
      Free NULL; Free NULL; Free NULL]) /\
  (0 <= init_fd -> hd (-1) replies < 0 ->
   trace (exec (main_setup filesystem init_fd watch_path)
            (initial_world daemon recursive pats replies))
   = [Sys_inotify_add_watch init_fd watch_path all_watch_events
        (hd (-1) replies);
      refusal_diagnostic daemon watch_path;
      Sys_close init_fd;
      Free NULL; Free NULL; Free NULL]).
Proof.
  assert (Hreply : forall w, kernel w = replies -> next_reply w = hd (-1) replies).
  { intros w Hk. unfold next_reply. rewrite Hk. destruct replies; reflexivity. }
  set (w3 := set_fd init_fd
               (exec (register_callback IN_CREATE None on_file_created ;;
                      register_callback IN_DELETE None on_file_deleted ;;
                      register_callback IN_MODIFY None on_file_modified)
                  (initial_world daemon recursive pats replies))).
  assert (E3 : forall {A} (k : M A),
             eval (register_callback IN_CREATE None on_file_created ;;
                   register_callback IN_DELETE None on_file_deleted ;;
                   register_callback IN_MODIFY None on_file_modified ;;
                   modify (set_fd init_fd) ;; k)
               (initial_world daemon recursive pats replies) = eval k w3 /\
             exec (register_callback IN_CREATE None on_file_created ;;
                   register_callback IN_DELETE None on_file_deleted ;;
                   register_callback IN_MODIFY None on_file_modified ;;
                   modify (set_fd init_fd) ;; k)
               (initial_world daemon recursive pats replies) = exec k w3).
  { intros A k. split; reflexivity. }
  unfold main_setup.
  rewrite (proj1 (E3 _ _)), (proj2 (E3 _ _)).
  assert (Hcap : watch_count w3 < MAX_WATCHES) by reflexivity.
  assert (Hn : next_reply w3 = hd (-1) replies) by (apply Hreply; reflexivity).
  assert (Hlive : live_watches w3 = []) by reflexivity.
  assert (Hcbs : live_callbacks w3 = default_callbacks) by reflexivity.
  assert (Hdm : daemon_mode w3 = daemon) by reflexivity.
  assert (Hfd3 : fd w3 = init_fd) by reflexivity.
  assert (Htr : trace w3 = []) by reflexivity.
  clearbody w3. clear E3 Hreply.
  destruct (init_fd <? 0) eqn:Hfd; cbn [orb].
  - split; [|split].
    + autorewrite with run. reflexivity.
    + intros _. autorewrite with run. rewrite Hdm.
      unfold exec at 1. rewrite cleanup_emits. cbn [snd trace set_trace].
      unfold cleanup_effects. unfold live_callbacks, live_watches.
      assert (E : forall e, exec (emit e) w3 = set_trace (trace w3 ++ [e]) w3)
        by reflexivity.
      destruct (truthy daemon); unfold syslog, perror; rewrite E;
        cbn [fd watch_count watches callbacks callback_count set_trace trace];
        fold (live_watches w3); fold (live_callbacks w3);
        rewrite Hlive, Hcbs, Hfd3, Htr;
        (assert (Hge : (init_fd >=? 0) = false) by lia); rewrite Hge;
        reflexivity.
    + intros Hpos. lia.
  - unfold main_watches. split; [|split].
    + rewrite eval_bind.
      destruct (hd (-1) replies <? 0) eqn:Hr.
      * assert (Ev : eval (add_watch watch_path) w3 = -1)
          by (unfold eval; rewrite add_watch_refused by lia; reflexivity).
        rewrite Ev. cbn [Z.ltb Z.compare]. autorewrite with run. reflexivity.
      * assert (Ev : eval (add_watch watch_path) w3 = hd (-1) replies)
          by (unfold eval; rewrite add_watch_ok by lia; exact Hn).
        rewrite Ev, Hr. autorewrite with run. reflexivity.
    + intros Hneg. lia.
    + intros _ Hneg. rewrite exec_bind.
      assert (Ev : eval (add_watch watch_path) w3 = -1)
        by (unfold eval; rewrite add_watch_refused by lia; reflexivity).
      rewrite Ev. cbn [Z.ltb Z.compare]. autorewrite with run.
      unfold exec. rewrite add_watch_refused by lia. cbn [snd].
      rewrite cleanup_emits. cbn [snd trace set_trace].
      unfold cleanup_effects, live_callbacks, live_watches.
      cbn [fd watch_count watches callbacks callback_count set_trace
           set_kernel trace].
      fold (live_watches w3); fold (live_callbacks w3).
      rewrite Hlive, Hcbs, Hfd3, Htr, Hn, Hdm.
      assert (Hge : (init_fd >=? 0) = true) by lia. rewrite Hge.
      unfold refusal_diagnostic. destruct (truthy daemon); reflexivity.
Qed.

Lemma registry_main_watches (filesystem : string -> option fs_tree)
    (watch_path : string) :
  respects registry_step (main_watches filesystem watch_path).
Proof.
  unfold main_watches, printf.
  respects_steps
    ltac:(idtac; first [ apply registry_cleanup
                       | apply registry_watch_recursively
                       | apply registry_add_watch
                       | apply registry_emit; reflexivity ]).
Qed.

(** The world after the three registrations and the assignment of the
    descriptor, and the rest of the set-up as a step of the registry. *)
Lemma main_setup_callbacks (filesystem : string -> option fs_tree)
    (init_fd daemon recursive : Z) (pats : list string) (replies : list Z)
    (watch_path : string) :
  well_formed
    (exec (main_setup filesystem init_fd watch_path)
       (initial_world daemon recursive pats replies)) /\
  live_callbacks
    (exec (main_setup filesystem init_fd watch_path)
       (initial_world daemon recursive pats replies)) = default_callbacks.
Proof.
  set (w3 := set_fd init_fd
               (exec (register_callback IN_CREATE None on_file_created ;;
                      register_callback IN_DELETE None on_file_deleted ;;
                      register_callback IN_MODIFY None on_file_modified)
                  (initial_world daemon recursive pats replies))).
  assert (E3 : forall {A} (k : M A),
             exec (register_callback IN_CREATE None on_file_created ;;
                   register_callback IN_DELETE None on_file_deleted ;;
                   register_callback IN_MODIFY None on_file_modified ;;
                   modify (set_fd init_fd) ;; k)
               (initial_world daemon recursive pats replies) = exec k w3)
    by reflexivity.
  unfold main_setup. rewrite E3.
  assert (Hw3 : well_formed w3).
  { split; first [reflexivity | vm_compute; split; discriminate]. }
  assert (Hcbs : live_callbacks w3 = default_callbacks) by reflexivity.
  clearbody w3. clear E3.
  match goal with
  | |- well_formed (exec ?rest w3) /\ _ =>
      assert (Hrest : respects registry_step rest)
  end.
  { unfold syslog, perror.
    respects_steps
      ltac:(idtac; first [ apply registry_cleanup
                         | apply registry_main_watches
                         | apply registry_emit; reflexivity ]). }
  destruct (Hrest w3 Hw3) as [Hw' [_ _ _ Hc Hn _ _ _]].
  split; [exact Hw'|].
  unfold live_callbacks, exec in *. rewrite Hc, Hn. exact Hcbs.
Qed.

(** X14.  With the table as [main] fills it, however the run went since,
    an event reaches the creation handler exactly when its mask has the
    creation bit, the deletion handler when it has the deletion bit and
    the modification handler when it has the modification bit, in that
    order and whatever the filename; moves and attribute changes reach no
    handler. *)
Theorem default_handlers_follow_the_mask
    (fnmatch : string -> string -> Z -> Z)
    (filesystem : string -> option fs_tree) (init_fd daemon recursive : Z)
    (pats : list string) (replies : list Z) (watch_path : string)
    (ops : list op) (event_mask : Z) (p f : string) :
  handler_calls
    (trace (exec (process_event fnmatch event_mask p f)
              (exec (run_ops fnmatch ops)
                 (exec (main_setup filesystem init_fd watch_path)
                    (initial_world daemon recursive pats replies)))))
  = handler_calls
      (trace (exec (run_ops fnmatch ops)
                (exec (main_setup filesystem init_fd watch_path)
                   (initial_world daemon recursive pats replies))))
    ++ (if truthy (Z.land IN_CREATE event_mask)
        then [(on_file_created, p, f)] else [])
    ++ (if truthy (Z.land IN_DELETE event_mask)
        then [(on_file_deleted, p, f)] else [])
    ++ (if truthy (Z.land IN_MODIFY event_mask)
        then [(on_file_modified, p, f)] else []).
Proof.
  destruct (main_setup_callbacks filesystem init_fd daemon recursive pats
              replies watch_path) as [Hw Hcbs].
  destruct (registry_run_ops fnmatch ops _ Hw) as [_ [_ _ _ Hc Hn _ _ _]].
  rewrite process_event_calls. f_equal.
  unfold live_callbacks, exec in *. rewrite Hc, Hn, Hcbs.
  unfold default_callbacks, callback_fires. cbn [List.filter mask pattern andb].
  rewrite !andb_true_r.
  destruct (truthy (Z.land IN_CREATE event_mask));
    destruct (truthy (Z.land IN_DELETE event_mask));
    destruct (truthy (Z.land IN_MODIFY event_mask)); reflexivity.
Qed.

Lemma matched_directory_gets_its_watch_witness :
  add_watch_requests
    (trace (exec (main_event Glob.fnmatch mkdir_sub_log) recursive_log_world))
  = add_watch_requests (trace recursive_log_world)
    ++ [c_truncate PATH_MAX ("/tmp/w" ++ "/" ++ "sub.log")%string].
Proof.
  apply (matched_directory_gets_its_watch Glob.fnmatch mkdir_sub_log
           recursive_log_world "/tmp/w"); vm_compute; reflexivity.
Defined.

(** ** The command line *)

Lemma set_modes_twice (d1 d2 r1 r2 : Z) (w : world) :
  set_recursive_mode r2 (set_daemon_mode d2
    (set_recursive_mode r1 (set_daemon_mode d1 w)))
  = set_recursive_mode r2 (set_daemon_mode d2 w).
Proof. reflexivity. Qed.

Lemma set_modes_same (w : world) :
  set_recursive_mode (recursive_mode w) (set_daemon_mode (daemon_mode w) w) = w.
Proof. destruct w; reflexivity. Qed.

Lemma main_options_plain (program_name : string) (results : list (Z * string)) :
  forallb plain_option results = true ->
  forall (pid_file : string) (d r : Z) (w : world),
    main_options program_name results pid_file
      (set_recursive_mode r (set_daemon_mode d w))
    = (inr (last_pid_file results pid_file),
       set_recursive_mode (if has_option "r" results then 1 else r)
         (set_daemon_mode (if has_option "d" results then 1 else d) w)).
Proof.
  induction results as [|[opt optarg] results IH]; intros Hplain pid_file d r w.
  - reflexivity.
  - cbn [forallb] in Hplain. apply andb_true_iff in Hplain.
    destruct Hplain as [Hopt Hrest]. unfold plain_option in Hopt. cbn [fst] in Hopt.
    cbn [main_options last_pid_file has_option existsb fst].
    destruct (opt =? -1) eqn:Em.
    { apply Z.eqb_eq in Em. subst opt. discriminate Hopt. }
    destruct (opt =? chr "d") eqn:Ed.
    { apply Z.eqb_eq in Ed. subst opt. cbn [Z.eqb chr orb].
      unfold bind, modify. cbn [set_daemon_mode].
      change (set_daemon_mode 1 (set_recursive_mode r (set_daemon_mode d w)))
        with (set_recursive_mode r (set_daemon_mode 1 w)).
      rewrite (IH Hrest). replace (chr "d" =? chr "r") with false by reflexivity.
      replace (chr "d" =? chr "p") with false by reflexivity.
      cbn [orb]. destruct (has_option "d" results); reflexivity. }
    destruct (opt =? chr "r") eqn:Er.
    { apply Z.eqb_eq in Er. subst opt. unfold bind, modify.
      change (set_recursive_mode 1 (set_recursive_mode r (set_daemon_mode d w)))
        with (set_recursive_mode 1 (set_daemon_mode d w)).
      rewrite (IH Hrest). replace (chr "r" =? chr "p") with false by reflexivity.
      cbn [orb]. destruct (has_option "r" results); reflexivity. }
    destruct (opt =? chr "p") eqn:Ep; [|discriminate Hopt].
    rewrite (IH Hrest). cbn [orb]. reflexivity.
Qed.

(** X15.  When every option is [-d], [-r] or [-p], the option loop writes
    nothing and touches only the two mode flags: the daemon flag is 1
    when [-d] occurs anywhere and otherwise unchanged, the recursive flag
    likewise for [-r]; the order and the repetition of the options do not
    matter, and the PID file is the argument of the last [-p], the default
    when there is none. *)
Theorem options_set_the_modes (program_name : string)
    (results : list (Z * string)) (w : world) :
  forallb plain_option results = true ->
  main_options program_name results DEFAULT_PID_FILE w
  = (inr (last_pid_file results DEFAULT_PID_FILE),
     set_recursive_mode
       (if has_option "r" results then 1 else recursive_mode w)
       (set_daemon_mode
          (if has_option "d" results then 1 else daemon_mode w) w)).
Proof.
  intros Hplain.
  rewrite <- (set_modes_same w) at 1.
  apply main_options_plain. exact Hplain.
Qed.

Lemma options_set_the_modes_witness :
  main_options "fswatcher"
    [(chr "p", "/tmp/a.pid"); (chr "r", ""); (chr "d", "");
     (chr "p", "/tmp/b.pid"); (chr "r", "")]%string
    DEFAULT_PID_FILE (initial_world 0 0 [] [])
  = (inr "/tmp/b.pid"%string, initial_world 1 1 [] []).
Proof.
  rewrite options_set_the_modes by reflexivity. reflexivity.
Defined.

(** X16.  The first option that is not [-d], [-r] or [-p] ends the
    process after the usage text, with status 0 for [-h] and status 1 for
    anything else; the options after it are never looked at, so a mode
    flag given after it is not set. *)
Theorem help_or_unknown_option_stops_the_parse (program_name : string)
    (before after : list (Z * string)) (opt : Z) (optarg : string)
    (w : world) :
  forallb plain_option before = true ->
  plain_option (opt, optarg) = false ->
  opt <> -1 ->
  main_options program_name (before ++ (opt, optarg) :: after)
    DEFAULT_PID_FILE w
  = (inl (if opt =? chr "h" then EXIT_SUCCESS else EXIT_FAILURE),
     exec (print_usage program_name)
       (set_recursive_mode
          (if has_option "r" before then 1 else recursive_mode w)
          (set_daemon_mode
             (if has_option "d" before then 1 else daemon_mode w) w))).
Proof.
  intros Hplain Hopt Hm.
  assert (G : forall pid_file d r w0,
             main_options program_name (before ++ (opt, optarg) :: after)
               pid_file (set_recursive_mode r (set_daemon_mode d w0))
             = (inl (if opt =? chr "h" then EXIT_SUCCESS else EXIT_FAILURE),
                exec (print_usage program_name)
                  (set_recursive_mode
                     (if has_option "r" before then 1 else r)
                     (set_daemon_mode
                        (if has_option "d" before then 1 else d) w0)))).
  { clear w. induction before as [|[o a] before IH]; intros pid_file d r w0.
    - cbn [app main_options has_option existsb].
      apply Z.eqb_neq in Hm. rewrite Hm.
      unfold plain_option in Hopt. cbn [fst] in Hopt.
      apply orb_false_iff in Hopt. destruct Hopt as [Hopt Hp].
      apply orb_false_iff in Hopt. destruct Hopt as [Hd Hr].
      rewrite Hd, Hr, Hp. unfold exec, bind.
      destruct (opt =? chr "h"); destruct (print_usage program_name _);
        reflexivity.
    - cbn [forallb] in Hplain. apply andb_true_iff in Hplain.
      destruct Hplain as [Ho Hrest]. specialize (IH Hrest).
      unfold plain_option in Ho. cbn [fst] in Ho.
      cbn [app main_options has_option existsb fst].
      destruct (o =? -1) eqn:Em.
      { apply Z.eqb_eq in Em. subst o. discriminate Ho. }
      destruct (o =? chr "d") eqn:Ed.
      { apply Z.eqb_eq in Ed. subst o. unfold bind, modify.
        change (set_daemon_mode 1 (set_recursive_mode r (set_daemon_mode d w0)))
          with (set_recursive_mode r (set_daemon_mode 1 w0)).
        rewrite IH. replace (chr "d" =? chr "r") with false by reflexivity.
        cbn [orb]. destruct (has_option "d" before); reflexivity. }
      destruct (o =? chr "r") eqn:Er.
      { apply Z.eqb_eq in Er. subst o. unfold bind, modify.
        change (set_recursive_mode 1 (set_recursive_mode r (set_daemon_mode d w0)))
          with (set_recursive_mode 1 (set_daemon_mode d w0)).
        rewrite IH. cbn [orb]. destruct (has_option "r" before); reflexivity. }
      destruct (o =? chr "p") eqn:Ep; [|discriminate Ho].
      rewrite IH. cbn [orb]. reflexivity. }
  rewrite <- (set_modes_same w) at 1. apply G.
Qed.

Lemma help_or_unknown_option_stops_the_parse_witness :
  eval (main_options "fswatcher"
          [(chr "r", ""); (chr "h", ""); (chr "d", "")]%string
          DEFAULT_PID_FILE) (initial_world 0 0 [] []) = inl 0 /\
  daemon_mode
    (exec (main_options "fswatcher"
             [(chr "r", ""); (chr "h", ""); (chr "d", "")]%string
             DEFAULT_PID_FILE) (initial_world 0 0 [] [])) = 0 /\
  eval (main_options "fswatcher" [(chr "x", "")]%string DEFAULT_PID_FILE)
    (initial_world 0 0 [] []) = inl 1.
Proof.
  assert (Hh : chr "h" <> -1) by discriminate.
  assert (Hx : chr "x" <> -1) by discriminate.
  pose proof (help_or_unknown_option_stops_the_parse "fswatcher"
                [(chr "r", "")]%string [(chr "d", "")]%string (chr "h") ""
                (initial_world 0 0 [] []) eq_refl eq_refl Hh) as H1.
  pose proof (help_or_unknown_option_stops_the_parse "fswatcher"
                [] [] (chr "x") "" (initial_world 0 0 [] []) eq_refl eq_refl Hx)
    as H2.
  cbn [app] in H1, H2. unfold eval, exec. rewrite H1, H2.
  repeat split.
Defined.

(** The lines [main] prints for the patterns, lines 319-324. *)
Lemma pattern_listing_emits (ps : list string) (w : world) :
  for_each ps (fun p => printf ("  - %s" ++ nl)%string [AStr p]) w
  = (tt, set_trace
           (trace w ++ map (fun p => Printf ("  - %s" ++ nl)%string [AStr p]) ps)
           w).
Proof.
  rewrite (for_each_emits
             (fun _ p => [Printf ("  - %s" ++ nl)%string [AStr p]]))
    by reflexivity.
  rewrite flat_map_singleton. reflexivity.
Qed.

Lemma main_operands_patterns (program_name watch_path : string)
    (pats : list string) (w : world) :
  pats <> [] ->
  main_operands program_name (watch_path :: pats) w
  = (inr watch_path,
     set_trace
       (trace w ++
        if truthy (daemon_mode w) then []
        else Printf ("Filtering for patterns:" ++ nl)%string []
             :: map (fun p => Printf ("  - %s" ++ nl)%string [AStr p]) pats)
       (set_patterns pats (set_pattern_count (Z.of_nat (length pats)) w))).
Proof.
  intros Hne. destruct pats as [|p0 pats0]; [contradiction|].
  set (pats := p0 :: pats0).
  assert (Hlive : forall t, live_patterns
                    (set_trace t (set_patterns pats
                       (set_pattern_count (Z.of_nat (length pats)) w))) = pats).
  { intros t. unfold live_patterns. cbn [pattern_count patterns set_trace
      set_patterns set_pattern_count]. rewrite Nat2Z.id. apply take_all. }
  unfold main_operands. cbn [length Nat.eqb negb when pats].
  fold pats. unfold bind at 1 2 3 4. unfold modify, get.
  cbn [daemon_mode set_patterns set_pattern_count].
  destruct (truthy (daemon_mode w)); cbn [negb when].
  - unfold ret. rewrite app_nil_r. reflexivity.
  - unfold bind, printf, emit, modify, get.
    rewrite pattern_listing_emits. unfold ret. f_equal.
    rewrite Hlive. cbn [trace set_trace set_patterns set_pattern_count].
    rewrite <- app_assoc. reflexivity.
Qed.

(** X17.  Without an operand [main] ends with status 1 after an error
    line on standard error and the usage text.  With operands, the first
    is the watch path; when more follow they become the pattern vector,
    with the count equal to their number, and a console process lists
    them; a daemon lists nothing.  With the path alone the pattern globals
    are not written. *)
Theorem operands_give_path_and_patterns (program_name watch_path : string)
    (pats : list string) (w : world) :
  main_operands program_name [] w
  = (inl EXIT_FAILURE,
     exec (print_usage program_name)
       (set_trace
          (trace w ++ [Fprintf_stderr ("Error: No watch path specified" ++ nl)%string []])
          w)) /\
  main_operands program_name [watch_path] w = (inr watch_path, w) /\
  (pats <> [] ->
   main_operands program_name (watch_path :: pats) w
   = (inr watch_path,
      set_trace
        (trace w ++
         if truthy (daemon_mode w) then []
         else Printf ("Filtering for patterns:" ++ nl)%string []
              :: map (fun p => Printf ("  - %s" ++ nl)%string [AStr p]) pats)
        (set_patterns pats (set_pattern_count (Z.of_nat (length pats)) w))) /\
   live_patterns
     (exec (main_operands program_name (watch_path :: pats)) w) = pats /\
   pattern_count (exec (main_operands program_name (watch_path :: pats)) w)
     = Z.of_nat (length pats)).
Proof.
  split; [|split].
  - unfold main_operands, bind, exec, fprintf_stderr, emit, modify.
    destruct (print_usage program_name _). reflexivity.
  - reflexivity.
  - intros Hne.
    pose proof (main_operands_patterns program_name watch_path pats w Hne) as E.
    split; [exact E|]. unfold exec. rewrite E. split; [|reflexivity].
    unfold live_patterns. cbn [pattern_count patterns set_trace
      set_patterns set_pattern_count snd]. rewrite Nat2Z.id. apply take_all.
Qed.

Lemma operands_give_path_and_patterns_witness :
  eval (main_operands "fswatcher" ["/var/log"; "*.log"; "*.txt"]%string)
    (initial_world 0 0 [] []) = inr "/var/log"%string /\
  live_patterns
    (exec (main_operands "fswatcher" ["/var/log"; "*.log"; "*.txt"]%string)
       (initial_world 0 0 [] [])) = ["*.log"; "*.txt"]%string.
Proof.
  destruct (operands_give_path_and_patterns "fswatcher" "/var/log"
              ["*.log"; "*.txt"]%string (initial_world 0 0 [] []))
    as (_ & _ & H).
  destruct H as (E & Hl & _); [discriminate|].
  split; [unfold eval; rewrite E; reflexivity | exact Hl].
Defined.

(** X18.  Parsing a command line of plain options, a path and patterns
    from the zeroed globals gives exactly the world the rest of the program
    starts from: the daemon and recursive flags as the options say, the
    patterns as the operands after the path with their count, everything
    else as at the start; the only output is the pattern listing of a
    console process. *)
Theorem arguments_give_the_initial_world (program_name watch_path : string)
    (results : list (Z * string)) (pats : list string) (replies : list Z) :
  forallb plain_option results = true ->
  main_arguments program_name results (watch_path :: pats)
    (initial_world 0 0 [] replies)
  = (inr (last_pid_file results DEFAULT_PID_FILE, watch_path),
     set_trace
       (if has_option "d" results then []
        else match pats with
             | [] => []
             | _ :: _ =>
                 Printf ("Filtering for patterns:" ++ nl)%string []
                 :: map (fun p => Printf ("  - %s" ++ nl)%string [AStr p]) pats
             end)
       (initial_world (if has_option "d" results then 1 else 0)
          (if has_option "r" results then 1 else 0) pats replies)).
Proof.
  intros Hplain. unfold main_arguments, bind.
  rewrite <- (set_modes_same (initial_world 0 0 [] replies)) at 1.
  rewrite (main_options_plain program_name results Hplain).
  cbn [daemon_mode recursive_mode initial_world].
  destruct pats as [|p0 pats0].
  - cbn [main_operands length Nat.eqb negb when]. unfold bind, ret.
    destruct (has_option "d" results); reflexivity.
  - rewrite main_operands_patterns by discriminate. unfold ret.
    destruct (has_option "d" results); reflexivity.
Qed.

Lemma arguments_give_the_initial_world_witness :
  main_arguments "fswatcher" [(chr "r", ""); (chr "d", "")]%string
    ["/var/log"; "*.log"]%string (initial_world 0 0 [] [1])
  = (inr (DEFAULT_PID_FILE, "/var/log"%string),
     initial_world 1 1 ["*.log"%string] [1]).
Proof.
  rewrite arguments_give_the_initial_world by reflexivity. reflexivity.
Defined.

(** ** The daemon helpers *)

Ltac daemon_unfold :=
  unfold Daemon.eval, Daemon.exec;
  unfold Daemon.main_daemon;
  unfold Daemon.daemonize, Daemon.write_pid_file, Daemon.signal_handler,
    Daemon.setup_daemon_signal_handlers;
  unfold Daemon.remove_pid_file;
  unfold Daemon.close, Daemon.open, Daemon.dup2, Daemon.syslog, Daemon.when;
  unfold Daemon.ask, Daemon.record, Daemon.bind, Daemon.get, Daemon.ret,
    Daemon.next_result, Daemon.set_descriptor, Daemon.set_current_pid_file.

Ltac daemon_simpl :=
  cbv beta iota zeta
    delta [Daemon.descriptors Daemon.results Daemon.calls
           Daemon.current_pid_file negb fst snd tail].

(** The result of [daemonize] and what it leaves of the descriptors, by
    the results of [fork], [setsid] and [chdir]. *)
Lemma daemonize_by_results (s : Daemon.state) :
  match Daemon.results s with
  | [] => Daemon.eval Daemon.daemonize s = Daemon.Return (-1)
  | pid :: rs =>
      if pid <? 0 then Daemon.eval Daemon.daemonize s = Daemon.Return (-1)
      else if pid >? 0 then
        Daemon.eval Daemon.daemonize s = Daemon.Exit EXIT_SUCCESS
      else
        match rs with
        | [] => Daemon.eval Daemon.daemonize s = Daemon.Return (-1)
        | sid :: rs' =>
            if sid <? 0 then
              Daemon.eval Daemon.daemonize s = Daemon.Return (-1)
            else
              match rs' with
              | [] => Daemon.eval Daemon.daemonize s = Daemon.Return (-1)
              | cd :: _ =>
                  if cd <? 0 then
                    Daemon.eval Daemon.daemonize s = Daemon.Return (-1)
                  else Daemon.eval Daemon.daemonize s = Daemon.Return 0
              end
        end
  end /\
  (Daemon.eval Daemon.daemonize s <> Daemon.Return 0 ->
   forall k, Daemon.descriptors (Daemon.exec Daemon.daemonize s) k
             = Daemon.descriptors s k) /\
  (0 < Daemon.next_result s ->
   Daemon.calls (Daemon.exec Daemon.daemonize s)
   = Daemon.calls s ++ [Daemon.Fork (Daemon.next_result s)]).
Proof.
  destruct s as [pf rs ds cs]. cbn [Daemon.results].
  destruct rs as [|pid rs]; [daemon_unfold; cbn; repeat split; lia|].
  destruct (pid <? 0) eqn:Hneg;
    [daemon_unfold; cbn; rewrite Hneg; cbn; repeat split; lia|].
  destruct (pid >? 0) eqn:Hpos;
    [daemon_unfold; cbn; rewrite Hneg, Hpos; cbn; repeat split|].
  assert (pid = 0) by lia. subst pid.
  destruct rs as [|sid rs]; [daemon_unfold; cbn; repeat split; lia|].
  destruct (sid <? 0) eqn:Hsid;
    [daemon_unfold; cbn; rewrite Hsid; cbn; repeat split; lia|].
  destruct rs as [|cd rs];
    [daemon_unfold; cbn; rewrite Hsid; cbn; repeat split; lia|].
  destruct (cd <? 0) eqn:Hcd;
    [daemon_unfold; cbn; rewrite Hsid; cbn; rewrite Hcd; cbn;
     repeat split; lia|].
  assert (E : Daemon.eval Daemon.daemonize
                {| Daemon.current_pid_file := pf;
                   Daemon.results := 0 :: sid :: cd :: rs;
                   Daemon.descriptors := ds; Daemon.calls := cs |}
              = Daemon.Return 0).
  { daemon_unfold. cbn. rewrite Hsid. cbn. rewrite Hcd. cbn.
    repeat match goal with
           | |- context [if ?b then _ else _] => destruct b
           | |- context [match ?x with Some _ => _ | None => _ end] =>
               destruct x
           end; reflexivity. }
  split; [exact E|]. split; [intros Hne; contradiction|].
  cbn. lia.
Qed.

(** X19.  [daemonize] returns 0 exactly when [fork] gave 0 (the child)
    and neither [setsid] nor [chdir] failed; it ends the process with
    status 0 exactly when [fork] gave a positive value (the parent), and
    then [fork] is the only call it made; in every other case it returns
    -1.  Whenever the result is not 0, it has closed and redirected
    nothing: every descriptor refers to what it referred to before. *)
Theorem daemonize_outcome (s : Daemon.state) :
  (Daemon.eval Daemon.daemonize s = Daemon.Return 0 <->
   exists sid cd rest,
     Daemon.results s = 0 :: sid :: cd :: rest /\ 0 <= sid /\ 0 <= cd) /\
  (Daemon.eval Daemon.daemonize s = Daemon.Exit EXIT_SUCCESS <->
   0 < Daemon.next_result s) /\
  (0 < Daemon.next_result s ->
   Daemon.calls (Daemon.exec Daemon.daemonize s)
   = Daemon.calls s ++ [Daemon.Fork (Daemon.next_result s)]) /\
  (Daemon.eval Daemon.daemonize s <> Daemon.Return 0 ->
   (Daemon.eval Daemon.daemonize s = Daemon.Return (-1) \/
    Daemon.eval Daemon.daemonize s = Daemon.Exit EXIT_SUCCESS) /\
   forall k, Daemon.descriptors (Daemon.exec Daemon.daemonize s) k
             = Daemon.descriptors s k).
Proof.
  destruct (daemonize_by_results s) as (Hres & Hdesc & Hcalls).
  unfold Daemon.next_result in *.
  assert (Hcases :
    (Daemon.eval Daemon.daemonize s = Daemon.Return 0 /\
     exists sid cd rest,
       Daemon.results s = 0 :: sid :: cd :: rest /\ 0 <= sid /\ 0 <= cd) \/
    (Daemon.eval Daemon.daemonize s = Daemon.Exit EXIT_SUCCESS /\
     0 < match Daemon.results s with [] => -1 | r :: _ => r end) \/
    (Daemon.eval Daemon.daemonize s = Daemon.Return (-1) /\
     ~ 0 < match Daemon.results s with [] => -1 | r :: _ => r end /\
     ~ exists sid cd rest,
         Daemon.results s = 0 :: sid :: cd :: rest /\ 0 <= sid /\ 0 <= cd)).
  { destruct (Daemon.results s) as [|pid rs].
    { right. right. split; [exact Hres|]. split; [lia|].
      intros (? & ? & ? & H & _). discriminate H. }
    destruct (pid <? 0) eqn:Hneg.
    { right. right. split; [exact Hres|]. split; [lia|].
      intros (? & ? & ? & H & _). injection H as -> _. discriminate Hneg. }
    destruct (pid >? 0) eqn:Hpos.
    { right. left. split; [exact Hres | lia]. }
    assert (pid = 0) by lia. subst pid.
    destruct rs as [|sid rs].
    { right. right. split; [exact Hres|]. split; [lia|].
      intros (? & ? & ? & H & _). discriminate H. }
    destruct (sid <? 0) eqn:Hsid.
    { right. right. split; [exact Hres|]. split; [lia|].
      intros (? & ? & ? & H & Hs & _). injection H as <- _. lia. }
    destruct rs as [|cd rs].
    { right. right. split; [exact Hres|]. split; [lia|].
      intros (? & ? & ? & H & _). discriminate H. }
    destruct (cd <? 0) eqn:Hcd.
    { right. right. split; [exact Hres|]. split; [lia|].
      intros (? & ? & ? & H & _ & Hc). injection H as <- <- _. lia. }
    left. split; [exact Hres|]. exists sid, cd, rs. repeat split; lia. }
  destruct Hcases as [[E Hex] | [[E Hpos] | (E & Hnpos & Hnex)]]; rewrite E in *.
  - split; [split; [intros _; exact Hex | reflexivity]|].
    split; [split; [discriminate|]|].
    + intros Hp. destruct Hex as (sid & cd & rest & Hr & _).
      rewrite Hr in Hp. lia.
    + split; [exact Hcalls|]. intros Hne. contradiction.
  - split; [split; [discriminate|]|].
    + intros (sid & cd & rest & Hr & _). rewrite Hr in Hpos. lia.
    + split; [split; [intros _; exact Hpos | reflexivity]|].
      split; [exact Hcalls|]. intros Hne. split; [right; reflexivity|].
      apply Hdesc. exact Hne.
  - split; [split; [discriminate | intros Hex; contradiction]|].
    split; [split; [discriminate | intros Hp; contradiction]|].
    split; [exact Hcalls|]. intros Hne. split; [left; reflexivity|].
    apply Hdesc. exact Hne.
Qed.

Lemma daemonize_outcome_witness :
  Daemon.eval Daemon.daemonize (Daemon.initial_state [0; 5; 0; 3])
    = Daemon.Return 0 /\
  Daemon.eval Daemon.daemonize (Daemon.initial_state [4711])
    = Daemon.Exit EXIT_SUCCESS /\
  Daemon.descriptors
    (Daemon.exec Daemon.daemonize (Daemon.initial_state [0; -1])) 2
    = Some "/dev/tty"%string.
Proof.
  split; [|split].
  - apply (proj1 (daemonize_outcome (Daemon.initial_state [0; 5; 0; 3]))).
    exists 5, 0, [3]. repeat split; lia.
  - apply (proj1 (proj2 (daemonize_outcome (Daemon.initial_state [4711])))).
    reflexivity.
  - destruct (daemonize_outcome (Daemon.initial_state [0; -1]))
      as (_ & _ & _ & H).
    destruct H as [_ Hd]; [vm_compute; discriminate|].
    rewrite Hd. reflexivity.
Defined.

(** X20.  In the child, once [setsid] and [chdir] have succeeded and
    [open] has given a descriptor for [/dev/null], whatever its number,
    the three standard descriptors all refer to [/dev/null] when
    [daemonize] returns, the extra descriptor is closed again when its
    number is above 2, and no other descriptor has changed. *)
Theorem daemonize_redirects_the_standard_descriptors (s : Daemon.state)
    (sid cd nfd : Z) (rest : list Z) :
  Daemon.results s = 0 :: sid :: cd :: nfd :: rest ->
  0 <= sid -> 0 <= cd -> 0 <= nfd ->
  Daemon.eval Daemon.daemonize s = Daemon.Return 0 /\
  Daemon.descriptors (Daemon.exec Daemon.daemonize s) 0 = Some "/dev/null"%string /\
  Daemon.descriptors (Daemon.exec Daemon.daemonize s) 1 = Some "/dev/null"%string /\
  Daemon.descriptors (Daemon.exec Daemon.daemonize s) 2 = Some "/dev/null"%string /\
  (2 < nfd -> Daemon.descriptors (Daemon.exec Daemon.daemonize s) nfd = None) /\
  (forall k, k <> 0 -> k <> 1 -> k <> 2 -> k <> nfd ->
             Daemon.descriptors (Daemon.exec Daemon.daemonize s) k
             = Daemon.descriptors s k).
Proof.
  intros Hr Hsid Hcd Hnfd. destruct s as [pf rs ds cs]. cbn in Hr. subst rs.
  assert (Es : (sid <? 0) = false) by lia.
  assert (Ec : (cd <? 0) = false) by lia.
  assert (En : (nfd <? 0) = false) by lia.
  assert (Ez : (0 <? 0) = false) by reflexivity.
  assert (Ey : (0 >? 0) = false) by reflexivity.
  daemon_unfold. unfold Daemon.STDIN_FILENO, Daemon.STDOUT_FILENO,
    Daemon.STDERR_FILENO.
  repeat (daemon_simpl; rewrite ?Ez, ?Ey, ?Es, ?Ec, ?En).
  destruct (Z.eqb_spec nfd 0) as [->|H0];
    [|destruct (Z.eqb_spec nfd 1) as [->|H1];
      [|destruct (Z.eqb_spec nfd 2) as [->|H2]]].
  1-3: cbn; repeat split; intros; try lia;
       repeat match goal with
              | |- context [?a =? ?b] => destruct (Z.eqb_spec a b); try lia
              end; reflexivity.
  assert (Eg : (nfd >? 2) = true) by lia.
  assert (E0 : (0 =? nfd) = false) by lia.
  assert (E1 : (1 =? nfd) = false) by lia.
  assert (E2 : (2 =? nfd) = false) by lia.
  repeat (daemon_simpl; rewrite ?Eg, ?E0, ?E1, ?E2, ?Z.eqb_refl).
  repeat split; intros; try lia;
    repeat (daemon_simpl; rewrite ?Eg, ?E0, ?E1, ?E2, ?Z.eqb_refl);
    repeat match goal with
           | |- context [?a =? ?b] => destruct (Z.eqb_spec a b); try lia
           end; try reflexivity.
Qed.

Lemma daemonize_redirects_the_standard_descriptors_witness :
  Daemon.descriptors
    (Daemon.exec Daemon.daemonize (Daemon.initial_state [0; 5; 0; 0])) 2
    = Some "/dev/null"%string /\
  Daemon.descriptors
    (Daemon.exec Daemon.daemonize (Daemon.initial_state [0; 5; 0; 7])) 7
    = None.
Proof.
  destruct (daemonize_redirects_the_standard_descriptors
              (Daemon.initial_state [0; 5; 0; 0]) 5 0 0 [] eq_refl)
    as (_ & _ & _ & H2 & _); try lia.
  destruct (daemonize_redirects_the_standard_descriptors
              (Daemon.initial_state [0; 5; 0; 7]) 5 0 7 [] eq_refl)
    as (_ & _ & _ & _ & H7 & _); try lia.
  split; [exact H2 | apply H7; lia].
Defined.

(** X21.  [daemonize] does not look at the result of [open]: when
    [/dev/null] cannot be opened it still returns 0, and the three
    standard descriptors, closed just before, stay closed. *)
Theorem daemonize_ignores_a_failed_open (s : Daemon.state)
    (sid cd nfd : Z) (rest : list Z) :
  Daemon.results s = 0 :: sid :: cd :: nfd :: rest ->
  0 <= sid -> 0 <= cd -> nfd < 0 ->
  Daemon.descriptors s nfd = None ->
  Daemon.eval Daemon.daemonize s = Daemon.Return 0 /\
  Daemon.descriptors (Daemon.exec Daemon.daemonize s) 0 = None /\
  Daemon.descriptors (Daemon.exec Daemon.daemonize s) 1 = None /\
  Daemon.descriptors (Daemon.exec Daemon.daemonize s) 2 = None.
Proof.
  intros Hr Hsid Hcd Hnfd Hclosed. destruct s as [pf rs ds cs].
  cbn in Hr, Hclosed. subst rs.
  assert (Es : (sid <? 0) = false) by lia.
  assert (Ec : (cd <? 0) = false) by lia.
  assert (En : (nfd <? 0) = true) by lia.
  assert (Ez : (0 <? 0) = false) by reflexivity.
  assert (Ey : (0 >? 0) = false) by reflexivity.
  assert (E0 : (nfd =? 0) = false) by lia.
  assert (E1 : (nfd =? 1) = false) by lia.
  assert (E2 : (nfd =? 2) = false) by lia.
  assert (Eg : (nfd >? 2) = false) by lia.
  daemon_unfold. unfold Daemon.STDIN_FILENO, Daemon.STDOUT_FILENO,
    Daemon.STDERR_FILENO.
  repeat (daemon_simpl;
          rewrite ?Ez, ?Ey, ?Es, ?Ec, ?En, ?E0, ?E1, ?E2, ?Eg, ?Hclosed).
  repeat split.
Qed.

Lemma daemonize_ignores_a_failed_open_witness :
  Daemon.eval Daemon.daemonize (Daemon.initial_state [0; 5; 0; -1])
    = Daemon.Return 0 /\
  Daemon.descriptors
    (Daemon.exec Daemon.daemonize (Daemon.initial_state [0; 5; 0; -1])) 2
    = None.
Proof.
  destruct (daemonize_ignores_a_failed_open
              (Daemon.initial_state [0; 5; 0; -1]) 5 0 (-1) [] eq_refl)
    as (He & _ & _ & H2); try lia; [reflexivity|].
  split; assumption.
Defined.

(** ** The PID file *)

Lemma write_pid_file_cases (pid_file : string) (s : Daemon.state) :
  (Daemon.next_result s = 0 ->
   Daemon.write_pid_file pid_file s
   = (-1, {| Daemon.current_pid_file := Daemon.current_pid_file s;
             Daemon.results := tail (Daemon.results s);
             Daemon.descriptors := Daemon.descriptors s;
             Daemon.calls :=
               Daemon.calls s ++
               [Daemon.Fopen pid_file "w" 0;
                Daemon.Syslog LOG_ERR "Failed to open PID file %s, code %d (%s)"
                  [Daemon.DStr pid_file; Daemon.DErrno; Daemon.DStrerror]] |})) /\
  (Daemon.next_result s <> 0 ->
   Daemon.write_pid_file pid_file s
   = (0, {| Daemon.current_pid_file := Some pid_file;
            Daemon.results := tail (tail (Daemon.results s));
            Daemon.descriptors := Daemon.descriptors s;
            Daemon.calls :=
              Daemon.calls s ++
              [Daemon.Fopen pid_file "w" (Daemon.next_result s);
               Daemon.Getpid (hd (-1) (tail (Daemon.results s)));
               Daemon.Fprintf (Daemon.next_result s) ("%d" ++ nl)%string
                 [Daemon.DInt (hd (-1) (tail (Daemon.results s)))];
               Daemon.Fclose (Daemon.next_result s)] |})).
Proof.
  destruct s as [pf rs ds cs]. split; intros H.
  - daemon_unfold. daemon_simpl. unfold Daemon.next_result in H. cbn in H.
    rewrite H. daemon_simpl. cbn [Z.eqb]. rewrite <- app_assoc. reflexivity.
  - daemon_unfold. daemon_simpl. unfold Daemon.next_result in *. cbn in *.
    apply Z.eqb_neq in H. rewrite H. daemon_simpl.
    rewrite <- !app_assoc. cbn [app]. destruct rs as [|r [|r' rs]]; reflexivity.
Qed.

(** X22.  [write_pid_file] remembers the path exactly when it could
    write the file: when [fopen] fails it logs, returns -1 and leaves the
    remembered path as it was, with no write and no close; otherwise it
    writes the process id followed by a newline, closes the file,
    remembers the path and returns 0. *)
Theorem write_pid_file_remembers_on_success (pid_file : string)
    (s : Daemon.state) :
  (Daemon.next_result s = 0 ->
   Daemon.eval (Daemon.write_pid_file pid_file) s = -1 /\
   Daemon.current_pid_file (Daemon.exec (Daemon.write_pid_file pid_file) s)
     = Daemon.current_pid_file s /\
   Daemon.calls (Daemon.exec (Daemon.write_pid_file pid_file) s)
     = Daemon.calls s ++
       [Daemon.Fopen pid_file "w" 0;
        Daemon.Syslog LOG_ERR "Failed to open PID file %s, code %d (%s)"
          [Daemon.DStr pid_file; Daemon.DErrno; Daemon.DStrerror]]) /\
  (Daemon.next_result s <> 0 ->
   Daemon.eval (Daemon.write_pid_file pid_file) s = 0 /\
   Daemon.current_pid_file (Daemon.exec (Daemon.write_pid_file pid_file) s)
     = Some pid_file /\
   exists pid,
     Daemon.calls (Daemon.exec (Daemon.write_pid_file pid_file) s)
     = Daemon.calls s ++
       [Daemon.Fopen pid_file "w" (Daemon.next_result s);
        Daemon.Getpid pid;
        Daemon.Fprintf (Daemon.next_result s) ("%d" ++ nl)%string
          [Daemon.DInt pid];
        Daemon.Fclose (Daemon.next_result s)]).
Proof.
  destruct (write_pid_file_cases pid_file s) as [Hfail Hok].
  split; intros H; unfold Daemon.eval, Daemon.exec.
  - rewrite (Hfail H). repeat split.
  - rewrite (Hok H). repeat split. eexists. reflexivity.
Qed.

Lemma write_pid_file_remembers_on_success_witness :
  Daemon.current_pid_file
    (Daemon.exec (Daemon.write_pid_file "/tmp/fw.pid")
       (Daemon.initial_state [0])) = None /\
  Daemon.current_pid_file
    (Daemon.exec (Daemon.write_pid_file "/tmp/fw.pid")
       (Daemon.initial_state [140; 4711])) = Some "/tmp/fw.pid"%string.
Proof.
  destruct (write_pid_file_remembers_on_success "/tmp/fw.pid"
              (Daemon.initial_state [0])) as [H1 _].
  destruct (write_pid_file_remembers_on_success "/tmp/fw.pid"
              (Daemon.initial_state [140; 4711])) as [_ H2].
  split.
  - destruct H1 as (_ & H & _); [reflexivity | exact H].
  - destruct H2 as (_ & H & _); [discriminate | exact H].
Defined.

Lemma signal_handler_terminating (sig : Z) (s : Daemon.state) :
  sig = Daemon.SIGTERM \/ sig = Daemon.SIGINT ->
  Daemon.eval (Daemon.signal_handler sig) s = Daemon.Exit EXIT_SUCCESS /\
  Daemon.unlink_requests (Daemon.calls (Daemon.exec (Daemon.signal_handler sig) s))
  = Daemon.unlink_requests (Daemon.calls s) ++
    match Daemon.current_pid_file s with
    | Some p => [p]
    | None => []
    end.
Proof.
  intros Hsig.
  assert (E : (sig =? Daemon.SIGTERM) || (sig =? Daemon.SIGINT) = true).
  { destruct Hsig as [-> | ->]; reflexivity. }
  destruct s as [pf rs ds cs].
  daemon_unfold. rewrite E. daemon_simpl.
  assert (U : forall l1 l2, Daemon.unlink_requests (l1 ++ l2)
                            = Daemon.unlink_requests l1 ++ Daemon.unlink_requests l2)
    by (intros; apply flat_map_app).
  destruct pf as [p|]; daemon_simpl.
  - destruct (_ <? 0); daemon_simpl; split; try reflexivity;
      rewrite !U; cbn; rewrite ?app_nil_r; reflexivity.
  - split; [reflexivity|]. rewrite !U. cbn. rewrite !app_nil_r. reflexivity.
Qed.

(** X23.  After [write_pid_file] has succeeded for a path, the handler
    of a termination signal (SIGTERM or SIGINT) asks to unlink exactly
    that path and ends the process with status 0.  After it has failed in
    a process that has no PID file yet, the handler unlinks nothing. *)
Theorem termination_removes_the_written_pid_file (sig : Z)
    (pid_file : string) (s : Daemon.state) :
  sig = Daemon.SIGTERM \/ sig = Daemon.SIGINT ->
  Daemon.eval (Daemon.signal_handler sig)
    (Daemon.exec (Daemon.write_pid_file pid_file) s)
  = Daemon.Exit EXIT_SUCCESS /\
  (Daemon.eval (Daemon.write_pid_file pid_file) s = 0 ->
   Daemon.unlink_requests
     (Daemon.calls (Daemon.exec (Daemon.signal_handler sig)
                      (Daemon.exec (Daemon.write_pid_file pid_file) s)))
   = Daemon.unlink_requests (Daemon.calls s) ++ [pid_file]) /\
  (Daemon.eval (Daemon.write_pid_file pid_file) s <> 0 ->
   Daemon.current_pid_file s = None ->
   Daemon.unlink_requests
     (Daemon.calls (Daemon.exec (Daemon.signal_handler sig)
                      (Daemon.exec (Daemon.write_pid_file pid_file) s)))
   = Daemon.unlink_requests (Daemon.calls s)).
Proof.
  intros Hsig.
  destruct (signal_handler_terminating sig
              (Daemon.exec (Daemon.write_pid_file pid_file) s) Hsig)
    as [He Hu].
  split; [exact He|].
  destruct (write_pid_file_cases pid_file s) as [Hfail Hok].
  assert (U : forall l1 l2, Daemon.unlink_requests (l1 ++ l2)
                            = Daemon.unlink_requests l1 ++ Daemon.unlink_requests l2)
    by (intros; apply flat_map_app).
  destruct (Z.eq_dec (Daemon.next_result s) 0) as [Hz|Hnz].
  - specialize (Hfail Hz). unfold Daemon.eval, Daemon.exec in *.
    rewrite Hfail in *. cbn [fst snd] in *. split; [discriminate|].
    intros _ Hnone. rewrite Hu. cbn. rewrite Hnone, U. cbn.
    rewrite !app_nil_r. reflexivity.
  - specialize (Hok Hnz). unfold Daemon.eval, Daemon.exec in *.
    rewrite Hok in *. cbn [fst snd] in *. split; [|intros H; contradiction].
    intros _. rewrite Hu. cbn. rewrite U. cbn. rewrite app_nil_r. reflexivity.
Qed.

Lemma termination_removes_the_written_pid_file_witness :
  Daemon.unlink_requests
    (Daemon.calls (Daemon.exec (Daemon.signal_handler Daemon.SIGTERM)
                     (Daemon.exec (Daemon.write_pid_file "/tmp/fw.pid")
                        (Daemon.initial_state [140; 4711; 0]))))
  = ["/tmp/fw.pid"%string].
Proof.
  destruct (termination_removes_the_written_pid_file Daemon.SIGTERM
              "/tmp/fw.pid" (Daemon.initial_state [140; 4711; 0])
              (or_introl eq_refl)) as (_ & H & _).
  apply H. reflexivity.
Defined.

(** X24.  Any signal other than SIGTERM and SIGINT leaves the process
    running: the handler returns, unlinks nothing, forgets nothing and
    touches no descriptor; SIGHUP leaves one notice in the system log and
    every other signal leaves no trace at all. *)
Theorem other_signals_leave_the_daemon_running (sig : Z) (s : Daemon.state) :
  sig <> Daemon.SIGTERM -> sig <> Daemon.SIGINT ->
  Daemon.signal_handler sig s
  = (Daemon.Return tt,
     {| Daemon.current_pid_file := Daemon.current_pid_file s;
        Daemon.results := Daemon.results s;
        Daemon.descriptors := Daemon.descriptors s;
        Daemon.calls :=
          Daemon.calls s ++
          if sig =? Daemon.SIGHUP
          then [Daemon.Syslog Daemon.LOG_NOTICE
                  "Received SIGHUP, reloading configuration..." []]
          else [] |}).
Proof.
  intros Ht Hi. apply Z.eqb_neq in Ht, Hi.
  destruct s as [pf rs ds cs]. daemon_unfold. rewrite Ht, Hi. cbn [orb].
  destruct (sig =? Daemon.SIGHUP); daemon_simpl;
    rewrite ?app_nil_r; reflexivity.
Qed.

Lemma other_signals_leave_the_daemon_running_witness :
  Daemon.eval (Daemon.signal_handler Daemon.SIGHUP)
    (Daemon.exec (Daemon.write_pid_file "/tmp/fw.pid")
       (Daemon.initial_state [140; 4711; 0]))
  = Daemon.Return tt.
Proof.
  unfold Daemon.eval.
  rewrite (other_signals_leave_the_daemon_running Daemon.SIGHUP
             (Daemon.exec (Daemon.write_pid_file "/tmp/fw.pid")
                (Daemon.initial_state [140; 4711; 0])));
    [reflexivity | discriminate | discriminate].
Defined.

(** ** The daemon block of [main] and the end of the daemon *)

Lemma keeps_ret {X A} (f : Daemon.call -> list X) (a : A) :
  Daemon.keeps f (Daemon.ret a).
Proof. intros s. reflexivity. Qed.

Lemma keeps_bind {X A B} (f : Daemon.call -> list X)
    (c : Daemon.DM A) (k : A -> Daemon.DM B) :
  Daemon.keeps f c -> (forall a, Daemon.keeps f (k a)) ->
  Daemon.keeps f (Daemon.bind c k).
Proof.
  intros Hc Hk s. unfold Daemon.bind. specialize (Hc s).
  destruct (c s) as [a s1]. cbn in Hc. rewrite (Hk a s1). exact Hc.
Qed.

Lemma keeps_record {X} (f : Daemon.call -> list X) (c : Daemon.call) :
  f c = [] -> Daemon.keeps f (Daemon.record c).
Proof.
  intros H s. cbn. rewrite flat_map_app. cbn. rewrite H, !app_nil_r.
  reflexivity.
Qed.

Lemma keeps_ask {X} (f : Daemon.call -> list X) (c : Z -> Daemon.call) :
  (forall r, f (c r) = []) -> Daemon.keeps f (Daemon.ask c).
Proof.
  intros H s. cbn. rewrite flat_map_app. cbn. rewrite H, !app_nil_r.
  reflexivity.
Qed.

Lemma keeps_update {X} (f : Daemon.call -> list X)
    (g : Daemon.state -> Daemon.state) :
  (forall s, Daemon.calls (g s) = Daemon.calls s) ->
  Daemon.keeps f (fun s => (tt, g s)).
Proof. intros H s. cbn. rewrite H. reflexivity. Qed.

Lemma keeps_get {X A} (f : Daemon.call -> list X) (p : Daemon.state -> A) :
  Daemon.keeps f (Daemon.get p).
Proof. intros s. reflexivity. Qed.

Ltac keeps_steps :=
  repeat first
    [ apply keeps_ret
    | apply keeps_get
    | apply keeps_record; reflexivity
    | apply keeps_ask; intros; reflexivity
    | apply keeps_update; intros [? ? ? ?]; cbn;
      try match goal with
          | |- context [match ?x with Some _ => _ | None => _ end] =>
              destruct x
          end; reflexivity
    | apply keeps_bind; [|intros]
    | match goal with
      | |- Daemon.keeps _ (if ?b then _ else _) => destruct b
      | |- Daemon.keeps _ (match ?x with _ => _ end) => destruct x
      end
    | progress unfold Daemon.when, Daemon.syslog, Daemon.close, Daemon.open,
        Daemon.dup2, Daemon.remove_pid_file ].

(** [daemonize] and [write_pid_file] install no handler and unlink
    nothing. *)
Lemma keeps_daemonize_handlers :
  Daemon.keeps (fun c => match c with Daemon.Sigaction n => [n] | _ => [] end)
    Daemon.daemonize.
Proof. unfold Daemon.daemonize. keeps_steps. Qed.

Lemma keeps_main_daemon_unlinks (pid_file : string) :
  Daemon.keeps (fun c => match c with Daemon.Unlink p _ => [p] | _ => [] end)
    (Daemon.main_daemon pid_file).
Proof.
  unfold Daemon.main_daemon, Daemon.daemonize, Daemon.write_pid_file,
    Daemon.setup_daemon_signal_handlers.
  keeps_steps.
Qed.

Lemma daemonize_exit_or_return (s : Daemon.state) :
  match Daemon.eval Daemon.daemonize s with
  | Daemon.Exit st => st = EXIT_SUCCESS /\ 0 < Daemon.next_result s
  | Daemon.Return v => ~ 0 < Daemon.next_result s /\ (v = 0 \/ v = -1)
  end.
Proof.
  destruct (daemonize_by_results s) as (Hres & _ & _).
  unfold Daemon.next_result.
  destruct (Daemon.results s) as [|pid rs]; [rewrite Hres; split; [lia|auto]|].
  destruct (pid <? 0) eqn:Hneg; [rewrite Hres; split; [lia|auto]|].
  destruct (pid >? 0) eqn:Hpos; [rewrite Hres; split; [reflexivity|lia]|].
  destruct rs as [|sid rs]; [rewrite Hres; split; [lia|auto]|].
  destruct (sid <? 0); [rewrite Hres; split; [lia|auto]|].
  destruct rs as [|cd rs]; [rewrite Hres; split; [lia|auto]|].
  destruct (cd <? 0); rewrite Hres; split; first [lia|auto].
Qed.

(** The ways through the daemon block: what [daemonize] gave, then what
    [write_pid_file] gave. *)
Lemma main_daemon_by_steps (pid_file : string) (s : Daemon.state) :
  let s1 := Daemon.exec Daemon.daemonize s in
  match Daemon.eval Daemon.daemonize s with
  | Daemon.Exit st =>
      Daemon.main_daemon pid_file s = (Daemon.Exit st, s1)
  | Daemon.Return v =>
      if v <? 0 then
        Daemon.main_daemon pid_file s
        = (Daemon.Exit EXIT_FAILURE,
           Daemon.exec
             (Daemon.record
                (Daemon.Fprintf_stderr ("Failed to daemonize" ++ nl) [])) s1)
      else if Daemon.next_result s1 =? 0 then
        Daemon.main_daemon pid_file s
        = (Daemon.Exit EXIT_FAILURE,
           Daemon.exec (Daemon.syslog LOG_ERR "Failed to write PID file" [])
             (Daemon.exec (Daemon.write_pid_file pid_file) s1))
      else
        Daemon.main_daemon pid_file s
        = (Daemon.Return tt,
           Daemon.exec Daemon.setup_daemon_signal_handlers
             (Daemon.exec (Daemon.write_pid_file pid_file) s1))
  end.
Proof.
  unfold Daemon.eval, Daemon.exec, Daemon.main_daemon at 1 2 3 4, Daemon.bind.
  destruct (Daemon.daemonize s) as [[v|st] s1]; cbn [fst snd]; [|reflexivity].
  destruct (v <? 0); [reflexivity|].
  destruct (write_pid_file_cases pid_file s1) as [Hfail Hok].
  destruct (Z.eqb_spec (Daemon.next_result s1) 0) as [Hz|Hnz].
  - rewrite (Hfail Hz). reflexivity.
  - rewrite (Hok Hnz). reflexivity.
Qed.

(** X25.  The daemon block of [main] goes on only after the PID file
    has been written and its path remembered, and by then it has asked
    for the handler of SIGTERM, SIGINT and SIGHUP, in that order.  In
    every other case it ends the process without having asked for any
    handler: with status 0 in the parent of the fork, with status 1
    when [daemonize] or [write_pid_file] failed. *)
Theorem daemon_block_installs_handlers_last (pid_file : string)
    (s : Daemon.state) :
  match Daemon.eval (Daemon.main_daemon pid_file) s with
  | Daemon.Return _ =>
      Daemon.handled_signals
        (Daemon.calls (Daemon.exec (Daemon.main_daemon pid_file) s))
      = Daemon.handled_signals (Daemon.calls s)
        ++ [Daemon.SIGTERM; Daemon.SIGINT; Daemon.SIGHUP] /\
      Daemon.current_pid_file (Daemon.exec (Daemon.main_daemon pid_file) s)
      = Some pid_file
  | Daemon.Exit status =>
      Daemon.handled_signals
        (Daemon.calls (Daemon.exec (Daemon.main_daemon pid_file) s))
      = Daemon.handled_signals (Daemon.calls s) /\
      (status = EXIT_SUCCESS /\ 0 < Daemon.next_result s \/
       status = EXIT_FAILURE /\ ~ 0 < Daemon.next_result s)
  end.
Proof.
  pose proof (main_daemon_by_steps pid_file s) as Hm.
  pose proof (daemonize_exit_or_return s) as Hd.
  pose proof (keeps_daemonize_handlers s) as Hk.
  fold (Daemon.exec Daemon.daemonize s) in Hk.
  cbv zeta in Hm.
  set (s1 := Daemon.exec Daemon.daemonize s) in *.
  assert (U : forall l1 l2,
             Daemon.handled_signals (l1 ++ l2)
             = Daemon.handled_signals l1 ++ Daemon.handled_signals l2)
    by (intros; apply flat_map_app).
  fold (Daemon.handled_signals (Daemon.calls s1)) in Hk.
  fold (Daemon.handled_signals (Daemon.calls s)) in Hk.
  destruct (Daemon.eval Daemon.daemonize s) as [v|st].
  - destruct Hd as [Hn Hv].
    destruct (v <? 0).
    { unfold Daemon.eval, Daemon.exec. rewrite Hm. cbn [fst snd].
      split; [|right; split; [reflexivity | exact Hn]].
      cbn. rewrite U, Hk. cbn. apply app_nil_r. }
    destruct (write_pid_file_cases pid_file s1) as [Hfail Hok].
    destruct (Z.eqb_spec (Daemon.next_result s1) 0) as [Hz|Hnz].
    + unfold Daemon.eval, Daemon.exec. rewrite Hm. cbn [fst snd].
      split; [|right; split; [reflexivity | exact Hn]].
      unfold Daemon.exec. rewrite (Hfail Hz). cbn.
      rewrite !U, Hk. cbn. rewrite !app_nil_r. reflexivity.
    + unfold Daemon.eval, Daemon.exec. rewrite Hm. cbn [fst snd].
      unfold Daemon.exec. rewrite (Hok Hnz). cbn.
      split; [|reflexivity].
      rewrite !U, Hk. cbn. rewrite !app_nil_r, <- !app_assoc. reflexivity.
  - destruct Hd as [-> Hp].
    unfold Daemon.eval, Daemon.exec. rewrite Hm. cbn [fst snd].
    split; [exact Hk | left; split; [reflexivity | exact Hp]].
Qed.

(** What the daemon block has done when [main] goes on after it. *)
Lemma main_daemon_started (pid_file : string) (s : Daemon.state) :
  Daemon.eval (Daemon.main_daemon pid_file) s = Daemon.Return tt ->
  Daemon.current_pid_file (Daemon.exec (Daemon.main_daemon pid_file) s)
  = Some pid_file /\
  Daemon.handled_signals
    (Daemon.calls (Daemon.exec (Daemon.main_daemon pid_file) s))
  = Daemon.handled_signals (Daemon.calls s)
    ++ [Daemon.SIGTERM; Daemon.SIGINT; Daemon.SIGHUP].
Proof.
  intros Hret.
  pose proof (main_daemon_by_steps pid_file s) as Hm.
  pose proof (keeps_daemonize_handlers s) as Hk.
  fold (Daemon.exec Daemon.daemonize s) in Hk.
  cbv zeta in Hm.
  set (s1 := Daemon.exec Daemon.daemonize s) in *.
  assert (U : forall l1 l2,
             Daemon.handled_signals (l1 ++ l2)
             = Daemon.handled_signals l1 ++ Daemon.handled_signals l2)
    by (intros; apply flat_map_app).
  fold (Daemon.handled_signals (Daemon.calls s1)) in Hk.
  fold (Daemon.handled_signals (Daemon.calls s)) in Hk.
  unfold Daemon.eval in Hret.
  destruct (Daemon.eval Daemon.daemonize s) as [v|st];
    [|rewrite Hm in Hret; discriminate].
  destruct (v <? 0); [rewrite Hm in Hret; discriminate|].
  destruct (write_pid_file_cases pid_file s1) as [_ Hok].
  destruct (Z.eqb_spec (Daemon.next_result s1) 0) as [Hz|Hnz];
    [rewrite Hm in Hret; discriminate|].
  unfold Daemon.exec at 1 2. rewrite Hm. cbn [fst snd].
  unfold Daemon.exec. rewrite (Hok Hnz). cbn.
  split; [reflexivity|].
  rewrite !U, Hk. cbn. rewrite !app_nil_r, <- !app_assoc. reflexivity.
Qed.

(** X26.  A daemon that got through its start-up block has a handler
    for SIGTERM, SIGINT and SIGHUP and for no other signal.  On SIGTERM or
    SIGINT it ends with status 0, having asked to unlink its PID file and
    no other file; the exit runs [cleanup], which asks the kernel to
    remove the handle of every occupied slot, in slot order.  On SIGHUP
    the handler returns: nothing is unlinked and the globals of the
    watcher are untouched.  For any other signal no code of the program
    runs, neither the handler nor [cleanup]: the kernel takes the default
    action of the signal, and the PID file stays. *)
Theorem signalled_daemon_shuts_down (sig : Z) (pid_file : string)
    (s : Daemon.state) (w : world) :
  Daemon.handled_signals (Daemon.calls s) = [] ->
  Daemon.eval (Daemon.main_daemon pid_file) s = Daemon.Return tt ->
  let started := Daemon.exec (Daemon.main_daemon pid_file) s in
  (sig = Daemon.SIGTERM \/ sig = Daemon.SIGINT ->
   exists s' w',
     deliver_signal sig started w = (Exited EXIT_SUCCESS, s', w') /\
     Daemon.unlink_requests (Daemon.calls s')
     = Daemon.unlink_requests (Daemon.calls s) ++ [pid_file] /\
     rm_watch_requests (trace w')
     = rm_watch_requests (trace w) ++ live_handles w) /\
  (sig = Daemon.SIGHUP ->
   exists s',
     deliver_signal sig started w = (Handler_returned, s', w) /\
     Daemon.unlink_requests (Daemon.calls s')
     = Daemon.unlink_requests (Daemon.calls s) /\
     Daemon.current_pid_file s' = Some pid_file) /\
  (sig <> Daemon.SIGTERM -> sig <> Daemon.SIGINT -> sig <> Daemon.SIGHUP ->
   deliver_signal sig started w = (Default_action sig, started, w)).
Proof.
  intros Hnone Hret started.
  destruct (main_daemon_started pid_file s Hret) as [Hpf Hh].
  fold started in Hpf, Hh. rewrite Hnone in Hh. cbn [app] in Hh.
  pose proof (keeps_main_daemon_unlinks pid_file s) as Hk.
  fold (Daemon.exec (Daemon.main_daemon pid_file) s) in Hk.
  fold started in Hk.
  split; [|split].
  - intros Hsig.
    destruct (signal_handler_terminating sig started Hsig) as [He Hu].
    unfold deliver_signal. rewrite Hh.
    assert (Hin : existsb (Z.eqb sig)
                    [Daemon.SIGTERM; Daemon.SIGINT; Daemon.SIGHUP] = true)
      by (destruct Hsig as [-> | ->]; reflexivity).
    rewrite Hin.
    unfold Daemon.eval, Daemon.exec in He, Hu.
    destruct (Daemon.signal_handler sig started) as [r s'].
    cbn [fst snd] in He, Hu. subst r.
    exists s', (exec cleanup w). split; [reflexivity|].
    split.
    + rewrite Hu, Hpf. unfold Daemon.unlink_requests at 1. rewrite Hk.
      reflexivity.
    + unfold exec. rewrite cleanup_emits. cbn.
      rewrite rm_watch_requests_app, rm_watch_requests_cleanup. reflexivity.
  - intros ->. unfold deliver_signal. rewrite Hh.
    cbn [existsb Z.eqb Daemon.SIGHUP Daemon.SIGTERM Daemon.SIGINT orb
         Pos.eqb].
    destruct started as [pf rs ds cs] eqn:Es. cbn in Hpf, Hk.
    eexists. split; [reflexivity|]. cbn. split; [|exact Hpf].
    unfold Daemon.unlink_requests in *. rewrite flat_map_app, Hk. cbn.
    apply app_nil_r.
  - intros Ht Hi Hu. unfold deliver_signal. rewrite Hh.
    apply Z.eqb_neq in Ht, Hi, Hu.
    cbn [existsb]. rewrite Ht, Hi, Hu. reflexivity.
Qed.

Lemma signalled_daemon_shuts_down_witness :
  (exists s' w',
     deliver_signal Daemon.SIGINT
       (Daemon.exec (Daemon.main_daemon "/tmp/fw.pid")
          (Daemon.initial_state [0; 5; 0; 3; 140; 4711; 0]))
       (snd (add_watch "/srv/in" (set_fd 3 (initial_world 1 0 [] [1]))))
     = (Exited EXIT_SUCCESS, s', w') /\
     Daemon.unlink_requests (Daemon.calls s') = ["/tmp/fw.pid"%string] /\
     rm_watch_requests (trace w') = [1]) /\
  deliver_signal 3
    (Daemon.exec (Daemon.main_daemon "/tmp/fw.pid")
       (Daemon.initial_state [0; 5; 0; 3; 140; 4711; 0]))
    (snd (add_watch "/srv/in" (set_fd 3 (initial_world 1 0 [] [1]))))
  = (Default_action 3,
     Daemon.exec (Daemon.main_daemon "/tmp/fw.pid")
       (Daemon.initial_state [0; 5; 0; 3; 140; 4711; 0]),
     snd (add_watch "/srv/in" (set_fd 3 (initial_world 1 0 [] [1])))).
Proof.
  split.
  - destruct (signalled_daemon_shuts_down Daemon.SIGINT "/tmp/fw.pid"
                (Daemon.initial_state [0; 5; 0; 3; 140; 4711; 0])
                (snd (add_watch "/srv/in"
                        (set_fd 3 (initial_world 1 0 [] [1]))))
                eq_refl eq_refl) as [H _].
    destruct (H (or_intror eq_refl)) as (s' & w' & Hd & Hu & Hr).
    exists s', w'. split; [exact Hd|]. split; [exact Hu | exact Hr].
  - destruct (signalled_daemon_shuts_down 3 "/tmp/fw.pid"
                (Daemon.initial_state [0; 5; 0; 3; 140; 4711; 0])
                (snd (add_watch "/srv/in"
                        (set_fd 3 (initial_world 1 0 [] [1]))))
                eq_refl eq_refl) as (_ & _ & H).
    apply H; discriminate.
Defined.

(** ** The start of [main] with its daemon block *)

Lemma main_setup_split (filesystem : string -> option fs_tree) (init_fd : Z)
    (watch_path : string) (w : world) :
  main_setup filesystem init_fd watch_path w
  = main_inotify filesystem init_fd watch_path (exec main_callbacks w).
Proof.
  unfold main_setup, main_inotify, main_callbacks, exec, bind.
  destruct (register_callback IN_CREATE None on_file_created w) as [a w1].
  destruct (register_callback IN_DELETE None on_file_deleted w1) as [b w2].
  destruct (register_callback IN_MODIFY None on_file_modified w2) as [c w3].
  reflexivity.
Qed.

Lemma channel_main_callbacks (d : Z) :
  respects (channel_step d) main_callbacks.
Proof.
  unfold main_callbacks.
  repeat first [ apply channel_register_callback
               | apply respects_bind; [exact _ | | intros _] ].
Qed.

(** The status with which the daemon block ends the process. *)
Lemma main_daemon_exit_status (pid_file : string) (s : Daemon.state)
    (status : Z) :
  Daemon.eval (Daemon.main_daemon pid_file) s = Daemon.Exit status ->
  status = EXIT_SUCCESS /\ 0 < Daemon.next_result s \/
  status = EXIT_FAILURE /\ ~ 0 < Daemon.next_result s.
Proof.
  pose proof (main_daemon_by_steps pid_file s) as Hm.
  pose proof (daemonize_exit_or_return s) as Hd.
  cbv zeta in Hm. unfold Daemon.eval at 1.
  destruct (Daemon.eval Daemon.daemonize s) as [v|st].
  - destruct Hd as [Hn _].
    destruct (v <? 0);
      [rewrite Hm; cbn; intros [= <-]; right; split; [reflexivity|exact Hn]|].
    destruct (Daemon.next_result (Daemon.exec Daemon.daemonize s) =? 0);
      rewrite Hm; cbn; [|discriminate].
    intros [= <-]. right. split; [reflexivity | exact Hn].
  - destruct Hd as [-> Hp]. rewrite Hm. cbn. intros [= <-].
    left. split; [reflexivity | exact Hp].
Qed.

Lemma keeps_daemonize_stderr :
  Daemon.keeps
    (fun c => match c with Daemon.Fprintf_stderr _ _ => [c] | _ => [] end)
    Daemon.daemonize.
Proof. unfold Daemon.daemonize. keeps_steps. Qed.

(** The one line the daemon block writes to standard error. *)
Lemma main_daemon_stderr (pid_file : string) (s : Daemon.state) :
  Daemon.stderr_output
    (Daemon.calls (Daemon.exec (Daemon.main_daemon pid_file) s))
  = Daemon.stderr_output (Daemon.calls s)
    ++ match Daemon.eval Daemon.daemonize s with
       | Daemon.Return v =>
           if v <? 0
           then [Daemon.Fprintf_stderr ("Failed to daemonize" ++ nl) []]
           else []
       | Daemon.Exit _ => []
       end.
Proof.
  pose proof (main_daemon_by_steps pid_file s) as Hm.
  pose proof (keeps_daemonize_stderr s) as Hk.
  fold (Daemon.exec Daemon.daemonize s) in Hk.
  cbv zeta in Hm.
  set (s1 := Daemon.exec Daemon.daemonize s) in *.
  assert (U : forall l1 l2,
             Daemon.stderr_output (l1 ++ l2)
             = Daemon.stderr_output l1 ++ Daemon.stderr_output l2)
    by (intros; apply flat_map_app).
  fold (Daemon.stderr_output (Daemon.calls s1)) in Hk.
  fold (Daemon.stderr_output (Daemon.calls s)) in Hk.
  unfold Daemon.exec at 1.
  destruct (Daemon.eval Daemon.daemonize s) as [v|st].
  - destruct (v <? 0).
    { rewrite Hm. cbn. rewrite U, Hk. reflexivity. }
    destruct (write_pid_file_cases pid_file s1) as [Hfail Hok].
    destruct (Z.eqb_spec (Daemon.next_result s1) 0) as [Hz|Hnz].
    + rewrite Hm. cbn [snd]. unfold Daemon.exec. rewrite (Hfail Hz). cbn.
      rewrite !U, Hk. cbn. rewrite !app_nil_r. reflexivity.
    + rewrite Hm. cbn [snd]. unfold Daemon.exec. rewrite (Hok Hnz). cbn.
      rewrite !U, Hk. cbn. rewrite !app_nil_r. reflexivity.
  - rewrite Hm. cbn [snd]. rewrite Hk, app_nil_r. reflexivity.
Qed.

(** The start of [main] keeps the mode flag and writes nothing of the
    watcher's own to the wrong channel, however it ends. *)
Lemma channel_main_start (filesystem : string -> option fs_tree)
    (pid_file : string) (init_fd : Z) (watch_path : string) (w : world)
    (s : Daemon.state) :
  channel_step (daemon_mode w) w
    (snd (fst (main_start filesystem pid_file init_fd watch_path w s))).
Proof.
  pose proof (channel_main_setup (daemon_mode w) filesystem init_fd
                watch_path w) as Hs.
  rewrite main_setup_split in Hs.
  unfold main_start. cbv zeta.
  destruct (truthy (daemon_mode (exec main_callbacks w))); [|exact Hs].
  destruct (Daemon.main_daemon pid_file s) as [[u|status] s']; [exact Hs|].
  cbn [fst snd].
  apply (frame_trans _ (exec main_callbacks w)).
  - apply channel_main_callbacks.
  - apply channel_cleanup.
Qed.

(** X13.  Once the arguments are parsed, [main] ends the process before
    its event loop in these cases and no other.  In daemon mode the
    daemon block comes first: the parent of the fork exits with status 0,
    and a failed [daemonize] or [write_pid_file] exits with status 1; in
    each of these [inotify_init] was never called, and the clean-up run
    at exit only hands the three null patterns to [free].  Outside daemon
    mode, and in a daemon that got through its block, the process exits
    with status 1 exactly when [inotify_init] failed or the kernel
    refused the watch on the root, and reaches the event loop
    otherwise. *)
Theorem main_start_exit_status
    (filesystem : string -> option fs_tree) (pid_file : string)
    (init_fd daemon recursive : Z) (pats : list string) (replies : list Z)
    (watch_path : string) (s : Daemon.state) :
  let w0 := initial_world daemon recursive pats replies in
  let r := main_start filesystem pid_file init_fd watch_path w0 s in
  let setup :=
    if (init_fd <? 0) || (hd (-1) replies <? 0) then Some 1 else None in
  (daemon = 0 -> fst (fst r) = setup /\ snd r = s) /\
  (daemon <> 0 ->
   match Daemon.eval (Daemon.main_daemon pid_file) s with
   | Daemon.Exit status =>
       fst (fst r) = Some status /\
       (status = EXIT_SUCCESS /\ 0 < Daemon.next_result s \/
        status = EXIT_FAILURE /\ ~ 0 < Daemon.next_result s) /\
       trace (snd (fst r)) = [Free NULL; Free NULL; Free NULL] /\
       fd (snd (fst r)) = -1
   | Daemon.Return _ => fst (fst r) = setup
   end /\
   snd r = Daemon.exec (Daemon.main_daemon pid_file) s).
Proof.
  intros w0 r setup.
  destruct (main_setup_outcome filesystem init_fd daemon recursive pats
              replies watch_path) as [Hev _].
  fold w0 in Hev. unfold eval in Hev. rewrite main_setup_split in Hev.
  fold setup in Hev.
  assert (Hdm : daemon_mode (exec main_callbacks w0) = daemon)
    by reflexivity.
  subst r. unfold main_start. cbv zeta. rewrite Hdm. unfold truthy.
  split; intros Hd.
  - apply Z.eqb_eq in Hd. rewrite Hd. cbn [negb fst snd].
    split; [exact Hev | reflexivity].
  - apply Z.eqb_neq in Hd. rewrite Hd. cbn [negb].
    pose proof (main_daemon_exit_status pid_file s) as Hst.
    unfold Daemon.eval, Daemon.exec in *.
    destruct (Daemon.main_daemon pid_file s) as [[u|status] s'];
      cbn [fst snd] in *.
    + split; [exact Hev | reflexivity].
    + split; [|reflexivity].
      split; [reflexivity|]. split; [exact (Hst status eq_refl)|].
      split; reflexivity.
Qed.

Lemma main_start_exit_status_witness :
  fst (fst (main_start (fun _ => None) "/tmp/fw.pid" 3 "/srv/in"
              (initial_world 1 0 [] [1])
              (Daemon.initial_state [4711]))) = Some EXIT_SUCCESS /\
  fst (fst (main_start (fun _ => None) "/tmp/fw.pid" 3 "/srv/in"
              (initial_world 1 0 [] [1])
              (Daemon.initial_state [-1]))) = Some EXIT_FAILURE /\
  fst (fst (main_start (fun _ => None) "/tmp/fw.pid" 3 "/srv/in"
              (initial_world 1 0 [] [1])
              (Daemon.initial_state [0; 5; 0; 3; 140; 4711; 0]))) = None /\
  fst (fst (main_start (fun _ => None) "/tmp/fw.pid" 3 "/srv/in"
              (initial_world 0 0 [] [-1])
              (Daemon.initial_state []))) = Some 1.
Proof.
  split; [|split; [|split]].
  - destruct (main_start_exit_status (fun _ => None) "/tmp/fw.pid" 3 1 0 []
                [1] "/srv/in" (Daemon.initial_state [4711])) as [_ H].
    destruct (H ltac:(discriminate)) as [(H1 & _) _]. exact H1.
  - destruct (main_start_exit_status (fun _ => None) "/tmp/fw.pid" 3 1 0 []
                [1] "/srv/in" (Daemon.initial_state [-1])) as [_ H].
    destruct (H ltac:(discriminate)) as [(H1 & _) _]. exact H1.
  - destruct (main_start_exit_status (fun _ => None) "/tmp/fw.pid" 3 1 0 []
                [1] "/srv/in"
                (Daemon.initial_state [0; 5; 0; 3; 140; 4711; 0])) as [_ H].
    destruct (H ltac:(discriminate)) as [H1 _]. exact H1.
  - destruct (main_start_exit_status (fun _ => None) "/tmp/fw.pid" 3 0 0 []
                [-1] "/srv/in" (Daemon.initial_state [])) as [H _].
    destruct (H eq_refl) as [H1 _]. exact H1.
Defined.

(** X12.  Each mode has its channel.  From the start of [main] on,
    through the daemon block, the set-up of the watches and any sequence
    of installs, recursive installs, event records and releases, a
    console process writes nothing to the system log and calls none of
    the daemon helpers.  In daemon mode the watcher's own code writes
    nothing to standard output or standard error, and the daemon block
    writes to standard error once at most: the line [Failed to daemonize],
    when [daemonize] failed, after which the process exits with status 1.
    The mode flag itself never changes. *)
Theorem channels_by_mode
    (fnmatch : string -> string -> Z -> Z)
    (filesystem : string -> option fs_tree) (pid_file : string)
    (init_fd : Z) (watch_path : string) (ops : list op) (w : world)
    (s : Daemon.state) :
  let r := main_start filesystem pid_file init_fd watch_path w s in
  let w' := exec (run_ops fnmatch ops) (snd (fst r)) in
  daemon_mode w' = daemon_mode w /\
  (daemon_mode w = 0 ->
   syslog_output (trace w') = syslog_output (trace w) /\ snd r = s) /\
  (daemon_mode w <> 0 ->
   console_output (trace w') = console_output (trace w) /\
   Daemon.stderr_output (Daemon.calls (snd r))
   = Daemon.stderr_output (Daemon.calls s)
     ++ match Daemon.eval Daemon.daemonize s with
        | Daemon.Return v =>
            if v <? 0
            then [Daemon.Fprintf_stderr ("Failed to daemonize" ++ nl) []]
            else []
        | Daemon.Exit _ => []
        end /\
   (Daemon.stderr_output (Daemon.calls (snd r))
    <> Daemon.stderr_output (Daemon.calls s) ->
    fst (fst r) = Some EXIT_FAILURE)).
Proof.
  intros r w'.
  destruct (channel_main_start filesystem pid_file init_fd watch_path w s
              eq_refl) as [D1 E1].
  fold r in D1, E1.
  destruct (channel_run_ops (daemon_mode w) fnmatch ops _ D1) as [D2 E2].
  fold (exec (run_ops fnmatch ops) (snd (fst r))) in D2, E2.
  fold w' in D2, E2.
  assert (Hcb : daemon_mode (exec main_callbacks w) = daemon_mode w)
    by (apply (channel_main_callbacks (daemon_mode w) w eq_refl)).
  split; [exact D2|]. split; intros Hd.
  - split.
    + unfold truthy in E1, E2. rewrite Hd in E1, E2. cbn in E1, E2.
      congruence.
    + subst r. unfold main_start. cbv zeta. rewrite Hcb. unfold truthy.
      rewrite Hd. reflexivity.
  - assert (Hr : snd r = Daemon.exec (Daemon.main_daemon pid_file) s /\
                 (forall st,
                    Daemon.eval (Daemon.main_daemon pid_file) s
                    = Daemon.Exit st -> fst (fst r) = Some st)).
    { subst r. unfold main_start. cbv zeta. rewrite Hcb. unfold truthy.
      apply Z.eqb_neq in Hd. rewrite Hd. cbn [negb].
      unfold Daemon.exec, Daemon.eval.
      destruct (Daemon.main_daemon pid_file s) as [[u|status] s'];
        cbn [fst snd]; split; try reflexivity; try discriminate.
      intros st [= ->]. reflexivity. }
    destruct Hr as [Hr Hex]. split; [|split].
    + apply Z.eqb_neq in Hd. unfold truthy in E1, E2. rewrite Hd in E1, E2.
      cbn in E1, E2. congruence.
    + rewrite Hr. apply main_daemon_stderr.
    + rewrite Hr, main_daemon_stderr. intros Hne.
      pose proof (main_daemon_by_steps pid_file s) as Hm. cbv zeta in Hm.
      destruct (Daemon.eval Daemon.daemonize s) as [v|st];
        [|rewrite app_nil_r in Hne; contradiction].
      destruct (v <? 0); [|rewrite app_nil_r in Hne; contradiction].
      apply Hex. unfold Daemon.eval. rewrite Hm. reflexivity.
Qed.

Lemma channels_by_mode_witness :
  console_output
    (trace (exec (run_ops (fun p f _ => Glob.fnmatch p f 0)
                    [Install "/srv/in/a"; RemoveAll])
              (snd (fst (main_start (fun _ => None) "/tmp/fw.pid" (-1)
                           "/srv/in" (initial_world 1 0 [] [1; 2])
                           (Daemon.initial_state
                              [0; 5; 0; 3; 140; 4711; 0]))))))
  = [] /\
  Daemon.stderr_output
    (Daemon.calls
       (snd (main_start (fun _ => None) "/tmp/fw.pid" 3 "/srv/in"
               (initial_world 1 0 [] [1; 2]) (Daemon.initial_state [-1]))))
  = [Daemon.Fprintf_stderr ("Failed to daemonize" ++ nl) []].
Proof.
  split.
  - destruct (channels_by_mode (fun p f _ => Glob.fnmatch p f 0)
                (fun _ => None) "/tmp/fw.pid" (-1) "/srv/in"
                [Install "/srv/in/a"; RemoveAll]
                (initial_world 1 0 [] [1; 2])
                (Daemon.initial_state [0; 5; 0; 3; 140; 4711; 0]))
      as (_ & _ & H).
    destruct (H ltac:(discriminate)) as [H1 _]. exact H1.
  - destruct (channels_by_mode (fun p f _ => Glob.fnmatch p f 0)
                (fun _ => None) "/tmp/fw.pid" 3 "/srv/in" []
                (initial_world 1 0 [] [1; 2]) (Daemon.initial_state [-1]))
      as (_ & _ & H).
    destruct (H ltac:(discriminate)) as (_ & H2 & _). exact H2.
Defined.

(** ** What the program hands to [free] *)

Lemma block_frees_app (t1 t2 : list effect) :
  block_frees (t1 ++ t2) = block_frees t1 ++ block_frees t2.
Proof. apply List.filter_app. Qed.

Lemma block_frees_none (t : list effect) :
  block_frees t = [] ->
  Forall (fun q => q = NULL) (free_requests t) /\
  freed t = [] /\ double_frees t = [].
Proof.
  induction t as [|e t IH]; [intros _; repeat split; constructor|].
  change (e :: t) with ([e] ++ t).
  rewrite block_frees_app, free_requests_app, freed_app, double_frees_app.
  intros H. apply app_eq_nil in H as [He Ht].
  destruct (IH Ht) as (H1 & -> & ->).
  destruct e; try (match goal with p : pointer |- _ => destruct p end);
    cbn in He |- *; try discriminate He; repeat split; try exact H1.
  constructor; [reflexivity | exact H1].
Qed.

#[local] Instance null_frees_frame : Frame null_frees.
Proof.
  split.
  - intros w Hn. split; reflexivity.
  - intros w1 w2 w3 H12 H23 Hn. destruct (H12 Hn) as [C12 E12].
    assert (Hn2 : null_patterns w2)
      by (unfold null_patterns; rewrite C12; exact Hn).
    destruct (H23 Hn2) as [C23 E23]. split; congruence.
Qed.

Lemma null_frees_emit (e : effect) :
  block_frees [e] = [] -> respects null_frees (emit e).
Proof.
  intros He w Hn. cbn. split; [reflexivity|].
  rewrite block_frees_app, He. apply app_nil_r.
Qed.

Lemma null_frees_modify (f : world -> world) :
  (forall w, live_callbacks (f w) = live_callbacks w /\ trace (f w) = trace w) ->
  respects null_frees (modify f).
Proof.
  intros Hf w Hn. cbn. destruct (Hf w) as [E1 E2].
  rewrite E1, E2. split; reflexivity.
Qed.

Lemma null_frees_inotify_add_watch (fd0 : Z) (p : string) (m : Z) :
  respects null_frees (inotify_add_watch fd0 p m).
Proof.
  intros w Hn. cbn. split; [reflexivity|].
  rewrite block_frees_app. apply app_nil_r.
Qed.

(** With no pattern in the table, [cleanup] hands only [NULL] to [free]. *)
Lemma null_frees_cleanup : respects null_frees cleanup.
Proof.
  intros w Hn. rewrite cleanup_emits. cbn [snd trace set_trace].
  split; [reflexivity|].
  rewrite block_frees_app.
  assert (E : block_frees (cleanup_effects w) = []); [|rewrite E; apply app_nil_r].
  unfold cleanup_effects. rewrite !block_frees_app.
  assert (H1 : forall l,
    block_frees (map (fun e => Sys_inotify_rm_watch (fd w) (wd e)) l) = []).
  { induction l as [|e l IH]; [reflexivity | exact IH]. }
  rewrite H1. cbn [app].
  assert (H2 : forall (k : nat) l,
    Forall (fun cb => pattern cb = None) l ->
    block_frees
      (imap (fun i cb => free_effect (trace w) (pattern_pointer (k + i) cb)) l)
    = []).
  { intros k l Hl. revert k. induction Hl as [|cb l Hcb Hl IH]; intros k.
    - reflexivity.
    - cbn [imap]. change (?x :: ?l') with ([x] ++ l').
      rewrite block_frees_app.
      rewrite (imap_ext _
                 (fun i cb0 =>
                    free_effect (trace w) (pattern_pointer (S k + i) cb0)) l)
        by (intros i x _; cbn; rewrite Nat.add_succ_r; reflexivity).
      rewrite (IH (S k)). unfold pattern_pointer. rewrite Hcb. reflexivity. }
  pose proof (H2 0%nat _ Hn) as E0. cbn [Nat.add] in E0. rewrite E0.
  destruct (fd w >=? 0); reflexivity.
Qed.

Ltac null_frees_steps :=
  repeat first
    [ apply respects_ret; exact _
    | apply respects_get; exact _
    | apply null_frees_cleanup
    | apply null_frees_emit; reflexivity
    | apply null_frees_inotify_add_watch
    | apply null_frees_modify; intros; split; reflexivity
    | apply respects_when; [exact _ |]
    | apply respects_for_each; [exact _ | intros]
    | apply respects_nftw_run; [exact _ | intros]
    | apply respects_bind; [exact _ | | intros]
    | match goal with
      | |- respects _ (if ?b then _ else _) => destruct b
      | |- respects _ (match ?x with _ => _ end) => destruct x
      end ].

Lemma null_frees_add_watch (p : string) : respects null_frees (add_watch p).
Proof.
  unfold add_watch, syslog, fprintf_stderr, printf. null_frees_steps.
Qed.

Lemma null_frees_nftw (filesystem : string -> option fs_tree) (p : string) :
  respects null_frees (nftw filesystem p ftw_callback).
Proof.
  unfold nftw, ftw_callback;
    repeat first [ apply null_frees_add_watch | progress null_frees_steps ].
Qed.

Lemma null_frees_watch_recursively (filesystem : string -> option fs_tree)
    (p : string) :
  respects null_frees (watch_recursively filesystem p).
Proof.
  unfold watch_recursively, nftw, ftw_callback, syslog, fprintf_stderr;
    repeat first [ apply null_frees_add_watch | progress null_frees_steps ].
Qed.

Lemma null_frees_main_event (fnmatch : string -> string -> Z -> Z)
    (ev : inotify_event) :
  respects null_frees (main_event fnmatch ev).
Proof.
  unfold main_event, process_event, call, syslog, fprintf_stderr, printf;
    repeat first [ apply null_frees_add_watch | progress null_frees_steps ].
Qed.

Lemma null_frees_run_ops (fnmatch : string -> string -> Z -> Z)
    (ops : list op) :
  respects null_frees (run_ops fnmatch ops).
Proof.
  apply respects_for_each; [exact _|]. intros [p|p found|ev|]; cbn.
  - apply respects_bind; [exact _ | apply null_frees_add_watch |].
    intros _. apply respects_ret. exact _.
  - apply null_frees_watch_recursively.
  - apply null_frees_main_event.
  - apply null_frees_cleanup.
Qed.

Lemma null_frees_main_inotify (filesystem : string -> option fs_tree)
    (init_fd : Z) (watch_path : string) :
  respects null_frees (main_inotify filesystem init_fd watch_path).
Proof.
  unfold main_inotify, main_watches, syslog, perror, printf;
    repeat first [ apply null_frees_add_watch | apply null_frees_nftw
                 | progress null_frees_steps ].
Qed.

(** X28.  The program never hands a block to [free].  [main] registers
    its three callbacks without a pattern and nothing registers another,
    so from the start of [main] on, however the start ends and through
    any sequence of installs, recursive installs, event records and runs
    of [cleanup], every pointer [cleanup] passes to [free] is [NULL]: no
    block is freed, and none is freed twice, even when [cleanup] runs
    more than once. *)
Theorem program_frees_only_null
    (fnmatch : string -> string -> Z -> Z)
    (filesystem : string -> option fs_tree) (pid_file : string)
    (init_fd daemon recursive : Z) (pats : list string) (replies : list Z)
    (watch_path : string) (ops : list op) (s : Daemon.state) :
  let r := main_start filesystem pid_file init_fd watch_path
             (initial_world daemon recursive pats replies) s in
  let w' := exec (run_ops fnmatch ops) (snd (fst r)) in
  live_callbacks w' = default_callbacks /\
  Forall (fun q => q = NULL) (free_requests (trace w')) /\
  freed (trace w') = [] /\
  double_frees (trace w') = [].
Proof.
  intros r w'.
  set (w0 := initial_world daemon recursive pats replies) in *.
  assert (H1 : live_callbacks (exec main_callbacks w0) = default_callbacks
               /\ trace (exec main_callbacks w0) = []) by (split; reflexivity).
  destruct H1 as [Hcb Htr].
  assert (Hn : null_patterns (exec main_callbacks w0)).
  { unfold null_patterns. rewrite Hcb. repeat constructor. }
  assert (Hr : null_frees (exec main_callbacks w0) (snd (fst r))).
  { subst r. unfold main_start. cbv zeta.
    pose proof (null_frees_main_inotify filesystem init_fd watch_path
                  (exec main_callbacks w0)) as Hi.
    destruct (truthy (daemon_mode (exec main_callbacks w0))); [|exact Hi].
    destruct (Daemon.main_daemon pid_file s) as [[u|status] s']; [exact Hi|].
    cbn [fst snd]. apply null_frees_cleanup. }
  destruct (Hr Hn) as [C1 E1].
  assert (Hn1 : null_patterns (snd (fst r)))
    by (unfold null_patterns; rewrite C1; exact Hn).
  destruct (null_frees_run_ops fnmatch ops _ Hn1) as [C2 E2].
  fold (exec (run_ops fnmatch ops) (snd (fst r))) in C2, E2. fold w' in C2, E2.
  rewrite E1, Htr in E2. split.
  - rewrite C2, C1. exact Hcb.
  - apply block_frees_none. exact E2.
Qed.

(** A daemon whose start gets to the event loop, then an install and two
    runs of [cleanup]: six frees, all of [NULL]. *)
Lemma program_frees_only_null_witness :
  free_requests
    (trace (exec (run_ops (fun p f _ => Glob.fnmatch p f 0)
                    [Install "/srv/in/a"; RemoveAll; RemoveAll])
              (snd (fst (main_start (fun _ => None) "/tmp/fw.pid" 3
                           "/srv/in" (initial_world 1 0 [] [1; 2])
                           (Daemon.initial_state
                              [0; 5; 0; 3; 140; 4711; 0]))))))
  = [NULL; NULL; NULL; NULL; NULL; NULL] /\
  double_frees
    (trace (exec (run_ops (fun p f _ => Glob.fnmatch p f 0)
                    [Install "/srv/in/a"; RemoveAll; RemoveAll])
              (snd (fst (main_start (fun _ => None) "/tmp/fw.pid" 3
                           "/srv/in" (initial_world 1 0 [] [1; 2])
                           (Daemon.initial_state
                              [0; 5; 0; 3; 140; 4711; 0]))))))
  = [].
Proof.
  destruct (program_frees_only_null (fun p f _ => Glob.fnmatch p f 0)
              (fun _ => None) "/tmp/fw.pid" 3 1 0 [] [1; 2] "/srv/in"
              [Install "/srv/in/a"; RemoveAll; RemoveAll]
              (Daemon.initial_state [0; 5; 0; 3; 140; 4711; 0]))
    as (_ & _ & _ & H).
  split; [vm_compute; reflexivity | exact H].
Defined.
